(** * DareXAI: the document ingestion and retrieval pipeline

    A shallow embedding of [backend/src/services/documentService.ts]
    (text splitter, chunk de-duplication, embedding provider with cache
    and quota back-off, ingestion, retrieval, deletion) and of the parts
    of [backend/src/services/chromaService.ts] and
    [backend/src/models/Document.ts] it relies on.

    Conventions.
    - A JavaScript string is the list of its UTF-16 code units ([N]).
    - Integral JavaScript numbers (lengths, offsets, millisecond clocks)
      are [Z]; similarity scores and embedding components are IEEE
      doubles ([float]).
    - Every external collaborator (the embedding service, the PDF
      parser, MongoDB, ChromaDB, [Math.random], the passing of time) is
      an oracle: a function of the number of times it has been consulted.
      The mutable fields of the services and the cursors into the oracles
      make up the [World] that every operation threads. *)

From Stdlib Require Import ZArith Lia Bool String Ascii.
From Stdlib Require Import Floats.PrimFloat.
From stdpp Require Import gmap list.

Local Open Scope Z_scope.

(* ===================================================================== *)
(** ** JavaScript strings *)
(* ===================================================================== *)

Module JS.

(** A string is its sequence of UTF-16 code units. *)
Definition jsstring := list N.

(** Literals for examples: the code units of an ASCII literal. *)
Definition lit (s : string) : jsstring :=
  List.map N_of_ascii (list_ascii_of_string s).

(** [s.length], of a string or of an array. *)
Definition strlen {A} (s : list A) : Z := Z.of_nat (length s).

(** [slice(start, end)] of [String.prototype] and [Array.prototype]:
    negative indices count from the end, everything is clamped to
    [0, length]. *)
Definition slice {A} (s : list A) (start end_ : Z) : list A :=
  let len := strlen s in
  let from := if start <? 0 then Z.max (len + start) 0 else Z.min start len in
  let to := if end_ <? 0 then Z.max (len + end_) 0 else Z.min end_ len in
  take (Z.to_nat (to - from)) (drop (Z.to_nat from) s).

(** [String.prototype.substring(0, n)] for a non-negative literal [n]. *)
Definition substring0 (s : jsstring) (n : nat) : jsstring := take n s.

(** The code units matched by [\s] and stripped by [trim]:
    WhiteSpace and LineTerminator of ECMAScript. *)
Definition isWhitespace (c : N) : bool :=
  ((9 <=? c) && (c <=? 13) || (c =? 32) || (c =? 160) || (c =? 5760)
   || (8192 <=? c) && (c <=? 8202) || (c =? 8232) || (c =? 8233)
   || (c =? 8239) || (c =? 8287) || (c =? 12288) || (c =? 65279))%N.

Fixpoint trimStart (s : jsstring) : jsstring :=
  match s with
  | c :: rest => if isWhitespace c then trimStart rest else s
  | [] => []
  end.

Definition trimEnd (s : jsstring) : jsstring := rev (trimStart (rev s)).

Definition trim (s : jsstring) : jsstring := trimEnd (trimStart s).

(** [s.replace(/\s+/g, r)]: every maximal run of white space becomes
    one copy of [r]. [inRun] records that the previous unit was white
    space, i.e. that the current run has been replaced already. *)
Fixpoint replaceWsRuns (r : jsstring) (inRun : bool) (s : jsstring) : jsstring :=
  match s with
  | [] => []
  | c :: rest =>
      if isWhitespace c
      then (if inRun then [] else r) ++ replaceWsRuns r true rest
      else c :: replaceWsRuns r false rest
  end.

Definition LF : N := 10%N.
Definition SP : N := 32%N.

(** [s.replace(/\n{3,}/g, '\n\n')]: [pending] counts the line feeds of
    the run being read; a run of three or more is written as two. *)
Definition flushNewlines (pending : nat) : jsstring :=
  repeat LF (Nat.min pending 2).

Fixpoint limitNewlines (pending : nat) (s : jsstring) : jsstring :=
  match s with
  | [] => flushNewlines pending
  | c :: rest =>
      if (c =? LF)%N then limitNewlines (S pending) rest
      else flushNewlines pending ++ c :: limitNewlines 0 rest
  end.

Fixpoint startsWith (s pre : jsstring) : bool :=
  match pre, s with
  | [], _ => true
  | p :: pre', c :: s' => (p =? c)%N && startsWith s' pre'
  | _ :: _, [] => false
  end.

(** [s.includes(sub)] *)
Fixpoint includes (s sub : jsstring) : bool :=
  startsWith s sub ||
  match s with
  | [] => false
  | _ :: s' => includes s' sub
  end.

(** A JavaScript number that is an integer or [NaN]. *)
Inductive jsnum := Num (z : Z) | NaN.

Definition digitValue (c : N) : option Z :=
  if ((48 <=? c) && (c <=? 57))%N then Some (Z.of_N c - 48)
  else if ((97 <=? c) && (c <=? 122))%N then Some (Z.of_N c - 87)
  else if ((65 <=? c) && (c <=? 90))%N then Some (Z.of_N c - 55)
  else None.

(** The longest prefix of digits of the radix, read as a number. *)
Fixpoint readDigits (radix : Z) (acc : option Z) (s : jsstring) : option Z :=
  match s with
  | [] => acc
  | c :: rest =>
      match digitValue c with
      | Some d =>
          if d <? radix
          then readDigits radix (Some (default 0 acc * radix + d)) rest
          else acc
      | None => acc
      end
  end.

(** [parseInt(s)] with no radix argument: leading white space, an
    optional sign, an optional [0x]/[0X] prefix selecting radix 16, then
    the longest run of digits; [NaN] when there is none. *)
Definition parseInt (s : jsstring) : jsnum :=
  let s := trimStart s in
  let '(sign, s) :=
    match s with
    | c :: rest =>
        if (c =? 45)%N then (-1, rest)
        else if (c =? 43)%N then (1, rest)
        else (1, s)
    | [] => (1, s)
    end in
  let '(radix, s) :=
    match s with
    | z :: x :: rest =>
        if ((z =? 48) && ((x =? 120) || (x =? 88)))%N then (16, rest) else (10, s)
    | _ => (10, s)
    end in
  match readDigits radix None s with
  | Some n => Num (sign * n)
  | None => NaN
  end.

(** [a + b], [a * b] and [a < b] on such numbers. *)
Definition add (a b : jsnum) : jsnum :=
  match a, b with Num x, Num y => Num (x + y) | _, _ => NaN end.
Definition mul (a b : jsnum) : jsnum :=
  match a, b with Num x, Num y => Num (x * y) | _, _ => NaN end.
Definition lt (a b : jsnum) : bool :=
  match a, b with Num x, Num y => x <? y | _, _ => false end.

End JS.

Import JS.

(* ===================================================================== *)
(** ** The text splitter *)
(* ===================================================================== *)

Module Splitter.

Section SplitText.

(** The two fields the constructor keeps of its configuration. *)
Variables chunkSize chunkOverlap : Z.
Variable text : jsstring.

Definition maxIterations : nat := 1000.

(** The [while] loop of [splitText]. [budget] is
    [maxIterations - iterationCount]; the loop state is [start], the
    chunks pushed so far and [iterationCount]. *)
Fixpoint splitLoop (budget : nat) (start : Z) (chunks : list jsstring)
    (iterationCount : nat) : list jsstring * nat :=
  match budget with
  | O => (chunks, iterationCount)
  | S budget' =>
      if negb (start <? strlen text) then (chunks, iterationCount) else
      let iterationCount := S iterationCount in
      let end_ := Z.min (start + chunkSize) (strlen text) in
      let chunk := slice text start end_ in
      let chunks := if 0 <? strlen chunk then chunks ++ [chunk] else chunks in
      let start := end_ - chunkOverlap in
      (* Ensure progress to avoid infinite loop *)
      if (start <=? end_ - chunkSize) && (end_ <? strlen text) then
        let start := end_ - chunkOverlap in
        (* Extra safety check *)
        if (start + chunkSize >? strlen text) && (end_ >=? strlen text)
        then (chunks, iterationCount)
        else splitLoop budget' start chunks iterationCount
      else if end_ >=? strlen text then (chunks, iterationCount)
      else
        if (start + chunkSize >? strlen text) && (end_ >=? strlen text)
        then (chunks, iterationCount)
        else splitLoop budget' start chunks iterationCount
  end.

Definition splitRun : list jsstring * nat := splitLoop maxIterations 0 [] 0%nat.

Definition splitText : list jsstring := fst splitRun.

(** The number of loop iterations performed; the warning of the
    source is printed when it reaches [maxIterations]. *)
Definition iterations : nat := snd splitRun.

End SplitText.

(** The [k]-th window of the spec: it starts at [k * (chunkSize -
    chunkOverlap)] and has length [min chunkSize remaining]. *)
Definition window (chunkSize chunkOverlap : Z) (text : jsstring) (k : nat) : jsstring :=
  let start := Z.of_nat k * (chunkSize - chunkOverlap) in
  slice text start (Z.min (start + chunkSize) (strlen text)).

(** How many windows are needed to reach the end of a text of length
    [len]: none for the empty text, one when the text fits a chunk, and
    otherwise one more per started stride beyond the first chunk. *)
Definition windowCount (chunkSize chunkOverlap len : Z) : nat :=
  if len <=? 0 then 0%nat
  else if len <=? chunkSize then 1%nat
  else
    let stride := chunkSize - chunkOverlap in
    Z.to_nat (1 + (len - chunkSize + stride - 1) / stride).

(** Concatenating the chunks minus their overlaps: the first chunk
    whole, every later one without its first [chunkOverlap] units. *)
Definition reconstruct (chunkOverlap : Z) (chunks : list jsstring) : jsstring :=
  match chunks with
  | [] => []
  | c :: rest => c ++ concat (List.map (drop (Z.to_nat chunkOverlap)) rest)
  end.

End Splitter.

(* ===================================================================== *)
(** ** Chunking with de-duplication *)
(* ===================================================================== *)

Module Chunker.

Section ChunkText.

(** [String.prototype.toLowerCase]. Its Unicode case-mapping table
    belongs to the JavaScript runtime and is taken as a parameter. *)
Variable toLowerCase : jsstring -> jsstring.

(** The normalized version used for comparison:
    [trimmedChunk.substring(0, 100).toLowerCase().replace(/\s+/g, '')]. *)
Definition signature (trimmedChunk : jsstring) : jsstring :=
  replaceWsRuns [] false (toLowerCase (substring0 trimmedChunk 100)).

(** The [for (const chunk of rawChunks)] loop; its state is the set
    [seenContent] and the array [uniqueChunks]. *)
Fixpoint dedupeLoop (seenContent : gset jsstring) (uniqueChunks : list jsstring)
    (rawChunks : list jsstring) : list jsstring :=
  match rawChunks with
  | [] => uniqueChunks
  | chunk :: rest =>
      let trimmedChunk := trim chunk in
      (* Skip empty or very short chunks *)
      if strlen trimmedChunk <? 50 then dedupeLoop seenContent uniqueChunks rest
      else
        let signature := signature trimmedChunk in
        (* Only add if we haven't seen this signature before *)
        if decide (signature ∈ seenContent)
        then dedupeLoop seenContent uniqueChunks rest
        else dedupeLoop ({[signature]} ∪ seenContent)
                        (uniqueChunks ++ [trimmedChunk]) rest
  end.

(** The de-duplication stage of [chunkText]. *)
Definition dedupe (rawChunks : list jsstring) : list jsstring :=
  dedupeLoop ∅ [] rawChunks.

(** The cleaning of the text before it is split. *)
Definition cleanText (text : jsstring) : jsstring :=
  trim (limitNewlines 0 (replaceWsRuns [SP] false text)).

(** [chunkText]. Nothing in its [try] block can throw on a string
    (the splitter is total, the rest is string and set arithmetic), so
    the [catch] branch with [fallbackChunking] is never entered and
    the function is its [try] block. *)
Definition chunkText (text : jsstring) : list jsstring :=
  let cleanedText := cleanText text in
  let rawChunks := Splitter.splitText 1000 100 cleanedText in
  dedupe rawChunks.

(** The contract of the de-duplicator in the words of the spec: drop
    the chunks whose trimmed length is under 50, then keep a chunk
    exactly when no earlier candidate has its signature. *)
Definition candidates (rawChunks : list jsstring) : list jsstring :=
  List.filter (fun c => negb (strlen c <? 50)) (List.map trim rawChunks).

Fixpoint firstOccurrences (earlier cands : list jsstring) : list jsstring :=
  match cands with
  | [] => []
  | c :: rest =>
      (if decide (signature c ∈ List.map signature earlier) then [] else [c])
      ++ firstOccurrences (earlier ++ [c]) rest
  end.

Definition dedupeSpec (rawChunks : list jsstring) : list jsstring :=
  firstOccurrences [] (candidates rawChunks).

End ChunkText.

(** Lower-casing of the letters A-Z, enough for ASCII examples. *)
Definition asciiLower (s : jsstring) : jsstring :=
  List.map (fun c => if ((65 <=? c) && (c <=? 90))%N then (c + 32)%N else c) s.

End Chunker.

(** When two terms are compared, the loops are unfolded last: the
    functions that call them are unfolded first. *)
Strategy 100 [Splitter.splitLoop].
Strategy 90 [Splitter.splitRun].
Strategy 80 [Splitter.splitText Splitter.iterations].
Strategy 70 [Chunker.dedupeLoop].
Strategy 60 [Chunker.dedupe].

(* ===================================================================== *)
(** ** Data: errors, documents, vector-index rows, events *)
(* ===================================================================== *)

Module Data.

(** An entry of [error.errorDetails]. *)
Record ErrorDetail := {
  atType : option jsstring;        (* detail['@type'] *)
  retryDelay : option jsstring;
}.

(** A thrown value, with the properties the handlers read. *)
Record JsError := {
  status : option Z;
  message : option jsstring;
  errorDetails : option (list ErrorDetail);
}.

(** [new Error(msg)] *)
Definition newError (msg : jsstring) : JsError :=
  {| status := None; message := Some msg; errorDetails := None |}.

(** [IDocumentChunk] and [IDocument] of [models/Document.ts]. *)
Record IDocumentChunk := {
  content : jsstring;
  pageNumber : option Z;
  chunkIndex : Z;
}.

Record IDocument := {
  _id : jsstring;
  botId : jsstring;
  userId : jsstring;
  filename : jsstring;
  fileType : jsstring;
  fileSize : Z;
  uploadedAt : Z;
  source : jsstring;
  chunks : list IDocumentChunk;
  totalChunks : Z;
  processed : bool;
}.

(** The argument of [DocumentModel.create]. *)
Record DocumentInput := {
  inBotId : jsstring;
  inUserId : jsstring;
  inFilename : jsstring;
  inFileType : jsstring;
  inFileSize : Z;
  inSource : jsstring;
  inChunks : list IDocumentChunk;
  inTotalChunks : Z;
  inProcessed : bool;
}.

(** [EmbeddingMetadata] of [chromaService.ts]. *)
Record EmbeddingMetadata := {
  documentId : jsstring;
  metaChunkIndex : Z;
  metaText : jsstring;
  metaSource : jsstring;
}.

(** One row of a ChromaDB query result, as the service receives it:
    any property of the metadata, the metadata itself and the distance
    may be missing. *)
Record RawMetadata := {
  rawDocumentId : option jsstring;
  rawChunkIndex : option Z;
  rawText : option jsstring;
  rawSource : option jsstring;
}.

Record QueryRow := {
  rowId : jsstring;
  rowDocument : jsstring;
  rowMetadata : option RawMetadata;
  rowDistance : option float;
}.

(** The outcome of [collection.query]: it throws, or it answers; the
    answer has its four arrays ([Some rows]) or lacks one of them. *)
Inductive QueryReply :=
| QueryThrows (e : JsError)
| QueryAnswers (rows : option (list QueryRow)).

(** An element of the array returned by [searchSimilar]. *)
Record SimilarChunk := {
  id : jsstring;
  text : jsstring;
  score : float;
  metadata : EmbeddingMetadata;
}.

(** An element of the array returned by [searchDocuments]. *)
Record SearchResult := {
  resContent : jsstring;
  resScore : float;
  resFilename : jsstring;
}.

(** The outcome of [model.embedContent]. *)
Inductive EmbedReply :=
| EmbedValues (values : list float)
| EmbedThrows (e : JsError).

(** What an operation does to the outside, in order. *)
Inductive Event :=
| EvGenerateEmbedding (text : jsstring)   (* generateEmbedding entered *)
| EvEmbedContent (text : jsstring)        (* the upstream service is called *)
| EvDocumentCreate (ok : bool)            (* DocumentModel.create returned / threw *)
| EvDocumentDelete (ok : bool)            (* DocumentModel.deleteOne returned / threw *)
| EvAddEmbeddings (documentId : jsstring) (* chromaService.addEmbeddings entered *)
| EvDeleteEmbeddings (documentId : jsstring). (* chromaService.deleteDocument entered *)

#[export] Instance Event_eq_dec : EqDecision Event.
Proof. solve_decision. Defined.

(** The external collaborators. Each answer is a function of how many
    times the collaborator has been consulted before. *)
Record Oracle := {
  toLowerCase : jsstring -> jsstring;
  (** the [n]-th value of [Math.random()] *)
  random : nat -> float;
  (** the time, in ms, that passes at the [n]-th [await] *)
  elapsed : nat -> N;
  (** the [n]-th call of [model.embedContent] *)
  embedContent : nat -> jsstring -> EmbedReply;
  (** [pdfParse(buffer)]: the text, or [None] when it throws *)
  pdfParse : list N -> option jsstring;
  (** whether a string casts to an [ObjectId] *)
  isObjectId : jsstring -> bool;
  (** whether the [n]-th MongoDB operation fails (connection, server) *)
  mongoFails : nat -> bool;
  (** the [_id] MongoDB gives to the document of its [n]-th operation *)
  newObjectId : nat -> jsstring;
  (** whether the [n]-th ChromaDB operation fails *)
  chromaFails : nat -> bool;
  (** the answer of ChromaDB when its [n]-th operation is a query *)
  chromaQuery : nat -> list float -> Z -> QueryReply;
}.

(** The mutable fields of [DocumentService]. [genAI] is whether the
    client exists, i.e. whether [config.geminiApiKey] was set. *)
Record ServiceState := {
  genAI : bool;
  embeddingCache : gmap jsstring (list float);
  lastEmbeddingCall : Z;
  quotaExceeded : bool;
  quotaResetTime : jsnum;
}.

(** The mutable fields of [ChromaDBService] ([collection] is whether
    the field is non-null). *)
Record ChromaState := {
  collection : bool;
  isAvailable : bool;
}.

Record World := {
  now : Z;                       (* Date.now() *)
  service : ServiceState;
  chroma : ChromaState;
  documents : list IDocument;    (* the MongoDB collection *)
  randomCalls : nat;
  awaits : nat;
  embedCalls : nat;
  mongoOps : nat;
  chromaOps : nat;
  trace : list Event;
}.

(** A freshly constructed [DocumentService] and [ChromaDBService]. *)
Definition initialService (configured : bool) : ServiceState :=
  {| genAI := configured; embeddingCache := ∅; lastEmbeddingCall := 0;
     quotaExceeded := false; quotaResetTime := Num 0 |}.

Definition initialChroma : ChromaState :=
  {| collection := false; isAvailable := false |}.

Definition initialWorld (configured : bool) (clock : Z) : World :=
  {| now := clock; service := initialService configured; chroma := initialChroma;
     documents := []; randomCalls := 0; awaits := 0; embedCalls := 0;
     mongoOps := 0; chromaOps := 0; trace := [] |}.

(** Field updates. *)
Definition setNow (t : Z) (w : World) : World :=
  {| now := t; service := service w; chroma := chroma w; documents := documents w;
     randomCalls := randomCalls w; awaits := awaits w; embedCalls := embedCalls w;
     mongoOps := mongoOps w; chromaOps := chromaOps w; trace := trace w |}.
Definition setService (s : ServiceState) (w : World) : World :=
  {| now := now w; service := s; chroma := chroma w; documents := documents w;
     randomCalls := randomCalls w; awaits := awaits w; embedCalls := embedCalls w;
     mongoOps := mongoOps w; chromaOps := chromaOps w; trace := trace w |}.
Definition setChroma (c : ChromaState) (w : World) : World :=
  {| now := now w; service := service w; chroma := c; documents := documents w;
     randomCalls := randomCalls w; awaits := awaits w; embedCalls := embedCalls w;
     mongoOps := mongoOps w; chromaOps := chromaOps w; trace := trace w |}.
Definition setDocuments (d : list IDocument) (w : World) : World :=
  {| now := now w; service := service w; chroma := chroma w; documents := d;
     randomCalls := randomCalls w; awaits := awaits w; embedCalls := embedCalls w;
     mongoOps := mongoOps w; chromaOps := chromaOps w; trace := trace w |}.
Definition setRandomCalls (n : nat) (w : World) : World :=
  {| now := now w; service := service w; chroma := chroma w; documents := documents w;
     randomCalls := n; awaits := awaits w; embedCalls := embedCalls w;
     mongoOps := mongoOps w; chromaOps := chromaOps w; trace := trace w |}.
Definition setAwaits (n : nat) (w : World) : World :=
  {| now := now w; service := service w; chroma := chroma w; documents := documents w;
     randomCalls := randomCalls w; awaits := n; embedCalls := embedCalls w;
     mongoOps := mongoOps w; chromaOps := chromaOps w; trace := trace w |}.
Definition setEmbedCalls (n : nat) (w : World) : World :=
  {| now := now w; service := service w; chroma := chroma w; documents := documents w;
     randomCalls := randomCalls w; awaits := awaits w; embedCalls := n;
     mongoOps := mongoOps w; chromaOps := chromaOps w; trace := trace w |}.
Definition setMongoOps (n : nat) (w : World) : World :=
  {| now := now w; service := service w; chroma := chroma w; documents := documents w;
     randomCalls := randomCalls w; awaits := awaits w; embedCalls := embedCalls w;
     mongoOps := n; chromaOps := chromaOps w; trace := trace w |}.
Definition setChromaOps (n : nat) (w : World) : World :=
  {| now := now w; service := service w; chroma := chroma w; documents := documents w;
     randomCalls := randomCalls w; awaits := awaits w; embedCalls := embedCalls w;
     mongoOps := mongoOps w; chromaOps := n; trace := trace w |}.
Definition setTrace (t : list Event) (w : World) : World :=
  {| now := now w; service := service w; chroma := chroma w; documents := documents w;
     randomCalls := randomCalls w; awaits := awaits w; embedCalls := embedCalls w;
     mongoOps := mongoOps w; chromaOps := chromaOps w; trace := t |}.

Definition setEmbeddingCache (c : gmap jsstring (list float)) (s : ServiceState) :=
  {| genAI := genAI s; embeddingCache := c; lastEmbeddingCall := lastEmbeddingCall s;
     quotaExceeded := quotaExceeded s; quotaResetTime := quotaResetTime s |}.
Definition setLastEmbeddingCall (t : Z) (s : ServiceState) :=
  {| genAI := genAI s; embeddingCache := embeddingCache s; lastEmbeddingCall := t;
     quotaExceeded := quotaExceeded s; quotaResetTime := quotaResetTime s |}.
Definition setQuotaExceeded (b : bool) (s : ServiceState) :=
  {| genAI := genAI s; embeddingCache := embeddingCache s;
     lastEmbeddingCall := lastEmbeddingCall s;
     quotaExceeded := b; quotaResetTime := quotaResetTime s |}.
Definition setQuotaResetTime (t : jsnum) (s : ServiceState) :=
  {| genAI := genAI s; embeddingCache := embeddingCache s;
     lastEmbeddingCall := lastEmbeddingCall s;
     quotaExceeded := quotaExceeded s; quotaResetTime := t |}.

End Data.

Import Data.

(* ===================================================================== *)
(** ** Effects: state and exceptions *)
(* ===================================================================== *)

Module Eff.

(** A computation runs in a world and ends with a value or a thrown
    error, in a new world. *)
Definition M (A : Type) : Type := World -> (JsError + A) * World.

Definition ret {A} (a : A) : M A := fun w => (inr a, w).

Definition throw {A} (e : JsError) : M A := fun w => (inl e, w).

Definition bind {A B} (c : M A) (k : A -> M B) : M B :=
  fun w =>
    match c w with
    | (inr a, w') => k a w'
    | (inl e, w') => (inl e, w')
    end.

(** [try { body } catch (error) { handler }] *)
Definition tryCatch {A} (body : M A) (handler : JsError -> M A) : M A :=
  fun w =>
    match body w with
    | (inr a, w') => (inr a, w')
    | (inl e, w') => handler e w'
    end.

Definition get : M World := fun w => (inr w, w).

Definition modify (f : World -> World) : M unit := fun w => (inr tt, f w).

Definition emit (e : Event) : M unit :=
  modify (fun w => setTrace (trace w ++ [e]) w).

Fixpoint mapM {A B} (f : A -> M B) (l : list A) : M (list B) :=
  match l with
  | [] => ret []
  | a :: rest =>
      bind (f a) (fun b => bind (mapM f rest) (fun bs => ret (b :: bs)))
  end.

End Eff.

Import Eff.

(** The notations [x ← c; k] and [c;; k] of stdpp sequence computations. *)
#[export] Instance M_ret : MRet M := @ret.
#[export] Instance M_bind : MBind M := fun A B k c => bind c k.

(* ===================================================================== *)
(** ** The services *)
(* ===================================================================== *)

Module Service.

Section WithOracle.

Variable o : Oracle.

(** *** Time and randomness *)

(** An [await] of an external operation: the time it takes passes. *)
Definition await : M unit :=
  modify (fun w => setAwaits (S (awaits w))
                     (setNow (now w + Z.of_N (elapsed o (awaits w))) w)).

(** [await new Promise(resolve => setTimeout(resolve, waitTime))]: the
    timer fires after [waitTime], and the continuation runs some time
    after that. *)
Definition sleep (waitTime : Z) : M unit :=
  modify (fun w => setNow (now w + waitTime) w);; await.

(** [Math.random()] *)
Definition mathRandom : M float :=
  fun w => (inr (random o (randomCalls w)), setRandomCalls (S (randomCalls w)) w).

(** [Array(768).fill(0).map(() => Math.random())] *)
Definition mockEmbedding : M (list float) :=
  mapM (fun _ : Z => mathRandom) (repeat 0 768).

Definition modifyService (f : ServiceState -> ServiceState) : M unit :=
  modify (fun w => setService (f (service w)) w).

(** *** The embedding provider *)

Definition embeddingDelay : Z := 1000.

(** [isQuotaExceeded()] *)
Definition isQuotaExceeded (w : World) : bool :=
  quotaExceeded (service w) && lt (Num (now w)) (quotaResetTime (service w)).

(** [model.embedContent(text)] of the Gemini client. *)
Definition embedContentCall (text : jsstring) : M (list float) :=
  emit (EvEmbedContent text);;
  w ← get;
  modify (setEmbedCalls (S (embedCalls w)));;
  await;;
  match embedContent o (embedCalls w) text with
  | EmbedValues values => mret values
  | EmbedThrows e => throw e
  end.

(** [error.status === 429 || error.message?.includes('quota')] *)
Definition isRateLimit (error : JsError) : bool :=
  bool_decide (status error = Some 429)
  || match message error with
     | Some m => includes m (lit "quota")
     | None => false
     end.

(** [error.errorDetails?.find(detail =>
      detail['@type']?.includes('RetryInfo'))?.retryDelay] *)
Definition findRetryDelay (error : JsError) : option jsstring :=
  match errorDetails error with
  | Some details =>
      match List.find (fun detail =>
                         match atType detail with
                         | Some t => includes t (lit "RetryInfo")
                         | None => false
                         end) details with
      | Some detail => retryDelay detail
      | None => None
      end
  | None => None
  end.

(** The [catch] block of [generateEmbedding]. *)
Definition onEmbeddingError (error : JsError) : M (list float) :=
  (if isRateLimit error then
     w ← get;
     match findRetryDelay error with
     | Some (c :: s) =>
         let seconds := parseInt (c :: s) in
         modifyService (setQuotaResetTime (add (Num (now w)) (mul seconds (Num 1000))))
     | _ =>
         (* Default to 1 minute if no retry info *)
         modifyService (setQuotaResetTime (Num (now w + 60000)))
     end;;
     modifyService (setQuotaExceeded true)
   else mret tt);;
  (* Return mock embedding on any error *)
  mockEmbedding.

(** [generateEmbedding] *)
Definition generateEmbedding (text : jsstring) : M (list float) :=
  emit (EvGenerateEmbedding text);;
  (* Check cache first *)
  let cacheKey := substring0 text 100 in
  w ← get;
  match embeddingCache (service w) !! cacheKey with
  | Some cached => mret cached
  | None =>
      (* Check if quota is exceeded *)
      if quotaExceeded (service w) && lt (Num (now w)) (quotaResetTime (service w))
      then mockEmbedding
      else
        tryCatch
          (if negb (genAI (service w)) then mockEmbedding
           else
             (* Rate limiting: wait if needed *)
             let timeSinceLastCall := now w - lastEmbeddingCall (service w) in
             (if timeSinceLastCall <? embeddingDelay
              then sleep (embeddingDelay - timeSinceLastCall)
              else mret tt);;
             w1 ← get;
             modifyService (setLastEmbeddingCall (now w1));;
             values ← embedContentCall text;
             (* Cache the result *)
             modifyService (fun s =>
               setEmbeddingCache (<[cacheKey := values]> (embeddingCache s)) s);;
             (* Clear quota exceeded flag on success *)
             modifyService (setQuotaExceeded false);;
             mret values)
          onEmbeddingError
  end.

(** *** MongoDB: [DocumentModel] *)

Definition fileTypeEnum : list jsstring :=
  [lit "pdf"; lit "txt"; lit "doc"; lit "docx"].

Definition sourceEnum : list jsstring := [lit "pdf"; lit "url"].

Definition isEmpty {A} (l : list A) : bool :=
  match l with [] => true | _ => false end.

(** Validation against [documentSchema]: the two ids cast to
    [ObjectId], required strings are not empty, and the enumerated
    fields hold one of their values. *)
Definition validates (d : DocumentInput) : bool :=
  isObjectId o (inBotId d) && isObjectId o (inUserId d)
  && negb (isEmpty (inFilename d))
  && bool_decide (inFileType d ∈ fileTypeEnum)
  && bool_decide (inSource d ∈ sourceEnum)
  && forallb (fun c => negb (isEmpty (content c))) (inChunks d).

Definition validationError : JsError := newError (lit "Document validation failed").
Definition castError : JsError := newError (lit "Cast to ObjectId failed").
Definition mongoError : JsError := newError (lit "MongoDB operation failed").

(** One round trip to MongoDB; the result is the index of the
    operation, at which the oracle is asked. *)
Definition mongoOp : M nat :=
  w ← get;
  modify (setMongoOps (S (mongoOps w)));;
  await;;
  mret (mongoOps w).

(** [DocumentModel.create(input)]: the document is validated, given
    its [_id] and default [uploadedAt], and inserted; MongoDB rejects
    a duplicate [_id]. *)
Definition create (input : DocumentInput) : M IDocument :=
  if negb (validates input) then
    emit (EvDocumentCreate false);; throw validationError
  else
    w0 ← get;
    n ← mongoOp;
    w ← get;
    let document :=
      {| _id := newObjectId o n;
         botId := inBotId input; userId := inUserId input;
         filename := inFilename input; fileType := inFileType input;
         fileSize := inFileSize input; uploadedAt := now w0;
         source := inSource input; chunks := inChunks input;
         totalChunks := inTotalChunks input; processed := inProcessed input |} in
    if mongoFails o n || bool_decide (_id document ∈ List.map _id (documents w)) then
      emit (EvDocumentCreate false);; throw mongoError
    else
      modify (setDocuments (documents w ++ [document]));;
      emit (EvDocumentCreate true);;
      mret document.

(** [DocumentModel.find({ botId, processed: true })] *)
Definition find (botId_ : jsstring) : M (list IDocument) :=
  if negb (isObjectId o botId_) then throw castError
  else
    n ← mongoOp;
    if mongoFails o n then throw mongoError
    else
      w ← get;
      mret (List.filter (fun d => bool_decide (botId d = botId_) && processed d)
                        (documents w)).

(** The collection without the first document that matches, when
    there is one. *)
Fixpoint removeFirst (p : IDocument -> bool) (l : list IDocument)
    : option (list IDocument) :=
  match l with
  | [] => None
  | d :: rest =>
      if p d then Some rest
      else match removeFirst p rest with
           | Some rest' => Some (d :: rest')
           | None => None
           end
  end.

(** [DocumentModel.deleteOne({ _id: documentId, userId })]; the result
    is [deletedCount]. *)
Definition deleteOne (documentId_ userId_ : jsstring) : M Z :=
  if negb (isObjectId o documentId_ && isObjectId o userId_) then
    emit (EvDocumentDelete false);; throw castError
  else
    n ← mongoOp;
    if mongoFails o n then
      emit (EvDocumentDelete false);; throw mongoError
    else
      w ← get;
      emit (EvDocumentDelete true);;
      match removeFirst (fun d => bool_decide (_id d = documentId_)
                                  && bool_decide (userId d = userId_))
                        (documents w) with
      | Some remaining => modify (setDocuments remaining);; mret 1
      | None => mret 0
      end.

(** *** ChromaDB: [ChromaDBService] *)

(** One round trip to ChromaDB; the result is the index of the
    operation. *)
Definition chromaOp : M nat :=
  w ← get;
  modify (setChromaOps (S (chromaOps w)));;
  await;;
  mret (chromaOps w).

(** [initialize()]: every failure is caught and recorded. *)
Definition initialize : M unit :=
  n ← chromaOp;
  if chromaFails o n then
    modify (fun w => setChroma {| collection := collection (chroma w);
                                  isAvailable := false |} w)
  else
    modify (setChroma {| collection := true; isAvailable := true |}).

(** [isConnected()] *)
Definition isConnected (w : World) : bool :=
  isAvailable (chroma w) && collection (chroma w).

(** [ensureCollection()]; the result is whether a collection is returned. *)
Definition ensureCollection : M bool :=
  w ← get;
  if negb (isAvailable (chroma w)) then mret false
  else
    (if negb (collection (chroma w)) && isAvailable (chroma w)
     then initialize else mret tt);;
    w' ← get;
    mret (collection (chroma w')).

(** [addEmbeddings(documentId, chunks, embeddings, source)] *)
Definition addEmbeddings (documentId_ : jsstring) (chunks_ : list jsstring)
    (embeddings : list (list float)) (source_ : jsstring) : M unit :=
  emit (EvAddEmbeddings documentId_);;
  available ← ensureCollection;
  if negb available then mret tt
  else
    (* collection.add; a failure is logged, not thrown *)
    _ ← chromaOp; mret tt.

(** [x || 0] on an optional distance: [undefined], [NaN] and zero are
    falsy. *)
Definition orZero (x : option float) : float :=
  match x with
  | Some d => if PrimFloat.is_nan d || PrimFloat.eqb d 0%float then 0%float else d
  | None => 0%float
  end.

(** The body of the transformation loop of [searchSimilar] for one
    row; reading a property of a missing metadata throws. *)
Definition toSimilarChunk (row : QueryRow) : option SimilarChunk :=
  match rowMetadata row with
  | Some m =>
      Some {| id := rowId row;
              text := rowDocument row;
              (* Convert distance to similarity score *)
              score := PrimFloat.sub 1%float (orZero (rowDistance row));
              metadata := {| documentId := default [] (rawDocumentId m);
                             metaChunkIndex := default 0 (rawChunkIndex m);
                             metaText := default [] (rawText m);
                             metaSource := default [] (rawSource m) |} |}
  | None => None
  end.

Fixpoint transformRows (rows : list QueryRow) : option (list SimilarChunk) :=
  match rows with
  | [] => Some []
  | row :: rest =>
      match toSimilarChunk row, transformRows rest with
      | Some c, Some cs => Some (c :: cs)
      | _, _ => None
      end
  end.

(** [searchSimilar(queryEmbedding, topK)], without the optional
    [filter], which [searchDocuments] does not pass. *)
Definition searchSimilar (queryEmbedding : list float) (topK : Z)
    : M (list SimilarChunk) :=
  available ← ensureCollection;
  if negb available then mret []
  else
    n ← chromaOp;
    match chromaQuery o n queryEmbedding topK with
    | QueryThrows _ => mret []
    | QueryAnswers None => mret []
    | QueryAnswers (Some rows) =>
        match transformRows rows with
        | Some chunks_ => mret chunks_
        | None => mret []
        end
    end.

(** [chromaService.deleteDocument(documentId)] *)
Definition deleteEmbeddings (documentId_ : jsstring) : M unit :=
  emit (EvDeleteEmbeddings documentId_);;
  available ← ensureCollection;
  if negb available then mret tt
  else
    (* collection.delete; a failure is logged, not thrown *)
    _ ← chromaOp; mret tt.

(** *** Ingestion *)

(** [parsePDF(buffer)] *)
Definition parsePDF (buffer : list N) : M jsstring :=
  await;;
  match pdfParse o buffer with
  | Some text_ => mret text_
  | None => throw (newError (lit "Failed to parse PDF"))
  end.

Definition chunkText (text_ : jsstring) : list jsstring :=
  Chunker.chunkText (toLowerCase o) text_.

(** [!text || text.trim().length === 0] *)
Definition isBlank (text_ : jsstring) : bool :=
  isEmpty text_ || (strlen (trim text_) =? 0).

Definition BATCH_SIZE : Z := 10.

(** The batched embedding loop of [processDocument]: the loop state
    is [i] and the array [embeddings]. [budget] bounds the number of
    batches; the number of chunks is always enough. *)
Fixpoint embedBatches (chunks_ : list jsstring) (budget : nat) (i : Z)
    (embeddings : list (list float)) : M (list (list float)) :=
  match budget with
  | O => mret embeddings
  | S budget' =>
      if negb (i <? strlen chunks_) then mret embeddings
      else
        let batchEnd := Z.min (i + BATCH_SIZE) (strlen chunks_) in
        let batch := slice chunks_ i batchEnd in
        batchEmbeddings ← mapM generateEmbedding batch;
        embedBatches chunks_ budget' (i + BATCH_SIZE) (embeddings ++ batchEmbeddings)
  end.

(** [chunks.map((content, chunkIndex) => ({ content, chunkIndex }))] *)
Definition toChunkEntries (chunks_ : list jsstring) : list IDocumentChunk :=
  imap (fun chunkIndex_ content_ =>
          {| content := content_; pageNumber := None;
             chunkIndex := Z.of_nat chunkIndex_ |}) chunks_.

(** [processDocument(botId, userId, filename, buffer, fileType)]; the
    outer [try]/[catch] logs the error and throws it again. *)
Definition processDocument (botId_ userId_ filename_ : jsstring) (buffer : list N)
    (fileType_ : jsstring) : M jsstring :=
  tryCatch
    ((* 1. Parse PDF *)
     text_ ← parsePDF buffer;
     if isBlank text_ then throw (newError (lit "No text content found in PDF"))
     else
       (* 2. Chunk text *)
       let chunks_ := chunkText text_ in
       (* 3. Generate embeddings for each chunk (batch processing) *)
       embeddings ← embedBatches chunks_ (length chunks_) 0 [];
       (* 4. Save metadata to MongoDB (without embeddings) *)
       document ← create {| inBotId := botId_; inUserId := userId_;
                            inFilename := filename_; inFileType := fileType_;
                            inFileSize := strlen buffer; inSource := lit "pdf";
                            inChunks := toChunkEntries chunks_;
                            inTotalChunks := strlen chunks_;
                            inProcessed := true |};
       (* 5. Store embeddings in ChromaDB *)
       addEmbeddings (_id document) chunks_ embeddings (lit "pdf");;
       mret (_id document))
    (fun error => throw error).

(** [processDocumentFromText(botId, userId, filename, text, fileType)] *)
Definition processDocumentFromText (botId_ userId_ filename_ text_ : jsstring)
    (fileType_ : jsstring) : M jsstring :=
  tryCatch
    (if isBlank text_ then throw (newError (lit "No text content provided"))
     else
       let chunks_ := chunkText text_ in
       embeddings ← mapM generateEmbedding chunks_;
       document ← create {| inBotId := botId_; inUserId := userId_;
                            inFilename := filename_; inFileType := fileType_;
                            inFileSize := strlen text_; inSource := lit "url";
                            inChunks := toChunkEntries chunks_;
                            inTotalChunks := strlen chunks_;
                            inProcessed := true |};
       addEmbeddings (_id document) chunks_ embeddings (lit "url");;
       mret (_id document))
    (fun error => throw error).

(** *** Retrieval *)

(** [new Map(documents.map(doc => [doc._id.toString(), doc.filename]))]:
    a later entry replaces an earlier one with the same key. *)
Definition docMapOf (docs : list IDocument) : gmap jsstring jsstring :=
  foldl (fun m doc => <[_id doc := filename doc]> m) ∅ docs.

(** [docMap.get(id) || 'Unknown'] *)
Definition filenameOrUnknown (docMap : gmap jsstring jsstring) (id_ : jsstring)
    : jsstring :=
  match docMap !! id_ with
  | Some (c :: s) => c :: s
  | _ => lit "Unknown"
  end.

(** The vector-index branch after the query: filter to this bot's
    documents, keep the first [topK], attach the file names. *)
Definition formatChromaResults (docs : list IDocument)
    (chromaResults : list SimilarChunk) (topK : Z) : list SearchResult :=
  let documentIds := List.map _id docs in
  let filteredResults :=
    List.filter (fun result => bool_decide (documentId (metadata result) ∈ documentIds))
                chromaResults in
  let docMap := docMapOf docs in
  List.map (fun result =>
              {| resContent := text result;
                 resScore := score result;
                 resFilename := filenameOrUnknown docMap (documentId (metadata result)) |})
           (slice filteredResults 0 topK).

(** The MongoDB fallback: every chunk of every document, in stored
    order, with the neutral score, then the first [topK]. *)
Definition fallbackResults (docs : list IDocument) (topK : Z) : list SearchResult :=
  let results :=
    List.flat_map (fun doc =>
                     List.map (fun chunk =>
                                 (content chunk, 0.5%float, filename doc, chunkIndex chunk))
                              (chunks doc)) docs in
  let sortedResults := slice results 0 topK in
  List.map (fun '(content_, score_, filename_, _) =>
              {| resContent := content_; resScore := score_; resFilename := filename_ |})
           sortedResults.

(** [searchDocuments(botId, query, topK)] *)
Definition searchDocuments (botId_ query : jsstring) (topK : Z)
    : M (list SearchResult) :=
  tryCatch
    ((* 1. Generate query embedding *)
     queryEmbedding ← generateEmbedding query;
     (* 2. Get all documents for this bot from MongoDB *)
     docs ← find botId_;
     if strlen docs =? 0 then mret []
     else
       w ← get;
       (* 3. Try ChromaDB first if available *)
       if isConnected w then
         chromaResults ← searchSimilar queryEmbedding (topK * 2);
         mret (formatChromaResults docs chromaResults topK)
       else
         (* 4. Fallback to MongoDB *)
         mret (fallbackResults docs topK))
    (fun _ => mret []).

(** *** Deletion *)

(** [deleteDocument(documentId, userId)] *)
Definition deleteDocument (documentId_ userId_ : jsstring) : M bool :=
  tryCatch
    (deletedCount ← deleteOne documentId_ userId_;
     (* Delete from ChromaDB if MongoDB delete succeeded *)
     (if 0 <? deletedCount then deleteEmbeddings documentId_ else mret tt);;
     mret (0 <? deletedCount))
    (fun _ => mret false).

End WithOracle.

End Service.

(* ===================================================================== *)
(** ** Vocabulary of the specification *)
(* ===================================================================== *)

Module Spec.
Import Service.

(** The result and the final world of a run. *)
Definition result {A} (r : (JsError + A) * World) : JsError + A := fst r.
Definition after {A} (r : (JsError + A) * World) : World := snd r.

(** The events a run added to the trace of the world it started in. *)
Definition newEvents (w w' : World) : list Event :=
  drop (length (trace w)) (trace w').

(** The mock vector drawn when [n] random numbers have been drawn
    before: the next 768 values of [Math.random()]. *)
Definition mockVector (o : Oracle) (n : nat) : list float :=
  List.map (fun i => random o (n + i)%nat) (seq 0 768).

(** The cache key of a text. *)
Definition cacheKey (text_ : jsstring) : jsstring := substring0 text_ 100.

Definition cached (w : World) (text_ : jsstring) : option (list float) :=
  embeddingCache (service w) !! cacheKey text_.

(** The quota flag is set and its reset time is still ahead. *)
Definition quotaActive (w : World) : bool := isQuotaExceeded w.

(** The upstream service answers with vectors of the dimension of the
    embedding model, 768. *)
Definition upstream768 (o : Oracle) : Prop :=
  forall n text_ values, embedContent o n text_ = EmbedValues values ->
                         length values = 768%nat.

(** Every cached vector has that dimension. *)
Definition cache768 (w : World) : Prop :=
  forall key values, embeddingCache (service w) !! key = Some values ->
                     length values = 768%nat.

(** Idle time passes between two calls. *)
Definition idle (dt : N) (w : World) : World := setNow (now w + Z.of_N dt) w.

(** A sequence of [generateEmbedding] calls, each made after some idle
    time; the results are listed in call order. *)
Fixpoint session (o : Oracle) (calls : list (N * jsstring)) (w : World)
    : list (JsError + list float) * World :=
  match calls with
  | [] => ([], w)
  | (dt, text_) :: rest =>
      let '(r, w1) := generateEmbedding o text_ (idle dt w) in
      let '(rs, w2) := session o rest w1 in
      (r :: rs, w2)
  end.

(** The total idle time of a sequence of calls. *)
Definition totalIdle (calls : list (N * jsstring)) : Z :=
  fold_right (fun c acc => Z.of_N (fst c) + acc) 0 calls.

(** The world when [generateEmbedding] has been entered. *)
Definition entered (text_ : jsstring) (w : World) : World :=
  setTrace (trace w ++ [EvGenerateEmbedding text_]) w.

(** The world after a mock vector has been drawn. *)
Definition drawn (w : World) : World :=
  setRandomCalls (randomCalls w + 768) w.

(** The world after an [await]. *)
Definition awaited (o : Oracle) (w : World) : World :=
  setAwaits (S (awaits w)) (setNow (now w + Z.of_N (elapsed o (awaits w))) w).

(** The world after the rate-limiting wait, if one is needed. *)
Definition spaced (o : Oracle) (w : World) : World :=
  let timeSinceLastCall := now w - lastEmbeddingCall (service w) in
  if timeSinceLastCall <? embeddingDelay
  then awaited o (setNow (now w + (embeddingDelay - timeSinceLastCall)) w)
  else w.

(** The world in which the answer of the upstream service arrives. *)
Definition answered (o : Oracle) (text_ : jsstring) (w : World) : World :=
  let w1 := spaced o w in
  let w2 := setService (setLastEmbeddingCall (now w1) (service w1)) w1 in
  let w3 := setTrace (trace w2 ++ [EvEmbedContent text_]) w2 in
  awaited o (setEmbedCalls (S (embedCalls w3)) w3).

(** The world after a successful answer has been cached. *)
Definition stored (text_ : jsstring) (values : list float) (w : World) : World :=
  setService
    (setQuotaExceeded false
       (setEmbeddingCache (<[cacheKey text_ := values]> (embeddingCache (service w)))
          (service w))) w.

(** The reset time the handler computes from a rate-limit error at
    time [t]. *)
Definition resetTimeOf (error : JsError) (t : Z) : jsnum :=
  match findRetryDelay error with
  | Some (c :: s) => add (Num t) (mul (parseInt (c :: s)) (Num 1000))
  | _ => Num (t + 60000)
  end.

(** The world after the handler has recorded a rate-limit error. *)
Definition limited (error : JsError) (w : World) : World :=
  setService
    (setQuotaExceeded true
       (setQuotaResetTime (resetTimeOf error (now w)) (service w))) w.

(** Every call ends in one of four ways. *)
Inductive Outcome (o : Oracle) (text_ : jsstring) (w : World) : (JsError + list float) * World -> Prop :=
| OutHit values :
    cached w text_ = Some values ->
    Outcome o text_ w (inr values, entered text_ w)
| OutMock :
    cached w text_ = None ->
    quotaActive w = true \/ genAI (service w) = false ->
    Outcome o text_ w (inr (mockVector o (randomCalls w)), drawn (entered text_ w))
| OutValues values :
    cached w text_ = None -> quotaActive w = false -> genAI (service w) = true ->
    embedContent o (embedCalls w) text_ = EmbedValues values ->
    Outcome o text_ w (inr values, stored text_ values (answered o text_ (entered text_ w)))
| OutError error :
    cached w text_ = None -> quotaActive w = false -> genAI (service w) = true ->
    embedContent o (embedCalls w) text_ = EmbedThrows error ->
    Outcome o text_ w
      (inr (mockVector o (randomCalls w)),
       drawn (if isRateLimit error
              then limited error (answered o text_ (entered text_ w))
              else answered o text_ (entered text_ w))).

(** The answer of a call that does not reach the upstream service:
    the cached vector when the key is cached, a mock vector otherwise. *)
Definition quietAnswer (o : Oracle) (w : World) (call : N * jsstring)
    (r : JsError + list float) : Prop :=
  match cached w (snd call) with
  | Some values => r = inr values
  | None => exists n, r = inr (mockVector o n)
  end.

(** The hits [searchSimilar] makes of an answer of ChromaDB. *)
Definition hitsOf (reply : QueryReply) : list SimilarChunk :=
  match reply with
  | QueryAnswers (Some rows) => default [] (transformRows rows)
  | _ => []
  end.

(** The documents of a bot that retrieval looks at. *)
Definition processedOf (botId_ : jsstring) (docs : list IDocument) : list IDocument :=
  List.filter (fun d => bool_decide (botId d = botId_) && processed d) docs.

(** All chunks of a list of documents, in stored order, as fallback
    results. *)
Definition storedChunks (docs : list IDocument) : list SearchResult :=
  List.flat_map (fun d =>
                   List.map (fun c => {| resContent := content c;
                                         resScore := 0.5%float;
                                         resFilename := filename d |})
                            (chunks d)) docs.

(** The world after one round trip to MongoDB or to ChromaDB. *)
Definition afterMongo (o : Oracle) (w : World) : World :=
  awaited o (setMongoOps (S (mongoOps w)) w).

Definition afterChroma (o : Oracle) (w : World) : World :=
  awaited o (setChromaOps (S (chromaOps w)) w).

(** What [searchDocuments] returns, in terms of the world it starts
    in and of the query embedding. *)
Definition searchOutcome (o : Oracle) (botId_ : jsstring) (topK : Z) (w : World)
    (queryEmbedding : list float) : list SearchResult :=
  let docs := processedOf botId_ (documents w) in
  if negb (isObjectId o botId_) || mongoFails o (mongoOps w) then []
  else if strlen docs =? 0 then []
  else if isConnected w
       then formatChromaResults docs
              (hitsOf (chromaQuery o (chromaOps w) queryEmbedding (topK * 2))) topK
       else fallbackResults docs topK.

(** The document [DocumentModel.create] makes of its input in a world. *)
Definition newDocument (o : Oracle) (input : DocumentInput) (w : World) : IDocument :=
  {| _id := newObjectId o (mongoOps w);
     botId := inBotId input; userId := inUserId input;
     filename := inFilename input; fileType := inFileType input;
     fileSize := inFileSize input; uploadedAt := now w;
     source := inSource input; chunks := inChunks input;
     totalChunks := inTotalChunks input; processed := inProcessed input |}.

(** Whether MongoDB accepts the document made of a valid input. *)
Definition inserts (o : Oracle) (input : DocumentInput) (w : World) : bool :=
  negb (mongoFails o (mongoOps w)
        || bool_decide (_id (newDocument o input w) ∈ List.map _id (documents w))).

(** The world with one more event. *)
Definition emitted (e : Event) (w : World) : World := setTrace (trace w ++ [e]) w.

(** The input [processDocument] and [processDocumentFromText] hand to
    [DocumentModel.create]. *)
Definition ingestInput (botId_ userId_ filename_ fileType_ : jsstring) (size : Z)
    (source_ : jsstring) (chunks_ : list jsstring) : DocumentInput :=
  {| inBotId := botId_; inUserId := userId_; inFilename := filename_;
     inFileType := fileType_; inFileSize := size; inSource := source_;
     inChunks := toChunkEntries chunks_; inTotalChunks := strlen chunks_;
     inProcessed := true |}.

(** Steps 3 to 5 of an ingestion, given how the embeddings are made. *)
Definition ingestTail (o : Oracle) (embed : M (list (list float)))
    (input : DocumentInput) (chunks_ : list jsstring) (source_ : jsstring)
    : M jsstring :=
  embeddings ← embed;
  document ← create o input;
  addEmbeddings o (_id document) chunks_ embeddings source_;;
  mret (_id document).

(** The events of the two stores. *)
Definition isStoreEvent (e : Event) : bool :=
  match e with
  | EvGenerateEmbedding _ | EvEmbedContent _ => false
  | _ => true
  end.

Definition isGenerateEmbedding (e : Event) : bool :=
  match e with EvGenerateEmbedding _ => true | _ => false end.

(** What a successful ingestion of [text_] leaves between the world
    [w] it starts in and the world [w'] it ends in: one more record,
    of the bot and the user, marked processed, whose chunks are the
    chunks of the text numbered from zero and counted by [totalChunks];
    and, in this order, an embedding of every chunk, the write of the
    record, and the write to the vector index. *)
Definition ingested (o : Oracle) (botId_ userId_ text_ id_ : jsstring)
    (w w' : World) : Prop :=
  exists doc pre,
    documents w' = documents w ++ [doc]
    /\ _id doc = id_ /\ botId doc = botId_ /\ userId doc = userId_
    /\ processed doc = true
    /\ totalChunks doc = strlen (chunks doc)
    /\ List.map chunkIndex (chunks doc)
       = List.map Z.of_nat (seq 0 (length (chunks doc)))
    /\ List.map content (chunks doc) = chunkText o text_
    /\ newEvents w w' = pre ++ [EvDocumentCreate true; EvAddEmbeddings id_]
    /\ List.filter isGenerateEmbedding pre
       = List.map EvGenerateEmbedding (chunkText o text_)
    /\ List.filter isStoreEvent pre = [].


Definition isAddEmbeddings (e : Event) : bool :=
  match e with EvAddEmbeddings _ => true | _ => false end.

Definition isDeleteEmbeddings (e : Event) : bool :=
  match e with EvDeleteEmbeddings _ => true | _ => false end.

Definition isEmbedContent (e : Event) : bool :=
  match e with EvEmbedContent _ => true | _ => false end.

(** A string that does not start with white space. *)
Definition headClean (s : jsstring) : Prop :=
  match s with
  | [] => True
  | c :: _ => isWhitespace c = false
  end.

(** A chunk as the de-duplicator emits it: trimmed and not short. *)
Definition wellFormed (c : jsstring) : Prop := trim c = c /\ 50 <= strlen c.

End Spec.

Import Spec.

(* ===================================================================== *)
(** ** Example worlds *)
(* ===================================================================== *)

Module Examples.
Import Service.

(** The error the Gemini client throws on HTTP 429, with a retry hint
    of 34 seconds. *)
Definition rateLimitError : JsError :=
  {| status := Some 429;
     message := Some (lit "Resource has been exhausted (e.g. check quota).");
     errorDetails :=
       Some [ {| atType := Some (lit "type.googleapis.com/google.rpc.Help");
                 retryDelay := None |};
              {| atType := Some (lit "type.googleapis.com/google.rpc.RetryInfo");
                 retryDelay := Some (lit "34s") |} ] |}.

(** A row of another tenant's document, at distance 0.125. *)
Definition foreignRow : QueryRow :=
  {| rowId := lit "doc9_chunk_0";
     rowDocument := lit "text of a document of another bot";
     rowMetadata := Some {| rawDocumentId := Some (lit "doc9");
                            rawChunkIndex := Some 0;
                            rawText := Some (lit "text of a document of another bot");
                            rawSource := Some (lit "pdf") |};
     rowDistance := Some 0.125%float |}.

(** A row of the document [doc0], at distance 0.25. *)
Definition ownRow : QueryRow :=
  {| rowId := lit "doc0_chunk_0";
     rowDocument := lit "text of the first chunk";
     rowMetadata := Some {| rawDocumentId := Some (lit "doc0");
                            rawChunkIndex := Some 0;
                            rawText := Some (lit "text of the first chunk");
                            rawSource := Some (lit "pdf") |};
     rowDistance := Some 0.25%float |}.

(** The collaborators of the examples: the second upstream call is
    rate limited and every other one answers with a vector of 768 twos;
    the PDF parser reads the bytes as text; MongoDB and ChromaDB work;
    the [n]-th MongoDB operation names its document [doc<n>]; a query
    is answered with [rows]. *)
Definition oracleWith (rows : list QueryRow) : Oracle :=
  {| toLowerCase := Chunker.asciiLower;
     random := fun n => if (n mod 2 =? 0)%nat then 0.25%float else 0.75%float;
     elapsed := fun _ => 5%N;
     embedContent := fun n _ =>
       if (n =? 1)%nat then EmbedThrows rateLimitError
       else EmbedValues (repeat 2%float 768);
     pdfParse := fun buffer => if isEmpty buffer then None else Some buffer;
     isObjectId := fun _ => true;
     mongoFails := fun _ => false;
     newObjectId := fun n => lit "doc" ++ [(48 + N.of_nat n)%N];
     chromaFails := fun _ => false;
     chromaQuery := fun _ _ _ => QueryAnswers (Some rows) |}.

Definition oracle : Oracle := oracleWith [foreignRow; ownRow].

(** ChromaDB answers with rows of other tenants only. *)
Definition crowdedOracle : Oracle := oracleWith [foreignRow].

(** MongoDB is down. *)
Definition mongoDownOracle : Oracle :=
  {| toLowerCase := toLowerCase oracle; random := random oracle;
     elapsed := elapsed oracle; embedContent := embedContent oracle;
     pdfParse := pdfParse oracle; isObjectId := isObjectId oracle;
     mongoFails := fun _ => true; newObjectId := newObjectId oracle;
     chromaFails := chromaFails oracle; chromaQuery := chromaQuery oracle |}.

(** A text of 2500 characters without repetition. *)
Definition handbook : jsstring :=
  take 2500
    (concat (List.map (fun k => lit "Section " ++ [(65 + N.of_nat k)%N]
                                ++ lit " of the handbook explains one more rule in detail. ")
                      (seq 0 50))).

Definition botA : jsstring := lit "botA".
Definition botB : jsstring := lit "botB".
Definition alice : jsstring := lit "alice".

(** A configured service at time 1000000, then with ChromaDB
    connected. *)
Definition fresh : World := initialWorld true 1000000.

Definition connected : World := snd (initialize oracle fresh).

(** The handbook ingested for [botA], without and with ChromaDB. *)
Definition ingestion : (JsError + jsstring) * World :=
  processDocument oracle botA alice (lit "handbook.pdf") handbook (lit "pdf") fresh.

Definition ingestedOffline : World := snd ingestion.

Definition ingestedOnline : World :=
  snd (processDocument oracle botA alice (lit "handbook.pdf") handbook (lit "pdf")
         connected).

(** A first call that succeeds and is cached, then a call that is
    rate limited. *)
Definition afterAlpha : World := snd (generateEmbedding oracle (lit "alpha") fresh).

Definition afterBeta : World := snd (generateEmbedding oracle (lit "beta") afterAlpha).

(** A text of 1001 characters. *)
Definition longLine : jsstring := repeat 97%N 1001.

End Examples.

(* ===================================================================== *)
(** ** More of the document service *)
(* ===================================================================== *)

Module More.
Import Service.

(** The [while] loop of [fallbackChunking], with [chunkSize = 1000]
    and [overlap = 100]. The loop state is [start] and the array
    [chunks]. [budget] bounds the number of iterations: the result is
    [None] when the loop is still running after [budget] iterations. *)
Fixpoint fallbackLoop (text_ : jsstring) (budget : nat) (start : Z)
    (chunks_ : list jsstring) : option (list jsstring) :=
  match budget with
  | O => None
  | S budget' =>
      if negb (start <? strlen text_) then Some chunks_
      else
        let end_ := Z.min (start + 1000) (strlen text_) in
        let chunk := trim (slice text_ start end_) in
        let chunks_ := if 50 <? strlen chunk then chunks_ ++ [chunk] else chunks_ in
        let start := end_ - 100 in
        if start >=? strlen text_ then Some chunks_
        else fallbackLoop text_ budget' start chunks_
  end.

(** [fallbackChunking(text)], given a number of iterations. *)
Definition fallbackChunking (text_ : jsstring) (budget : nat)
    : option (list jsstring) :=
  fallbackLoop text_ budget 0 [].

(** [Math.ceil(x / 1000)] for an integer [x]. *)
Definition ceilSeconds (x : Z) : Z := - ((- x) / 1000).

(** [getQuotaResetTime()] *)
Definition getQuotaResetTime (w : World) : jsnum :=
  if negb (quotaExceeded (service w)) then Num 0
  else match quotaResetTime (service w) with
       | Num reset => Num (ceilSeconds (reset - now w))
       | NaN => NaN
       end.

(** *** Text from a URL *)

(** [String(n)] for an integer [n]: the digits of [n], last digit
    first, are put in front of [acc]. *)
Fixpoint showDigits (fuel : nat) (n : Z) (acc : jsstring) : jsstring :=
  match fuel with
  | O => acc
  | S fuel' =>
      let acc := (48 + Z.to_N (n mod 10))%N :: acc in
      if n / 10 =? 0 then acc else showDigits fuel' (n / 10) acc
  end.

Definition showZ (n : Z) : jsstring :=
  if n <? 0 then 45%N :: showDigits (S (Z.to_nat (Z.log2 (- n)))) (- n) []
  else showDigits (S (Z.to_nat (Z.log2 n))) n [].

(** [s.replace(/\n\s*\n/g, '\n')]. A match starts at a line feed and
    ends at the last line feed of the white space that follows it.
    [pending] is [Some tail] after a line feed, where [tail] is the white
    space read since the last line feed. *)
Fixpoint replaceBlankLines (pending : option jsstring) (s : jsstring) : jsstring :=
  match s with
  | [] => match pending with Some tail => LF :: tail | None => [] end
  | c :: rest =>
      match pending with
      | None =>
          if (c =? LF)%N then replaceBlankLines (Some []) rest
          else c :: replaceBlankLines None rest
      | Some tail =>
          if (c =? LF)%N then replaceBlankLines (Some []) rest
          else if isWhitespace c then replaceBlankLines (Some (tail ++ [c])) rest
          else LF :: tail ++ c :: replaceBlankLines None rest
      end
  end.

(** What the [catch] block reads of an error: [code], [message] and
    [response?.status]. *)
Record WebError := {
  errCode : option jsstring;
  errMessage : option jsstring;
  errResponseStatus : option Z
}.

(** [new Error(message)] *)
Definition thrown (m : jsstring) : WebError :=
  {| errCode := None; errMessage := Some m; errResponseStatus := None |}.

Record WebResponse := {
  httpStatus : Z;
  httpStatusText : jsstring;
  httpData : jsstring
}.

(** The web: what a GET of a URL gives, a network error or the
    response of the server; the code and message of the error that axios
    makes of a response it rejects; and, for a page, the text that
    cheerio finds under a selector once the elements of
    ['script, style, nav, footer, header, aside, .ad, .advertisement']
    are removed. *)
Record WebOracle := {
  httpGet : jsstring -> WebError + WebResponse;
  rejectionOf : WebResponse -> WebError;
  cheerioText : jsstring -> jsstring -> jsstring
}.

(** [validateStatus: (status) => status < 500] *)
Definition validateStatus (status_ : Z) : bool := status_ <? 500.

(** [axios.get(url, { ..., validateStatus, ... })]: a response whose
    status does not pass [validateStatus] is rejected with an error that
    carries the response. *)
Definition axiosGet (web : WebOracle) (url : jsstring) : WebError + WebResponse :=
  match httpGet web url with
  | inl error => inl error
  | inr response =>
      if validateStatus (httpStatus response) then inr response
      else inl {| errCode := errCode (rejectionOf web response);
                  errMessage := errMessage (rejectionOf web response);
                  errResponseStatus := Some (httpStatus response) |}
  end.

Definition mainSelectors : list jsstring :=
  [lit "main"; lit "article";
   lit "[role=" ++ [34%N] ++ lit "main" ++ [34%N] ++ lit "]";
   lit ".content"; lit "#content"; lit ".post"; lit ".entry-content"].

(** The [for (const selector of mainSelectors)] loop; the result is
    [text], empty when no selector gives more than 100 characters. *)
Fixpoint mainContentOf (web : WebOracle) (data_ : jsstring) (selectors : list jsstring)
    : jsstring :=
  match selectors with
  | [] => []
  | selector :: rest =>
      let mainContent := cheerioText web data_ selector in
      if negb (isEmpty mainContent) && (100 <? strlen mainContent) then mainContent
      else mainContentOf web data_ rest
  end.

Definition linkedInMessage : jsstring :=
  lit "LinkedIn blocks automated access. Please try: 1) Copy the page text manually, or 2) Use a different source".

Definition insufficientMessage : jsstring :=
  lit "Insufficient text content extracted from URL (less than 50 characters)".

(** The [try] block of [extractFromURL] after the request. *)
Definition extractText (web : WebOracle) (response : WebResponse)
    : WebError + jsstring :=
  if httpStatus response >=? 400 then
    (* Special handling for LinkedIn's bot protection *)
    if httpStatus response =? 999 then inl (thrown linkedInMessage)
    else inl (thrown (lit "HTTP " ++ showZ (httpStatus response) ++ lit ": "
                      ++ httpStatusText response))
  else
    (* Try to find main content first *)
    let text_ := mainContentOf web (httpData response) mainSelectors in
    (* Fallback to body if no main content found *)
    let text_ := if isEmpty text_ then cheerioText web (httpData response) (lit "body")
                 else text_ in
    (* Clean up whitespace *)
    let text_ := trim (replaceBlankLines None (replaceWsRuns [SP] false text_)) in
    if isEmpty text_ || (strlen text_ <? 50) then inl (thrown insufficientMessage)
    else inr text_.

(** [error.message?.includes(sub)] *)
Definition messageIncludes (error : WebError) (sub : jsstring) : bool :=
  match errMessage error with
  | Some m => includes m sub
  | None => false
  end.

(** The [catch] block of [extractFromURL]: the message of the error
    it throws. *)
Definition explain (error : WebError) : jsstring :=
  if bool_decide (errCode error = Some (lit "ENOTFOUND")) then
    lit "URL not found - please check the URL is correct"
  else if bool_decide (errCode error = Some (lit "ETIMEDOUT"))
          || messageIncludes error (lit "timeout") then
    lit "Request timed out - the website took too long to respond"
  else if messageIncludes error (lit "999")
          || bool_decide (errResponseStatus error = Some 999) then
    lit "This website blocks automated access (LinkedIn, etc.). Please copy text manually or use a different URL"
  else if messageIncludes error (lit "HTTP") then
    lit "Failed to fetch URL: " ++ default [] (errMessage error)
  else if messageIncludes error (lit "Insufficient text") then
    default [] (errMessage error)
  else
    lit "Failed to extract text from URL: "
    ++ match errMessage error with
       | Some (c :: m) => c :: m
       | _ => lit "Unknown error"
       end.

(** [extractFromURL(url)] *)
Definition extractFromURL (o : Oracle) (web : WebOracle) (url : jsstring)
    : M jsstring :=
  await o;;
  match axiosGet web url with
  | inl error => throw (newError (explain error))
  | inr response =>
      match extractText web response with
      | inl error => throw (newError (explain error))
      | inr text_ => mret text_
      end
  end.

(** *** The ends of an ingestion *)

(** The world [w1] after the chunks have been embedded in [w], with
    the events [es] of the embedding. *)
Definition IngestEmbedded (o : Oracle) (chunks_ : list jsstring) (w w1 : World)
    (es : list Event) : Prop :=
  w1 = snd (mapM (generateEmbedding o) chunks_ w)
  /\ documents w1 = documents w /\ chroma w1 = chroma w
  /\ mongoOps w1 = mongoOps w /\ chromaOps w1 = chromaOps w
  /\ trace w1 = trace w ++ es
  /\ List.filter isGenerateEmbedding es = List.map EvGenerateEmbedding chunks_
  /\ List.filter isStoreEvent es = [].

(** The three ways steps 3 to 5 end. [w1] is the world after the
    embedding of the chunks, in which the record is written. *)
Inductive IngestEnd (o : Oracle) (input : DocumentInput) (chunks_ : list jsstring)
    (w : World) : (JsError + jsstring) * World -> Prop :=
| EndInvalid w1 es :
    IngestEmbedded o chunks_ w w1 es ->
    validates o input = false ->
    IngestEnd o input chunks_ w
      (inl validationError, emitted (EvDocumentCreate false) w1)
| EndRefused w1 es :
    IngestEmbedded o chunks_ w w1 es ->
    validates o input = true -> inserts o input w1 = false ->
    IngestEnd o input chunks_ w
      (inl mongoError, emitted (EvDocumentCreate false) (afterMongo o w1))
| EndStored w1 es w' :
    IngestEmbedded o chunks_ w w1 es ->
    validates o input = true -> inserts o input w1 = true ->
    documents w' = documents w ++ [newDocument o input w1] ->
    trace w' = trace w ++ es ++ [EvDocumentCreate true;
                                 EvAddEmbeddings (_id (newDocument o input w1))] ->
    embedCalls w' = embedCalls w1 ->
    (isAvailable (chroma w) = false ->
     chroma w' = chroma w /\ chromaOps w' = chromaOps w) ->
    IngestEnd o input chunks_ w (inr (_id (newDocument o input w1)), w').

End More.

(* ===================================================================== *)
(** ** More example worlds *)
(* ===================================================================== *)

Module MoreExamples.
Import Service More Examples.

(** The example oracle with another upstream embedding service. *)
Definition withEmbedContent (f : nat -> jsstring -> EmbedReply) (o : Oracle) : Oracle :=
  {| toLowerCase := toLowerCase o; random := random o; elapsed := elapsed o;
     embedContent := f; pdfParse := pdfParse o; isObjectId := isObjectId o;
     mongoFails := mongoFails o; newObjectId := newObjectId o;
     chromaFails := chromaFails o; chromaQuery := chromaQuery o |}.

(** The upstream service cannot be reached. *)
Definition offlineOracle : Oracle :=
  withEmbedContent (fun _ _ => EmbedThrows (newError (lit "fetch failed"))) oracle.

(** The upstream service answers with vectors of three components. *)
Definition shortOracle : Oracle :=
  withEmbedContent (fun _ _ => EmbedValues [1%float; 2%float; 3%float]) oracle.

(** A rate-limit error whose retry hint does not start with a number. *)
Definition vagueError : JsError :=
  {| status := Some 429;
     message := Some (lit "Too Many Requests");
     errorDetails :=
       Some [ {| atType := Some (lit "type.googleapis.com/google.rpc.RetryInfo");
                 retryDelay := Some (lit "soon") |} ] |}.

Definition vagueOracle : Oracle :=
  withEmbedContent (fun _ _ => EmbedThrows vagueError) oracle.

(** Two texts that differ after their first 100 characters. *)
Definition longA : jsstring := repeat 97%N 100 ++ lit " first".
Definition longB : jsstring := repeat 97%N 100 ++ lit " second".

(** A PDF with a text of 13 characters. *)
Definition note : jsstring := lit "A short note.".

(** A text of 99 characters, one chunk. *)
Definition leaflet : jsstring :=
  lit "Opening hours: the library is open from nine to five on weekdays, and from ten to two on Saturdays.".

(** A site with one page, whose body is the leaflet between white
    space; every other URL answers 404. *)
Definition leafletUrl : jsstring := lit "https://library.example/hours".

Definition site : WebOracle :=
  {| httpGet := fun url =>
       if bool_decide (url = leafletUrl)
       then inr {| httpStatus := 200; httpStatusText := lit "OK";
                   httpData := lit "<html>" |}
       else inr {| httpStatus := 404; httpStatusText := lit "Not Found";
                   httpData := [] |};
     rejectionOf := fun _ =>
       {| errCode := Some (lit "ERR_BAD_RESPONSE");
          errMessage := Some (lit "Request failed");
          errResponseStatus := None |};
     cheerioText := fun _ selector =>
       if bool_decide (selector = lit "body")
       then [LF; SP; SP] ++ leaflet ++ [LF; 9%N; LF]
       else [] |}.

(** A row that came back without metadata. *)
Definition bareRow : QueryRow :=
  {| rowId := lit "doc0_chunk_1";
     rowDocument := lit "text of the second chunk";
     rowMetadata := None;
     rowDistance := None |}.

(** Two stored documents of [botA]: a leaflet of one chunk and a
    price list of two. *)
Definition leafletDoc : IDocument :=
  {| _id := lit "doc0"; botId := botA; userId := alice;
     filename := lit "leaflet.pdf"; fileType := lit "pdf"; fileSize := 99;
     uploadedAt := 1000000; source := lit "pdf";
     chunks := [ {| content := leaflet; pageNumber := None; chunkIndex := 0 |} ];
     totalChunks := 1; processed := true |}.

Definition pricesDoc : IDocument :=
  {| _id := lit "doc1"; botId := botA; userId := alice;
     filename := lit "prices.pdf"; fileType := lit "pdf"; fileSize := 64;
     uploadedAt := 1000100; source := lit "pdf";
     chunks := [ {| content := lit "A library card costs ten euros a year.";
                    pageNumber := None; chunkIndex := 0 |};
                 {| content := lit "Children and students pay nothing.";
                    pageNumber := None; chunkIndex := 1 |} ];
     totalChunks := 2; processed := true |}.

(** The two documents on the shelf after two MongoDB operations,
    without and with ChromaDB. *)
Definition shelved : World :=
  setMongoOps 2 (setDocuments [leafletDoc; pricesDoc] fresh).

Definition shelvedOnline : World :=
  setMongoOps 2 (setDocuments [leafletDoc; pricesDoc] connected).

End MoreExamples.

(* ===================================================================== *)
(** ** Correctness of the text splitter *)
(* ===================================================================== *)

Module SplitterFacts.
Import Splitter.

Lemma slice_inside {A} (s : list A) (a b : Z) :
  0 <= a -> a <= b -> b <= strlen s ->
  slice s a b = take (Z.to_nat (b - a)) (drop (Z.to_nat a) s).
Proof.
  intros Ha Hab Hb. unfold slice.
  destruct (Z.ltb_spec a 0); [lia|].
  destruct (Z.ltb_spec b 0); [lia|].
  rewrite !Z.min_l by lia. reflexivity.
Qed.

Lemma strlen_slice_inside {A} (s : list A) (a b : Z) :
  0 <= a -> a <= b -> b <= strlen s -> strlen (slice s a b) = b - a.
Proof.
  intros Ha Hab Hb. rewrite slice_inside by lia.
  unfold strlen in *. rewrite length_take, length_drop. lia.
Qed.

Section Windows.
Variables chunkSize chunkOverlap : Z.
Variable text : jsstring.
Hypothesis overlap_nonneg : 0 <= chunkOverlap.
Hypothesis overlap_small : chunkOverlap < chunkSize.

Let stride := chunkSize - chunkOverlap.
Let len := strlen text.
Let count := windowCount chunkSize chunkOverlap len.

Lemma len_nonneg : 0 <= len.
Proof. unfold len, strlen. lia. Qed.

(** A further window is needed exactly when the current one stops
    short of the end of the text. *)
Lemma next_window_iff (k : nat) :
  (S k < count)%nat <-> Z.of_nat k * stride + chunkSize < len.
Proof.
  unfold count, windowCount. fold stride.
  assert (Hs : 0 < stride) by (unfold stride; lia).
  assert (Hk : 0 <= Z.of_nat k * stride) by nia.
  destruct (Z.leb_spec len 0); [lia|].
  destruct (Z.leb_spec len chunkSize); [lia|].
  set (a := len - chunkSize + stride - 1).
  pose proof (Z.div_mod a stride ltac:(lia)) as Hdm.
  pose proof (Z.mod_pos_bound a stride Hs) as Hr.
  assert (Hq : 0 <= a / stride) by (apply Z.div_pos; unfold a; lia).
  split; intros H'.
  - assert (Z.of_nat k + 1 <= a / stride) by lia. unfold a in *. nia.
  - assert (Z.of_nat k < a / stride) by (unfold a in *; nia). lia.
Qed.

Lemma first_window_iff : (0 < count)%nat <-> 0 < len.
Proof.
  unfold count, windowCount. fold stride.
  destruct (Z.leb_spec len 0); [lia|].
  destruct (Z.leb_spec len chunkSize); [lia|].
  assert (0 <= (len - chunkSize + stride - 1) / stride)
    by (apply Z.div_pos; unfold stride; lia).
  lia.
Qed.

Lemma window_starts_inside (k : nat) :
  (k < count)%nat -> 0 <= Z.of_nat k * stride < len.
Proof.
  intros Hk. assert (0 < stride) by (unfold stride; lia).
  split; [nia|]. destruct k as [|j].
  - apply first_window_iff. lia.
  - apply next_window_iff in Hk. unfold stride in *. nia.
Qed.

Lemma window_eq (k : nat) :
  (k < count)%nat ->
  window chunkSize chunkOverlap text k =
    take (Z.to_nat (Z.min chunkSize (len - Z.of_nat k * stride)))
         (drop (Z.to_nat (Z.of_nat k * stride)) text).
Proof.
  intros Hk. apply window_starts_inside in Hk.
  unfold window. fold stride len. rewrite slice_inside by (fold len; lia).
  f_equal. lia.
Qed.

Lemma strlen_window (k : nat) :
  (k < count)%nat ->
  strlen (window chunkSize chunkOverlap text k) =
    Z.min chunkSize (len - Z.of_nat k * stride).
Proof.
  intros Hk. apply window_starts_inside in Hk.
  unfold window. fold stride len.
  rewrite strlen_slice_inside by (fold len; lia). lia.
Qed.

(** The loop, entered at the start of window [k], pushes the windows
    [k, k+1, ...] until the last one or until its budget is spent. *)
Lemma splitLoop_windows (budget : nat) :
  forall (k : nat) (acc : list jsstring) (it : nat),
    (k < count)%nat ->
    splitLoop chunkSize chunkOverlap text budget (Z.of_nat k * stride) acc it =
      (acc ++ List.map (window chunkSize chunkOverlap text)
                       (seq k (Nat.min budget (count - k))),
       (it + Nat.min budget (count - k))%nat).
Proof.
  induction budget as [|b IH]; intros k acc it Hk.
  - simpl. rewrite app_nil_r, Nat.add_0_r. reflexivity.
  - pose proof (window_starts_inside k Hk) as Hin.
    pose proof (strlen_window k Hk) as Hlen.
    pose proof (next_window_iff k) as Hnext.
    cbn [splitLoop]. fold len.
    destruct (Z.ltb_spec (Z.of_nat k * stride) len) as [_|]; [|lia].
    cbn [negb].
    change (slice text (Z.of_nat k * stride)
              (Z.min (Z.of_nat k * stride + chunkSize) len))
      with (window chunkSize chunkOverlap text k).
    rewrite Hlen.
    destruct (Z.ltb_spec 0 (Z.min chunkSize (len - Z.of_nat k * stride)))
      as [_|]; [|lia].
    set (e := Z.min (Z.of_nat k * stride + chunkSize) len).
    destruct (Z.leb_spec (e - chunkOverlap) (e - chunkSize)); [lia|].
    cbn [andb].
    destruct (Z.geb_spec e len) as [Hge|Hlt].
    + assert (count - k = 1)%nat as -> by (unfold e in *; lia).
      rewrite (Nat.min_r (S b) 1) by lia. rewrite Nat.add_1_r. reflexivity.
    + assert (He : e = Z.of_nat k * stride + chunkSize) by (unfold e in *; lia).
      rewrite andb_false_r.
      replace (e - chunkOverlap) with (Z.of_nat (S k) * stride)
        by (unfold stride; lia).
      rewrite IH by (apply Hnext; lia).
      replace (count - k)%nat with (S (count - S k)) by lia.
      rewrite <- Nat.succ_min_distr. cbn [seq List.map].
      rewrite <- app_assoc. cbn [app]. f_equal. lia.
Qed.

Lemma splitLoop_past_end (budget : nat) (start : Z) acc it :
  strlen text <= start ->
  splitLoop chunkSize chunkOverlap text budget start acc it = (acc, it).
Proof.
  intros Hpast. destruct budget as [|b]; [reflexivity|].
  cbn [splitLoop]. destruct (Z.ltb_spec start (strlen text)); [lia|].
  reflexivity.
Qed.

Lemma splitRun_windows :
  splitRun chunkSize chunkOverlap text =
    (List.map (window chunkSize chunkOverlap text)
              (seq 0 (Nat.min maxIterations count)),
     Nat.min maxIterations count).
Proof.
  unfold splitRun. destruct (Nat.eq_dec count 0%nat) as [H0|Hpos].
  - rewrite H0, Nat.min_0_r.
    assert (~ 0 < len) by (rewrite <- first_window_iff; lia).
    apply splitLoop_past_end. fold len. lia.
  - pose proof (splitLoop_windows maxIterations 0%nat [] 0%nat ltac:(lia)) as H.
    rewrite Nat.sub_0_r in H. exact H.
Qed.

Lemma reconstruct_snoc (cs : list jsstring) (c d : jsstring) :
  reconstruct chunkOverlap ((c :: cs) ++ [d]) =
    reconstruct chunkOverlap (c :: cs) ++ drop (Z.to_nat chunkOverlap) d.
Proof.
  unfold reconstruct. cbn [app]. rewrite List.map_app, concat_app.
  cbn [List.map concat]. rewrite app_nil_r, app_assoc. reflexivity.
Qed.

(** The first [n] windows, minus their overlaps, spell the text up to
    the end of the last of them. *)
Lemma reconstruct_windows (n : nat) :
  (S n <= count)%nat ->
  reconstruct chunkOverlap
    (List.map (window chunkSize chunkOverlap text) (seq 0 (S n))) =
    take (Z.to_nat (Z.min (Z.of_nat n * stride + chunkSize) len)) text.
Proof.
  induction n as [|n IH]; intros Hn.
  - cbn [seq List.map reconstruct concat]. rewrite app_nil_r.
    rewrite window_eq by lia. cbn [Z.of_nat Z.mul Z.to_nat drop].
    f_equal. lia.
  - rewrite seq_S, List.map_app. cbn [List.map Nat.add].
    change (seq 0 (S n)) with (0%nat :: seq 1 n). cbn [List.map].
    rewrite reconstruct_snoc.
    change (window chunkSize chunkOverlap text 0
            :: List.map (window chunkSize chunkOverlap text) (seq 1 n))
      with (List.map (window chunkSize chunkOverlap text) (seq 0 (S n))).
    rewrite IH by lia.
    pose proof (proj1 (next_window_iff n) ltac:(lia)) as Hshort.
    pose proof (window_starts_inside (S n) ltac:(lia)) as Hin.
    rewrite window_eq by lia.
    rewrite Z.min_l by lia.
    rewrite skipn_firstn_comm, drop_drop.
    replace (Z.to_nat (Z.of_nat (S n) * stride) + Z.to_nat chunkOverlap)%nat
      with (Z.to_nat (Z.of_nat n * stride + chunkSize))
      by (unfold stride; lia).
    rewrite take_take_drop. f_equal. unfold stride in *. lia.
Qed.

Lemma count_within (m : nat) :
  (count <= S m)%nat <-> len <= chunkSize + Z.of_nat m * stride.
Proof. pose proof (next_window_iff m) as H. lia. Qed.

Lemma splitText_reconstruct (m : nat) :
  maxIterations = S m ->
  len <= chunkSize + Z.of_nat m * stride ->
  reconstruct chunkOverlap (splitText chunkSize chunkOverlap text) = text.
Proof.
  intros Hm Hcap. apply count_within in Hcap. rewrite <- Hm in Hcap.
  unfold splitText. rewrite splitRun_windows. cbn [fst].
  rewrite Nat.min_r by exact Hcap.
  destruct count as [|n] eqn:Hc.
  - assert (~ 0 < len) by (rewrite <- first_window_iff; lia).
    pose proof len_nonneg. destruct text; [reflexivity|].
    unfold len, strlen in *. simpl in *. lia.
  - rewrite reconstruct_windows by lia.
    pose proof (next_window_iff n) as Hn.
    apply take_ge. fold (strlen text) in *. unfold len, strlen in *. lia.
Qed.

End Windows.

End SplitterFacts.

(* ===================================================================== *)
(** ** Facts about strings *)
(* ===================================================================== *)

Module JSFacts.

Lemma trimStart_headClean (s : jsstring) : headClean (trimStart s).
Proof.
  induction s as [|c s IH]; [exact I|].
  cbn [trimStart]. destruct (isWhitespace c) eqn:Hc; [exact IH|exact Hc].
Qed.

Lemma trimStart_fixed (s : jsstring) : headClean s -> trimStart s = s.
Proof.
  destruct s as [|c s]; [reflexivity|].
  cbn [headClean trimStart]. intros ->. reflexivity.
Qed.

Lemma trimStart_snoc_clean (s : jsstring) (c : N) :
  isWhitespace c = false -> exists s', trimStart (s ++ [c]) = s' ++ [c].
Proof.
  intros Hc. induction s as [|d s IH].
  - exists []. cbn. rewrite Hc. reflexivity.
  - cbn [app trimStart]. destruct (isWhitespace d).
    + exact IH.
    + exists (d :: s). reflexivity.
Qed.

Lemma trimEnd_headClean (s : jsstring) : headClean s -> headClean (trimEnd s).
Proof.
  destruct s as [|c s]; [intros _; exact I|].
  cbn [headClean]. intros Hc. unfold trimEnd. cbn [rev].
  destruct (trimStart_snoc_clean (rev s) c Hc) as [s' ->].
  rewrite rev_app_distr. exact Hc.
Qed.

Lemma trimEnd_fixed (s : jsstring) : headClean (rev s) -> trimEnd s = s.
Proof.
  intros H. unfold trimEnd. rewrite trimStart_fixed by exact H.
  apply rev_involutive.
Qed.

Lemma trim_idempotent (s : jsstring) : trim (trim s) = trim s.
Proof.
  unfold trim at 1.
  rewrite (trimStart_fixed (trim s)).
  - apply trimEnd_fixed. unfold trim, trimEnd. rewrite rev_involutive.
    apply trimStart_headClean.
  - unfold trim. apply trimEnd_headClean, trimStart_headClean.
Qed.

End JSFacts.

(* ===================================================================== *)
(** ** Correctness of the de-duplication *)
(* ===================================================================== *)

Module ChunkerFacts.
Import Chunker JSFacts.

Section Dedupe.

Variable toLowerCase : jsstring -> jsstring.

Local Abbreviation signature := (signature toLowerCase).
Local Abbreviation firstOccurrences := (firstOccurrences toLowerCase).
Local Abbreviation dedupeLoop := (dedupeLoop toLowerCase).
Local Abbreviation dedupe := (dedupe toLowerCase).

Lemma candidates_cons (chunk : jsstring) (rest : list jsstring) :
  candidates (chunk :: rest) =
    if strlen (trim chunk) <? 50 then candidates rest
    else trim chunk :: candidates rest.
Proof.
  unfold candidates. cbn [List.map List.filter].
  destruct (strlen (trim chunk) <? 50); reflexivity.
Qed.

Lemma candidates_wellFormed (rawChunks : list jsstring) (c : jsstring) :
  In c (candidates rawChunks) -> wellFormed c.
Proof.
  unfold candidates. rewrite filter_In, in_map_iff.
  intros [[raw [<- _]] Hlong]. split.
  - apply trim_idempotent.
  - destruct (Z.ltb_spec (strlen (trim raw)) 50); [discriminate|lia].
Qed.

Lemma candidates_fixed (l : list jsstring) :
  (forall c, In c l -> wellFormed c) -> candidates l = l.
Proof.
  induction l as [|c l IH]; intros Hwf; [reflexivity|].
  destruct (Hwf c (or_introl eq_refl)) as [Htrim Hlong].
  rewrite candidates_cons, Htrim.
  destruct (Z.ltb_spec (strlen c) 50); [lia|].
  rewrite IH; [reflexivity|]. intros d Hd. apply Hwf. right. exact Hd.
Qed.

(** The loop computes the first occurrences, as long as the set holds
    the signatures of the candidates that came earlier. *)
Lemma dedupeLoop_firstOccurrences (rawChunks : list jsstring) :
  forall (seenContent : gset jsstring) (uniqueChunks earlier : list jsstring),
    (forall s, s ∈ seenContent <-> s ∈ List.map signature earlier) ->
    dedupeLoop seenContent uniqueChunks rawChunks =
      uniqueChunks ++ firstOccurrences earlier (candidates rawChunks).
Proof.
  induction rawChunks as [|chunk rest IH]; intros seen acc earlier Hseen.
  - cbn. rewrite app_nil_r. reflexivity.
  - cbn [Chunker.dedupeLoop]. rewrite candidates_cons.
    destruct (strlen (trim chunk) <? 50); [apply IH, Hseen|].
    cbn [Chunker.firstOccurrences].
    destruct (decide (signature (trim chunk) ∈ seen)) as [Hin|Hout];
      destruct (decide (signature (trim chunk) ∈ List.map signature earlier))
        as [Hin'|Hout']; try (apply Hseen in Hin; contradiction);
      try (apply Hseen in Hin'; contradiction).
    + cbn [app]. apply IH. intros s. rewrite List.map_app. cbn [List.map].
      rewrite elem_of_app, list_elem_of_singleton, Hseen.
      split; [tauto|]. intros [H | ->]; [exact H|apply Hseen, Hin].
    + rewrite (IH _ _ (earlier ++ [trim chunk])).
      * rewrite <- app_assoc. reflexivity.
      * intros s. rewrite List.map_app. cbn [List.map].
        rewrite elem_of_app, list_elem_of_singleton, elem_of_union,
          elem_of_singleton, Hseen. tauto.
Qed.

Lemma dedupe_is_spec (rawChunks : list jsstring) :
  dedupe rawChunks = dedupeSpec toLowerCase rawChunks.
Proof.
  unfold Chunker.dedupe, dedupeSpec.
  rewrite (dedupeLoop_firstOccurrences rawChunks ∅ [] []); [reflexivity|].
  intros s. cbn. rewrite elem_of_nil. set_solver.
Qed.

(** What the first occurrences look like: they are candidates, their
    signatures are new and pairwise different. *)
Lemma firstOccurrences_props (cands : list jsstring) :
  forall earlier : list jsstring,
    NoDup (List.map signature (firstOccurrences earlier cands))
    /\ (forall c, In c (firstOccurrences earlier cands) ->
                  In c cands /\ signature c ∉ List.map signature earlier).
Proof.
  induction cands as [|c rest IH]; intros earlier.
  - cbn. split; [constructor|intros ? []].
  - cbn [Chunker.firstOccurrences].
    destruct (IH (earlier ++ [c])) as [Hnd Hin].
    assert (Hrest : forall d, In d (firstOccurrences (earlier ++ [c]) rest) ->
              In d rest /\ (signature d ∉ List.map signature earlier)
              /\ signature d <> signature c).
    { intros d Hd. destruct (Hin d Hd) as [Hd1 Hd2].
      rewrite List.map_app, elem_of_app in Hd2. cbn [List.map] in Hd2.
      rewrite list_elem_of_singleton in Hd2. tauto. }
    destruct (decide (signature c ∈ List.map signature earlier)) as [Hc|Hc];
      cbn [app List.map].
    + split; [exact Hnd|]. intros d Hd. destruct (Hrest d Hd) as (? & ? & ?).
      split; [right|]; assumption.
    + split.
      * apply NoDup_cons. split; [|exact Hnd].
        rewrite list_elem_of_In, in_map_iff. intros [d [Hsig Hd]].
        destruct (Hrest d Hd) as (_ & _ & Hne). congruence.
      * intros d [<-|Hd]; [split; [left; reflexivity|exact Hc]|].
        destruct (Hrest d Hd) as (? & ? & ?). split; [right|]; assumption.
Qed.

Lemma firstOccurrences_fixed (l : list jsstring) :
  forall earlier : list jsstring,
    NoDup (List.map signature l) ->
    (forall c, In c l -> signature c ∉ List.map signature earlier) ->
    firstOccurrences earlier l = l.
Proof.
  induction l as [|c l IH]; intros earlier Hnd Hnew; [reflexivity|].
  cbn [Chunker.firstOccurrences]. cbn [List.map] in Hnd.
  apply NoDup_cons in Hnd as [Hc Hnd].
  destruct (decide (signature c ∈ List.map signature earlier)) as [Hin|_].
  - exfalso. exact (Hnew c (or_introl eq_refl) Hin).
  - cbn [app]. f_equal. apply IH; [exact Hnd|].
    intros d Hd. rewrite List.map_app, elem_of_app. cbn [List.map].
    rewrite list_elem_of_singleton. intros [Hin|Heq].
    + exact (Hnew d (or_intror Hd) Hin).
    + apply Hc. rewrite <- Heq. rewrite list_elem_of_In. apply in_map. exact Hd.
Qed.

Lemma firstOccurrences_sublist (cands : list jsstring) :
  forall earlier : list jsstring, firstOccurrences earlier cands `sublist_of` cands.
Proof.
  induction cands as [|c rest IH]; intros earlier; [constructor|].
  cbn [Chunker.firstOccurrences].
  destruct (decide (signature c ∈ List.map signature earlier)); cbn [app].
  - apply sublist_cons, IH.
  - apply sublist_skip, IH.
Qed.

Lemma candidates_sublist (rawChunks : list jsstring) :
  candidates rawChunks `sublist_of` List.map trim rawChunks.
Proof.
  induction rawChunks as [|chunk rest IH]; [constructor|].
  rewrite candidates_cons. cbn [List.map].
  destruct (strlen (trim chunk) <? 50).
  - apply sublist_cons, IH.
  - apply sublist_skip, IH.
Qed.

Lemma dedupe_wellFormed (rawChunks : list jsstring) (c : jsstring) :
  In c (dedupe rawChunks) -> wellFormed c.
Proof.
  rewrite dedupe_is_spec. unfold dedupeSpec. intros Hc.
  apply (firstOccurrences_props (candidates rawChunks) []) in Hc as [Hc _].
  exact (candidates_wellFormed rawChunks c Hc).
Qed.

Lemma dedupe_fixed (rawChunks : list jsstring) :
  dedupe (dedupe rawChunks) = dedupe rawChunks.
Proof.
  rewrite (dedupe_is_spec (dedupe rawChunks)). unfold dedupeSpec at 1.
  rewrite candidates_fixed by apply dedupe_wellFormed.
  apply firstOccurrences_fixed.
  - rewrite dedupe_is_spec. unfold dedupeSpec.
    apply (firstOccurrences_props (candidates rawChunks) []).
  - intros c _. cbn. apply not_elem_of_nil.
Qed.

End Dedupe.

End ChunkerFacts.

(* ===================================================================== *)
(** ** Stepping through computations *)
(* ===================================================================== *)

Module EffFacts.

Ltac unfoldM :=
  unfold emit in *;
  unfold mbind, M_bind, mret, M_ret, bind, ret, throw, tryCatch, get, modify in *.

(** Reduce the field reads of updated worlds, and nothing else. *)
Ltac simplWorld :=
  cbn [now service chroma documents randomCalls awaits embedCalls mongoOps
       chromaOps trace setNow setService setChroma setDocuments setRandomCalls
       setAwaits setEmbedCalls setMongoOps setChromaOps setTrace
       genAI embeddingCache lastEmbeddingCall quotaExceeded quotaResetTime
       setEmbeddingCache setLastEmbeddingCall setQuotaExceeded setQuotaResetTime
       collection isAvailable fst snd] in *.

Lemma newEvents_app (w w' : World) (es : list Event) :
  trace w' = trace w ++ es -> newEvents w w' = es.
Proof. intros H. unfold newEvents. rewrite H. apply drop_app_length. Qed.

End EffFacts.

(* ===================================================================== *)
(** ** The embedding provider *)
(* ===================================================================== *)

Module EmbeddingFacts.
Import Service EffFacts.

Section WithOracle.

Variable o : Oracle.

Lemma mapM_mathRandom (l : list Z) :
  forall w,
    mapM (fun _ : Z => mathRandom o) l w =
      (inr (List.map (fun i => random o (randomCalls w + i)%nat) (seq 0 (length l))),
       setRandomCalls (randomCalls w + length l) w).
Proof.
  induction l as [|z l IH]; intros w.
  - cbn. rewrite Nat.add_0_r. destruct w; reflexivity.
  - cbn [mapM]. unfold bind at 1. unfold mathRandom at 1.
    unfold bind at 1. rewrite IH. cbn [length seq List.map].
    unfold ret. cbn [randomCalls setRandomCalls]. f_equal.
    + f_equal. rewrite Nat.add_0_r. f_equal.
      rewrite <- seq_shift, List.map_map. apply List.map_ext.
      intros i. f_equal. lia.
    + unfold setRandomCalls. cbn. f_equal. lia.
Qed.

Lemma mockEmbedding_run (w : World) :
  mockEmbedding o w =
    (inr (mockVector o (randomCalls w)), setRandomCalls (randomCalls w + 768) w).
Proof. unfold mockEmbedding. rewrite mapM_mathRandom. reflexivity. Qed.

Lemma length_mockVector (n : nat) : length (mockVector o n) = 768%nat.
Proof. unfold mockVector. rewrite length_map, length_seq. reflexivity. Qed.

#[local] Arguments mockEmbedding : simpl never.

Lemma onEmbeddingError_run (error : JsError) (w : World) :
  onEmbeddingError o error w =
    if isRateLimit error
    then (inr (mockVector o (randomCalls w)), drawn (limited error w))
    else (inr (mockVector o (randomCalls w)), drawn w).
Proof.
  unfold onEmbeddingError, limited, resetTimeOf. unfold modifyService. unfoldM.
  destruct (isRateLimit error); [|apply mockEmbedding_run].
  destruct (findRetryDelay error) as [[|c s]|]; simplWorld;
    rewrite mockEmbedding_run; reflexivity.
Qed.

(** The four ways through [generateEmbedding]. *)
Lemma generateEmbedding_hit (text_ : jsstring) (w : World) (values : list float) :
  cached w text_ = Some values ->
  generateEmbedding o text_ w = (inr values, entered text_ w).
Proof.
  unfold cached, cacheKey. intros Hhit. unfold generateEmbedding. unfoldM.
  simplWorld. rewrite Hhit. reflexivity.
Qed.

Lemma generateEmbedding_quota (text_ : jsstring) (w : World) :
  cached w text_ = None -> quotaActive w = true ->
  generateEmbedding o text_ w =
    (inr (mockVector o (randomCalls w)), drawn (entered text_ w)).
Proof.
  unfold cached, cacheKey, quotaActive, isQuotaExceeded. intros Hmiss Hq.
  unfold generateEmbedding. unfoldM. simplWorld.
  rewrite Hmiss, Hq. apply mockEmbedding_run.
Qed.

Lemma generateEmbedding_unconfigured (text_ : jsstring) (w : World) :
  cached w text_ = None -> quotaActive w = false -> genAI (service w) = false ->
  generateEmbedding o text_ w =
    (inr (mockVector o (randomCalls w)), drawn (entered text_ w)).
Proof.
  unfold cached, cacheKey, quotaActive, isQuotaExceeded. intros Hmiss Hq Hg.
  unfold generateEmbedding. unfoldM. simplWorld.
  rewrite Hmiss, Hq, Hg. cbn [negb]. rewrite mockEmbedding_run. reflexivity.
Qed.

Lemma generateEmbedding_upstream (text_ : jsstring) (w : World) :
  cached w text_ = None -> quotaActive w = false -> genAI (service w) = true ->
  generateEmbedding o text_ w =
    let wa := answered o text_ (entered text_ w) in
    match embedContent o (embedCalls w) text_ with
    | EmbedValues values => (inr values, stored text_ values wa)
    | EmbedThrows error => onEmbeddingError o error wa
    end.
Proof.
  unfold cached, cacheKey, quotaActive, isQuotaExceeded. intros Hmiss Hq Hg.
  unfold generateEmbedding, embedContentCall. unfold sleep. unfold await, modifyService. unfoldM.
  simplWorld. rewrite Hmiss, Hq, Hg. cbn [negb].
  unfold answered, spaced, awaited, entered, stored, cacheKey. simplWorld.
  destruct (now w - lastEmbeddingCall (service w) <? embeddingDelay); simplWorld;
    destruct (embedContent o (embedCalls w) text_); reflexivity.
Qed.

(** What the wait and the upstream call leave untouched. *)
Lemma answered_fields (text_ : jsstring) (w : World) :
  let wa := answered o text_ w in
  documents wa = documents w /\ chroma wa = chroma w
  /\ mongoOps wa = mongoOps w /\ chromaOps wa = chromaOps w
  /\ randomCalls wa = randomCalls w /\ embedCalls wa = S (embedCalls w)
  /\ trace wa = trace w ++ [EvEmbedContent text_]
  /\ genAI (service wa) = genAI (service w)
  /\ embeddingCache (service wa) = embeddingCache (service w)
  /\ quotaExceeded (service wa) = quotaExceeded (service w)
  /\ quotaResetTime (service wa) = quotaResetTime (service w)
  /\ now w <= now wa.
Proof.
  unfold answered, spaced, awaited, embeddingDelay.
  destruct (Z.ltb_spec (now w - lastEmbeddingCall (service w)) 1000); simplWorld;
    repeat split; try reflexivity; lia.
Qed.

Lemma generateEmbedding_outcome (text_ : jsstring) (w : World) :
  Outcome o text_ w (generateEmbedding o text_ w).
Proof.
  destruct (cached w text_) as [values|] eqn:Hc.
  - rewrite (generateEmbedding_hit _ _ _ Hc). apply OutHit, Hc.
  - destruct (quotaActive w) eqn:Hq.
    + rewrite generateEmbedding_quota by assumption. apply OutMock; auto.
    + destruct (genAI (service w)) eqn:Hg.
      * rewrite generateEmbedding_upstream by assumption. cbv zeta.
        destruct (embedContent o (embedCalls w) text_) as [values|error] eqn:He.
        -- apply OutValues; assumption.
        -- rewrite onEmbeddingError_run.
           pose proof (answered_fields text_ (entered text_ w)) as Hf.
           cbv zeta in Hf. destruct Hf as (_ & _ & _ & _ & Hr & _).
           rewrite Hr. unfold entered at 1 3. simplWorld.
           pose proof (OutError o text_ w error Hc Hq Hg He) as Hout.
           destruct (isRateLimit error); exact Hout.
      * rewrite generateEmbedding_unconfigured by assumption.
        apply OutMock; auto.
Qed.

(** A summary of what a call can change. *)
Lemma generateEmbedding_frame (text_ : jsstring) (w : World) :
  exists values w',
    generateEmbedding o text_ w = (inr values, w')
    /\ documents w' = documents w /\ chroma w' = chroma w
    /\ mongoOps w' = mongoOps w /\ chromaOps w' = chromaOps w
    /\ (trace w' = trace w ++ [EvGenerateEmbedding text_]
        \/ trace w' = trace w ++ [EvGenerateEmbedding text_; EvEmbedContent text_]).
Proof.
  destruct (generateEmbedding_outcome text_ w) as [v Hc|Hc Hq|v Hc Hq Hg He|e Hc Hq Hg He];
    eexists _, _; (split; [reflexivity|]).
  - unfold entered. simplWorld. auto 10.
  - unfold drawn, entered. simplWorld. auto 10.
  - pose proof (answered_fields text_ (entered text_ w)) as Hf. cbv zeta in Hf.
    destruct Hf as (Hd & Hch & Hm & Hco & _ & _ & Ht & _).
    unfold stored. simplWorld. rewrite Hd, Hch, Hm, Hco, Ht.
    unfold entered. simplWorld. rewrite <- app_assoc. auto 10.
  - pose proof (answered_fields text_ (entered text_ w)) as Hf. cbv zeta in Hf.
    destruct Hf as (Hd & Hch & Hm & Hco & _ & _ & Ht & _).
    unfold drawn. destruct (isRateLimit e); unfold limited; simplWorld;
      rewrite Hd, Hch, Hm, Hco, Ht; unfold entered; simplWorld;
      rewrite <- app_assoc; auto 10.
Qed.

(** *** Dimension of the result *)

Lemma generateEmbedding_768 (text_ : jsstring) (w : World) :
  upstream768 o -> cache768 w ->
  exists values w',
    generateEmbedding o text_ w = (inr values, w')
    /\ length values = 768%nat /\ cache768 w'.
Proof.
  intros Hup Hcache.
  destruct (generateEmbedding_outcome text_ w) as [v Hc|Hc Hq|v Hc Hq Hg He|e Hc Hq Hg He];
    eexists _, _; (split; [reflexivity|]).
  - split; [exact (Hcache _ _ Hc)|]. exact Hcache.
  - split; [apply length_mockVector|]. exact Hcache.
  - split; [exact (Hup _ _ _ He)|].
    pose proof (answered_fields text_ (entered text_ w)) as Hf. cbv zeta in Hf.
    destruct Hf as (_ & _ & _ & _ & _ & _ & _ & _ & Hca & _).
    intros key values. unfold stored. simplWorld. rewrite Hca.
    unfold entered. simplWorld. rewrite lookup_insert.
    destruct (decide (cacheKey text_ = key)).
    + intros [= <-]. exact (Hup _ _ _ He).
    + apply Hcache.
  - split; [apply length_mockVector|].
    pose proof (answered_fields text_ (entered text_ w)) as Hf. cbv zeta in Hf.
    destruct Hf as (_ & _ & _ & _ & _ & _ & _ & _ & Hca & _).
    intros key values. unfold drawn.
    destruct (isRateLimit e); unfold limited; simplWorld; rewrite Hca;
      unfold entered; simplWorld; apply Hcache.
Qed.

Lemma session_768 (calls : list (N * jsstring)) :
  upstream768 o ->
  forall w, cache768 w ->
    Forall (fun r => exists values, r = inr values /\ length values = 768%nat)
           (fst (session o calls w))
    /\ cache768 (snd (session o calls w)).
Proof.
  intros Hup. induction calls as [|[dt text_] rest IH]; intros w Hcache.
  - cbn. split; [constructor|exact Hcache].
  - cbn [session].
    destruct (generateEmbedding_768 text_ (idle dt w) Hup Hcache)
      as (values & w1 & -> & Hlen & Hc1).
    destruct (IH w1 Hc1) as [Hall Hc2].
    destruct (session o rest w1) as [rs w2]. cbn [fst snd] in *.
    split; [|exact Hc2]. constructor; [|exact Hall]. exists values. auto.
Qed.

(** *** The quiet period *)

Lemma totalIdle_nonneg (calls : list (N * jsstring)) : 0 <= totalIdle calls.
Proof.
  unfold totalIdle. induction calls as [|[dt t] rest IH]; cbn [fold_right fst]; lia.
Qed.

Lemma session_quiet (calls : list (N * jsstring)) :
  forall (w : World) (reset : Z),
    quotaExceeded (service w) = true ->
    quotaResetTime (service w) = Num reset ->
    now w + totalIdle calls < reset ->
    exists es,
      trace (snd (session o calls w)) = trace w ++ es
      /\ List.filter isEmbedContent es = []
      /\ embedCalls (snd (session o calls w)) = embedCalls w
      /\ service (snd (session o calls w)) = service w
      /\ Forall2 (quietAnswer o w) calls (fst (session o calls w)).
Proof.
  induction calls as [|[dt text_] rest IH]; intros w reset Hflag Hreset Htime.
  - exists []. cbn. rewrite app_nil_r. repeat split; constructor.
  - cbn [session]. unfold totalIdle in Htime. cbn [fold_right fst] in Htime.
    fold (totalIdle rest) in Htime. pose proof (totalIdle_nonneg rest) as Hnn.
    assert (Hactive : quotaActive (idle dt w) = true).
    { unfold quotaActive, isQuotaExceeded, idle. simplWorld.
      rewrite Hflag, Hreset. cbn [andb lt]. apply Z.ltb_lt. lia. }
    assert (Hstep : exists r w1,
               generateEmbedding o text_ (idle dt w) = (r, w1)
               /\ quietAnswer o w (dt, text_) r
               /\ exists es1, trace w1 = trace w ++ es1
                    /\ List.filter isEmbedContent es1 = []
                    /\ embedCalls w1 = embedCalls w /\ service w1 = service w
                    /\ now w1 = now w + Z.of_N dt).
    { unfold quietAnswer. cbn [snd].
      destruct (cached w text_) as [values|] eqn:Hc.
      - eexists _, _. split; [apply generateEmbedding_hit; exact Hc|].
        split; [reflexivity|]. exists [EvGenerateEmbedding text_].
        unfold entered, idle. simplWorld. auto.
      - eexists _, _. split; [apply generateEmbedding_quota; assumption|].
        split; [eexists; reflexivity|]. exists [EvGenerateEmbedding text_].
        unfold drawn, entered, idle. simplWorld. auto. }
    destruct Hstep as (r & w1 & -> & Hans & es1 & Ht1 & Hf1 & He1 & Hs1 & Hn1).
    destruct (IH w1 reset) as (es2 & Ht2 & Hf2 & He2 & Hs2 & Hall).
    { rewrite Hs1. exact Hflag. }
    { rewrite Hs1. exact Hreset. }
    { lia. }
    destruct (session o rest w1) as [rs w2]. cbn [fst snd] in *.
    exists (es1 ++ es2). rewrite Ht2, Ht1, <- app_assoc.
    rewrite List.filter_app, Hf1, Hf2. repeat split; try congruence.
    constructor; [exact Hans|].
    eapply Forall2_impl; [exact Hall|].
    intros call res. unfold quietAnswer, cached. rewrite Hs1. auto.
Qed.

End WithOracle.

End EmbeddingFacts.

(* ===================================================================== *)
(** ** The stores *)
(* ===================================================================== *)

Module StoreFacts.
Import Service EffFacts.

Section WithOracle.

Variable o : Oracle.

Lemma mongoOp_run (w : World) : mongoOp o w = (inr (mongoOps w), afterMongo o w).
Proof. reflexivity. Qed.

Lemma chromaOp_run (w : World) : chromaOp o w = (inr (chromaOps w), afterChroma o w).
Proof. reflexivity. Qed.

Lemma find_run (botId_ : jsstring) (w : World) :
  find o botId_ w =
    if negb (isObjectId o botId_) then (inl castError, w)
    else if mongoFails o (mongoOps w) then (inl mongoError, afterMongo o w)
    else (inr (processedOf botId_ (documents w)), afterMongo o w).
Proof.
  unfold find. destruct (isObjectId o botId_); [|reflexivity]. cbn [negb].
  unfold mbind, M_bind, bind. rewrite mongoOp_run.
  destruct (mongoFails o (mongoOps w)); reflexivity.
Qed.

Lemma ensureCollection_connected (w : World) :
  isConnected w = true -> ensureCollection o w = (inr true, w).
Proof.
  unfold isConnected. intros [Ha Hc]%andb_prop.
  unfold ensureCollection. unfoldM. rewrite Ha, Hc. cbn [negb andb].
  rewrite Hc. reflexivity.
Qed.

Lemma searchSimilar_connected (queryEmbedding : list float) (topK : Z) (w : World) :
  isConnected w = true ->
  searchSimilar o queryEmbedding topK w =
    (inr (hitsOf (chromaQuery o (chromaOps w) queryEmbedding topK)), afterChroma o w).
Proof.
  intros Hconn. unfold searchSimilar. unfold mbind, M_bind, bind.
  rewrite (ensureCollection_connected w Hconn). cbn [negb].
  rewrite chromaOp_run. unfold hitsOf.
  destruct (chromaQuery o (chromaOps w) queryEmbedding topK) as [e|[rows|]];
    try reflexivity.
  destruct (transformRows rows); reflexivity.
Qed.

End WithOracle.

End StoreFacts.

(* ===================================================================== *)
(** ** Retrieval *)
(* ===================================================================== *)

Module RetrievalFacts.
Import Service EffFacts EmbeddingFacts StoreFacts.

Section WithOracle.

Variable o : Oracle.

Lemma searchDocuments_run (botId_ query : jsstring) (topK : Z) (w : World) :
  exists queryEmbedding w1,
    generateEmbedding o query w = (inr queryEmbedding, w1)
    /\ exists w',
         searchDocuments o botId_ query topK w =
           (inr (searchOutcome o botId_ topK w queryEmbedding), w')
         /\ documents w' = documents w.
Proof.
  destruct (generateEmbedding_frame o query w)
    as (emb & w1 & Hgen & Hd & Hch & Hm & Hco & _).
  exists emb, w1. split; [exact Hgen|].
  unfold searchDocuments, searchOutcome, tryCatch, mbind, M_bind, bind.
  rewrite Hgen, find_run, Hm, Hd.
  destruct (isObjectId o botId_); cbn [negb orb];
    [|eexists; split; [reflexivity|exact Hd]].
  destruct (mongoFails o (mongoOps w));
    [eexists; split; [reflexivity|unfold afterMongo, awaited; simplWorld; exact Hd]|].
  destruct (strlen (processedOf botId_ (documents w)) =? 0);
    [eexists; split; [reflexivity|unfold afterMongo, awaited; simplWorld; exact Hd]|].
  unfoldM.
  assert (Hconn : isConnected (afterMongo o w1) = isConnected w).
  { unfold isConnected, afterMongo, awaited. simplWorld. rewrite Hch. reflexivity. }
  rewrite Hconn. destruct (isConnected w) eqn:Hc.
  - rewrite searchSimilar_connected by exact Hconn.
    assert (Hops : chromaOps (afterMongo o w1) = chromaOps w).
    { unfold afterMongo, awaited. simplWorld. exact Hco. }
    rewrite Hops. eexists. split; [reflexivity|].
    unfold afterChroma, afterMongo, awaited. simplWorld. exact Hd.
  - eexists. split; [reflexivity|].
    unfold afterMongo, awaited. simplWorld. exact Hd.
Qed.

End WithOracle.

End RetrievalFacts.

(* ===================================================================== *)
(** ** Where the results of retrieval come from *)
(* ===================================================================== *)

Module ResultFacts.
Import Service.

Lemma slice_prefix {A} (l : list A) (k : Z) :
  0 <= k -> slice l 0 k = take (Z.to_nat k) l.
Proof.
  intros Hk. unfold slice. change (0 <? 0) with false. cbv iota.
  destruct (Z.ltb_spec k 0); [lia|].
  assert (Hlen : 0 <= strlen l) by (unfold strlen; lia).
  rewrite (Z.min_l 0) by exact Hlen. cbn [Z.to_nat drop].
  rewrite Z.sub_0_r. destruct (Z.min_spec k (strlen l)) as [[_ ->]|[Hle ->]];
    [reflexivity|].
  unfold strlen in *. rewrite (take_ge l (Z.to_nat k)) by lia.
  apply take_ge. lia.
Qed.

Lemma In_slice {A} (l : list A) (a b : Z) (x : A) : In x (slice l a b) -> In x l.
Proof.
  unfold slice. rewrite <- !list_elem_of_In. intros Hx.
  eapply elem_of_sublist; [exact Hx|].
  etransitivity; [apply sublist_take|apply sublist_drop].
Qed.

Lemma slice_map {A B} (f : A -> B) (l : list A) (a b : Z) :
  slice (List.map f l) a b = List.map f (slice l a b).
Proof.
  unfold slice, strlen. rewrite length_map.
  rewrite <- firstn_map, <- skipn_map. reflexivity.
Qed.

Lemma In_processedOf (botId_ : jsstring) (docs : list IDocument) (d : IDocument) :
  In d (processedOf botId_ docs) <->
  In d docs /\ botId d = botId_ /\ processed d = true.
Proof.
  unfold processedOf. rewrite filter_In, andb_true_iff, bool_decide_eq_true.
  tauto.
Qed.

Lemma In_hitsOf (reply : QueryReply) (hit : SimilarChunk) :
  In hit (hitsOf reply) ->
  exists rows row,
    reply = QueryAnswers (Some rows) /\ In row rows /\ toSimilarChunk row = Some hit.
Proof.
  destruct reply as [e|[rows|]]; cbn [hitsOf]; try (intros []).
  intros Hin. exists rows.
  enough (H : forall hits, transformRows rows = Some hits -> In hit hits ->
              exists row, In row rows /\ toSimilarChunk row = Some hit).
  { destruct (transformRows rows) as [hits|]; [|destruct Hin].
    destruct (H hits eq_refl Hin) as (row & ? & ?). exists row. auto. }
  clear Hin. induction rows as [|row rows IH]; intros hits Ht Hin.
  - injection Ht as <-. destruct Hin.
  - cbn [transformRows] in Ht.
    destruct (toSimilarChunk row) as [c|] eqn:Hc; [|discriminate].
    destruct (transformRows rows) as [cs|]; [|discriminate].
    injection Ht as <-. destruct Hin as [<-|Hin].
    + exists row. split; [left; reflexivity|exact Hc].
    + destruct (IH cs eq_refl Hin) as (row' & ? & ?).
      exists row'. split; [right|]; assumption.
Qed.

Lemma In_formatChromaResults (docs : list IDocument) (hits : list SimilarChunk)
    (topK : Z) (r : SearchResult) :
  In r (formatChromaResults docs hits topK) ->
  exists hit d,
    In hit hits /\ In d docs /\ documentId (metadata hit) = _id d
    /\ resContent r = text hit /\ resScore r = score hit.
Proof.
  unfold formatChromaResults. rewrite in_map_iff.
  intros (hit & <- & Hin). apply In_slice in Hin.
  apply filter_In in Hin as [Hin Hid]. apply bool_decide_eq_true in Hid.
  apply list_elem_of_In, in_map_iff in Hid as (d & Hd & Hdin).
  exists hit, d. cbn. auto.
Qed.

Lemma fallbackResults_stored (docs : list IDocument) (topK : Z) :
  fallbackResults docs topK = slice (storedChunks docs) 0 topK.
Proof.
  unfold fallbackResults, storedChunks. rewrite <- slice_map. f_equal.
  induction docs as [|d docs IH]; [reflexivity|].
  cbn [List.flat_map]. rewrite List.map_app, IH, List.map_map. reflexivity.
Qed.

Lemma In_storedChunks (docs : list IDocument) (r : SearchResult) :
  In r (storedChunks docs) ->
  exists d c,
    In d docs /\ In c (chunks d) /\ resContent r = content c
    /\ resFilename r = filename d /\ resScore r = 0.5%float.
Proof.
  unfold storedChunks. rewrite in_flat_map. intros (d & Hd & Hr).
  apply in_map_iff in Hr as (c & <- & Hc). exists d, c. cbn. auto.
Qed.

Lemma NoDup_ids_unique (docs : list IDocument) (d d' : IDocument) :
  NoDup (List.map _id docs) -> In d docs -> In d' docs -> _id d' = _id d -> d' = d.
Proof.
  induction docs as [|x docs IH]; intros Hnd Hd Hd' Hid; [destruct Hd|].
  cbn [List.map] in Hnd. apply NoDup_cons in Hnd as [Hx Hnd].
  rewrite list_elem_of_In in Hx.
  destruct Hd as [<-|Hd], Hd' as [<-|Hd'].
  - reflexivity.
  - exfalso. apply Hx. rewrite <- Hid. apply in_map. exact Hd'.
  - exfalso. apply Hx. rewrite Hid. apply in_map. exact Hd.
  - apply IH; assumption.
Qed.

End ResultFacts.

(* ===================================================================== *)
(** ** Ingestion *)
(* ===================================================================== *)

Module IngestionFacts.
Import Service EffFacts EmbeddingFacts StoreFacts.

Section WithOracle.

Variable o : Oracle.

Lemma tryCatch_rethrow {A} (c : M A) (w : World) :
  tryCatch c (fun error => throw error) w = c w.
Proof. unfold tryCatch, throw. destruct (c w) as [[e|a] w']; reflexivity. Qed.

Lemma mapM_app {A B} (f : A -> M B) (l1 l2 : list A) :
  forall w,
    mapM f (l1 ++ l2) w =
      match mapM f l1 w with
      | (inr bs1, w1) =>
          match mapM f l2 w1 with
          | (inr bs2, w2) => (inr (bs1 ++ bs2), w2)
          | (inl e, w2) => (inl e, w2)
          end
      | (inl e, w1) => (inl e, w1)
      end.
Proof.
  induction l1 as [|a l1 IH]; intros w.
  - cbn. destruct (mapM f l2 w) as [[e|bs] w2]; reflexivity.
  - cbn [app mapM]. unfold bind. destruct (f a w) as [[e|b] w1]; [reflexivity|].
    rewrite IH.
    destruct (mapM f l1 w1) as [[e|bs1] w2]; [reflexivity|].
    unfold ret. cbv beta iota.
    destruct (mapM f l2 w2) as [[e|bs2] w3]; reflexivity.
Qed.

(** Embedding a list of chunks: one vector per chunk, one
    [EvGenerateEmbedding] per chunk in order, and no store is touched. *)
Lemma mapM_generateEmbedding (chunks_ : list jsstring) :
  forall w,
    exists embeddings w' es,
      mapM (generateEmbedding o) chunks_ w = (inr embeddings, w')
      /\ length embeddings = length chunks_
      /\ documents w' = documents w /\ chroma w' = chroma w
      /\ mongoOps w' = mongoOps w /\ chromaOps w' = chromaOps w
      /\ trace w' = trace w ++ es
      /\ List.filter isGenerateEmbedding es = List.map EvGenerateEmbedding chunks_
      /\ List.filter isStoreEvent es = [].
Proof.
  induction chunks_ as [|c cs IH]; intros w.
  - exists [], w, []. cbn. rewrite app_nil_r. auto 10.
  - destruct (generateEmbedding_frame o c w)
      as (v & w1 & Hgen & Hd & Hch & Hm & Hco & Ht).
    destruct (IH w1) as (vs & w2 & es & Hrest & Hlen & Hd2 & Hch2 & Hm2 & Hco2 & Ht2 & Hg & Hs).
    cbn [mapM]. unfold bind. rewrite Hgen, Hrest. unfold ret.
    destruct Ht as [Ht|Ht].
    + exists (v :: vs), w2, (EvGenerateEmbedding c :: es).
      rewrite Ht2, Ht, <- app_assoc. cbn. rewrite Hg, Hs, Hlen.
      repeat split; congruence.
    + exists (v :: vs), w2, (EvGenerateEmbedding c :: EvEmbedContent c :: es).
      rewrite Ht2, Ht, <- app_assoc. cbn. rewrite Hg, Hs, Hlen.
      repeat split; congruence.
Qed.

(** The batches make no difference: the batched loop embeds the
    chunks one after the other. *)
Lemma embedBatches_from (chunks_ : list jsstring) (budget : nat) :
  forall (i : nat) (embeddings : list (list float)) (w : World),
    (length chunks_ - i <= budget)%nat ->
    embedBatches o chunks_ budget (Z.of_nat i) embeddings w =
      match mapM (generateEmbedding o) (drop i chunks_) w with
      | (inr es, w') => (inr (embeddings ++ es), w')
      | (inl e, w') => (inl e, w')
      end.
Proof.
  induction budget as [|b IH]; intros i acc w Hb.
  - rewrite drop_ge by lia. cbn. rewrite app_nil_r. reflexivity.
  - cbn [embedBatches]. unfold strlen, BATCH_SIZE.
    destruct (Z.ltb_spec (Z.of_nat i) (Z.of_nat (length chunks_))) as [Hlt|Hge];
      cbn [negb].
    + rewrite SplitterFacts.slice_inside by (unfold strlen; lia).
      replace (Z.to_nat (Z.min (Z.of_nat i + 10) (Z.of_nat (length chunks_)) - Z.of_nat i))
        with (Nat.min 10 (length chunks_ - i)) by lia.
      rewrite Nat2Z.id.
      rewrite <- (take_drop 10 (drop i chunks_)) at 2.
      rewrite mapM_app, drop_drop.
      replace (take (Nat.min 10 (length chunks_ - i)) (drop i chunks_))
        with (take 10 (drop i chunks_)).
      2:{ destruct (Nat.le_gt_cases 10 (length chunks_ - i)).
          - rewrite Nat.min_l by lia. reflexivity.
          - rewrite Nat.min_r by lia.
            rewrite !take_ge by (rewrite length_drop; lia). reflexivity. }
      unfold mbind, M_bind, bind.
      destruct (mapM (generateEmbedding o) (take 10 (drop i chunks_)) w)
        as [[e|es1] w1]; [reflexivity|].
      replace (Z.of_nat i + 10) with (Z.of_nat (i + 10)) by lia.
      rewrite IH by lia.
      destruct (mapM (generateEmbedding o) (drop (i + 10) chunks_) w1)
        as [[e|es2] w2]; [reflexivity|].
      rewrite app_assoc. reflexivity.
    + rewrite drop_ge by lia. cbn. rewrite app_nil_r. reflexivity.
Qed.

Lemma embedBatches_mapM (chunks_ : list jsstring) (w : World) :
  embedBatches o chunks_ (length chunks_) 0 [] w =
    mapM (generateEmbedding o) chunks_ w.
Proof.
  change 0 with (Z.of_nat 0).
  rewrite (embedBatches_from chunks_ (length chunks_) 0 [] w) by lia.
  change (drop 0 chunks_) with chunks_. cbn [app]. destruct (mapM (generateEmbedding o) chunks_ w) as [[e|es] w'];
    reflexivity.
Qed.

Lemma create_run (input : DocumentInput) (w : World) :
  create o input w =
    if negb (validates o input)
    then (inl validationError, emitted (EvDocumentCreate false) w)
    else if inserts o input w
         then (inr (newDocument o input w),
               emitted (EvDocumentCreate true)
                 (setDocuments (documents w ++ [newDocument o input w])
                    (afterMongo o w)))
         else (inl mongoError, emitted (EvDocumentCreate false) (afterMongo o w)).
Proof.
  unfold create, inserts, newDocument, emitted.
  destruct (validates o input); cbn [negb]; [|reflexivity].
  unfoldM. rewrite mongoOp_run. cbn [_id].
  change (documents (afterMongo o w)) with (documents w).
  destruct (mongoFails o (mongoOps w)); [reflexivity|]. cbn [orb].
  destruct (bool_decide (newObjectId o (mongoOps w) ∈ List.map _id (documents w)));
    reflexivity.
Qed.

Lemma ensureCollection_frame (w : World) :
  exists b w',
    ensureCollection o w = (inr b, w')
    /\ documents w' = documents w /\ trace w' = trace w.
Proof.
  unfold ensureCollection, initialize. unfoldM.
  destruct (isAvailable (chroma w)); cbn [negb andb]; [|eauto].
  destruct (collection (chroma w)); cbn [negb andb]; [eauto|].
  rewrite chromaOp_run.
  destruct (chromaFails o (chromaOps w)); eexists _, _;
    (split; [reflexivity|split; reflexivity]).
Qed.

Lemma addEmbeddings_frame (documentId_ : jsstring) (chunks_ : list jsstring)
    (embeddings : list (list float)) (source_ : jsstring) (w : World) :
  exists w',
    addEmbeddings o documentId_ chunks_ embeddings source_ w = (inr tt, w')
    /\ documents w' = documents w
    /\ trace w' = trace w ++ [EvAddEmbeddings documentId_].
Proof.
  unfold addEmbeddings. unfoldM.
  destruct (ensureCollection_frame (setTrace (trace w ++ [EvAddEmbeddings documentId_]) w))
    as (b & w1 & -> & Hd & Ht).
  destruct b; cbn [negb]; [rewrite chromaOp_run|]; eexists; (split; [reflexivity|]);
    unfold afterChroma, awaited; simplWorld; rewrite Hd, Ht; auto.
Qed.

Lemma deleteEmbeddings_frame (documentId_ : jsstring) (w : World) :
  exists w',
    deleteEmbeddings o documentId_ w = (inr tt, w')
    /\ documents w' = documents w
    /\ trace w' = trace w ++ [EvDeleteEmbeddings documentId_].
Proof.
  unfold deleteEmbeddings. unfoldM.
  destruct (ensureCollection_frame (setTrace (trace w ++ [EvDeleteEmbeddings documentId_]) w))
    as (b & w1 & -> & Hd & Ht).
  destruct b; cbn [negb]; [rewrite chromaOp_run|]; eexists; (split; [reflexivity|]);
    unfold afterChroma, awaited; simplWorld; rewrite Hd, Ht; auto.
Qed.

(** How steps 3 to 5 end: the embeddings are made; then either the
    record is refused, the error is thrown and nothing else happens, or
    the record is inserted and the vector index is written to. *)
Lemma ingestTail_run (embed : M (list (list float))) (input : DocumentInput)
    (chunks_ : list jsstring) (source_ : jsstring) (w : World) :
  embed w = mapM (generateEmbedding o) chunks_ w ->
  exists es w1,
    List.filter isGenerateEmbedding es = List.map EvGenerateEmbedding chunks_
    /\ List.filter isStoreEvent es = []
    /\ documents w1 = documents w
    /\ mongoOps w1 = mongoOps w
    /\ ((exists e w',
           ingestTail o embed input chunks_ source_ w = (inl e, w')
           /\ (validates o input && inserts o input w1 = false)
           /\ documents w' = documents w
           /\ trace w' = trace w ++ es ++ [EvDocumentCreate false])
        \/ (exists w',
              ingestTail o embed input chunks_ source_ w =
                (inr (_id (newDocument o input w1)), w')
              /\ (validates o input && inserts o input w1 = true)
              /\ documents w' = documents w ++ [newDocument o input w1]
              /\ trace w' = trace w ++ es
                   ++ [EvDocumentCreate true;
                       EvAddEmbeddings (_id (newDocument o input w1))])).
Proof.
  intros Hembed.
  destruct (mapM_generateEmbedding chunks_ w)
    as (embs & w1 & es & Hmap & _ & Hd & _ & Hmo & _ & Ht & Hg & Hs).
  exists es, w1. repeat (split; [assumption|]).
  unfold ingestTail, mbind, M_bind, bind. rewrite Hembed, Hmap, create_run.
  destruct (validates o input); cbn [negb andb].
  - destruct (inserts o input w1).
    + right.
      destruct (addEmbeddings_frame (_id (newDocument o input w1)) chunks_ embs source_
                  (emitted (EvDocumentCreate true)
                     (setDocuments (documents w1 ++ [newDocument o input w1])
                        (afterMongo o w1))))
        as (w3 & -> & Hd3 & Ht3).
      eexists. split; [reflexivity|]. split; [reflexivity|].
      rewrite Hd3, Ht3. unfold emitted, afterMongo, awaited. simplWorld.
      rewrite Hd, Ht, <- !app_assoc. auto.
    + left. eexists _, _. split; [reflexivity|]. split; [reflexivity|].
      unfold emitted, afterMongo, awaited. simplWorld.
      rewrite Hd, Ht, <- !app_assoc. auto.
  - left. eexists _, _. split; [reflexivity|]. split; [reflexivity|].
    unfold emitted. simplWorld. rewrite Hd, Ht, <- !app_assoc. auto.
Qed.

Lemma processDocument_unfold (botId_ userId_ filename_ : jsstring) (buffer : list N)
    (fileType_ : jsstring) (w : World) :
  processDocument o botId_ userId_ filename_ buffer fileType_ w =
    match pdfParse o buffer with
    | None => (inl (newError (lit "Failed to parse PDF")), awaited o w)
    | Some text_ =>
        if isBlank text_
        then (inl (newError (lit "No text content found in PDF")), awaited o w)
        else
          let chunks_ := chunkText o text_ in
          ingestTail o (embedBatches o chunks_ (length chunks_) 0 [])
            (ingestInput botId_ userId_ filename_ fileType_ (strlen buffer)
               (lit "pdf") chunks_)
            chunks_ (lit "pdf") (awaited o w)
    end.
Proof.
  unfold processDocument. rewrite tryCatch_rethrow.
  unfold ingestTail, ingestInput, parsePDF, await. unfoldM.
  change (setAwaits (S (awaits w)) (setNow (now w + Z.of_N (elapsed o (awaits w))) w))
    with (awaited o w).
  destruct (pdfParse o buffer) as [text_|]; [|reflexivity].
  destruct (isBlank text_); [reflexivity|].
  cbv beta zeta. reflexivity.
Qed.

Lemma processDocumentFromText_unfold (botId_ userId_ filename_ text_ : jsstring)
    (fileType_ : jsstring) (w : World) :
  processDocumentFromText o botId_ userId_ filename_ text_ fileType_ w =
    if isBlank text_
    then (inl (newError (lit "No text content provided")), w)
    else
      let chunks_ := chunkText o text_ in
      ingestTail o (mapM (generateEmbedding o) chunks_)
        (ingestInput botId_ userId_ filename_ fileType_ (strlen text_)
           (lit "url") chunks_)
        chunks_ (lit "url") w.
Proof.
  unfold processDocumentFromText. rewrite tryCatch_rethrow.
  unfold ingestTail, ingestInput. unfoldM.
  destruct (isBlank text_); [reflexivity|].
  cbv beta zeta. reflexivity.
Qed.

(** The chunk entries of a record: the chunks, numbered from zero. *)
Lemma toChunkEntries_from (chunks_ : list jsstring) :
  forall n : nat,
    let entries := imap (fun i c => {| content := c; pageNumber := None;
                                       chunkIndex := Z.of_nat (n + i) |}) chunks_ in
    List.map content entries = chunks_
    /\ List.map chunkIndex entries = List.map Z.of_nat (seq n (length chunks_)).
Proof.
  induction chunks_ as [|c cs IH]; intros n; [split; reflexivity|].
  cbv zeta. cbn [imap List.map length seq content chunkIndex].
  rewrite Nat.add_0_r.
  rewrite (imap_ext _ (fun i c => {| content := c; pageNumber := None;
                                     chunkIndex := Z.of_nat (S n + i) |}) cs).
  - destruct (IH (S n)) as [-> ->]. split; reflexivity.
  - intros i x _. cbn. do 2 f_equal. lia.
Qed.

Lemma toChunkEntries_spec (chunks_ : list jsstring) :
  List.map content (toChunkEntries chunks_) = chunks_
  /\ List.map chunkIndex (toChunkEntries chunks_)
      = List.map Z.of_nat (seq 0 (length (toChunkEntries chunks_)))
  /\ strlen (toChunkEntries chunks_) = strlen chunks_.
Proof.
  destruct (toChunkEntries_from chunks_ 0) as [Hc Hi]. cbv zeta in Hc, Hi.
  assert (Hlen : length (toChunkEntries chunks_) = length chunks_).
  { rewrite <- Hc at 2. rewrite length_map. reflexivity. }
  unfold strlen. rewrite Hlen. repeat split; assumption.
Qed.

(** A successful ingestion leaves a complete record. *)
Lemma ingestTail_ingested (embed : M (list (list float)))
    (botId_ userId_ filename_ fileType_ source_ text_ : jsstring) (size : Z)
    (w0 w : World) (id_ : jsstring) :
  let chunks_ := chunkText o text_ in
  let input := ingestInput botId_ userId_ filename_ fileType_ size source_ chunks_ in
  embed w = mapM (generateEmbedding o) chunks_ w ->
  documents w = documents w0 -> trace w = trace w0 ->
  result (ingestTail o embed input chunks_ source_ w) = inr id_ ->
  ingested o botId_ userId_ text_ id_ w0
    (after (ingestTail o embed input chunks_ source_ w)).
Proof.
  intros chunks_ input Hembed Hd0 Ht0 Hres.
  destruct (ingestTail_run embed input chunks_ source_ w Hembed)
    as (es & w1 & Hg & Hs & Hd & _ & [(e & w' & Hrun & _)|(w' & Hrun & _ & Hdocs & Htrace)]);
    unfold result, after in *; rewrite Hrun in *; cbn [fst snd] in *; [discriminate|].
  injection Hres as <-.
  destruct (toChunkEntries_spec chunks_) as (Hc & Hi & Hl).
  exists (newDocument o input w1), es.
  rewrite Hdocs, Hd0. cbn [newDocument input ingestInput _id botId userId processed
                           totalChunks chunks inBotId inUserId inProcessed
                           inTotalChunks inChunks].
  rewrite Hc, Hl. repeat (split; [first [reflexivity|assumption]|]).
  split; [|split; assumption].
  apply newEvents_app. rewrite Htrace, Ht0. reflexivity.
Qed.

End WithOracle.

End IngestionFacts.

(* ===================================================================== *)
(** ** Deletion *)
(* ===================================================================== *)

Module DeletionFacts.
Import Service EffFacts StoreFacts IngestionFacts.

Section WithOracle.

Variable o : Oracle.

Lemma removeFirst_Some (p : IDocument -> bool) (l remaining : list IDocument) :
  removeFirst p l = Some remaining ->
  exists before d rest,
    l = before ++ d :: rest /\ p d = true
    /\ (forall x, In x before -> p x = false)
    /\ remaining = before ++ rest.
Proof.
  revert remaining. induction l as [|x l IH]; intros remaining; [discriminate|].
  cbn [removeFirst]. destruct (p x) eqn:Hx.
  - intros [= <-]. exists [], x, l. repeat split; auto. intros ? [].
  - destruct (removeFirst p l) as [r|]; [|discriminate]. intros [= <-].
    destruct (IH r eq_refl) as (before & d & rest & -> & Hd & Hb & ->).
    exists (x :: before), d, rest. repeat split; auto.
    intros y [<-|Hy]; auto.
Qed.

Lemma deleteOne_run (documentId_ userId_ : jsstring) (w : World) :
  deleteOne o documentId_ userId_ w =
    if negb (isObjectId o documentId_ && isObjectId o userId_)
    then (inl castError, emitted (EvDocumentDelete false) w)
    else if mongoFails o (mongoOps w)
         then (inl mongoError, emitted (EvDocumentDelete false) (afterMongo o w))
         else
           match removeFirst (fun d => bool_decide (_id d = documentId_)
                                       && bool_decide (userId d = userId_))
                             (documents w) with
           | Some remaining =>
               (inr 1, setDocuments remaining
                         (emitted (EvDocumentDelete true) (afterMongo o w)))
           | None => (inr 0, emitted (EvDocumentDelete true) (afterMongo o w))
           end.
Proof.
  unfold deleteOne, emitted.
  destruct (isObjectId o documentId_ && isObjectId o userId_); cbn [negb];
    [|reflexivity].
  unfoldM. rewrite mongoOp_run.
  destruct (mongoFails o (mongoOps w)); [reflexivity|].
  change (documents (afterMongo o w)) with (documents w).
  destruct (removeFirst _ (documents w)); reflexivity.
Qed.

(** The three ways [deleteDocument] ends. *)
Lemma deleteDocument_run (documentId_ userId_ : jsstring) (w : World) :
  let matches := fun d => bool_decide (_id d = documentId_)
                          && bool_decide (userId d = userId_) in
  exists w',
    if negb (isObjectId o documentId_ && isObjectId o userId_)
       || mongoFails o (mongoOps w)
    then deleteDocument o documentId_ userId_ w = (inr false, w')
         /\ documents w' = documents w
         /\ trace w' = trace w ++ [EvDocumentDelete false]
    else match removeFirst matches (documents w) with
         | Some remaining =>
             deleteDocument o documentId_ userId_ w = (inr true, w')
             /\ documents w' = remaining
             /\ trace w' = trace w ++ [EvDocumentDelete true;
                                       EvDeleteEmbeddings documentId_]
         | None =>
             deleteDocument o documentId_ userId_ w = (inr false, w')
             /\ documents w' = documents w
             /\ trace w' = trace w ++ [EvDocumentDelete true]
         end.
Proof.
  cbv zeta. unfold deleteDocument, tryCatch, mbind, M_bind, bind.
  rewrite deleteOne_run.
  destruct (isObjectId o documentId_ && isObjectId o userId_); cbn [negb orb];
    [|eexists; split; [reflexivity|split; reflexivity]].
  destruct (mongoFails o (mongoOps w));
    [eexists; split; [reflexivity|split; reflexivity]|].
  destruct (removeFirst _ (documents w)) as [remaining|].
  - change (0 <? 1) with true. cbv iota.
    destruct (deleteEmbeddings_frame o documentId_
                (setDocuments remaining
                   (emitted (EvDocumentDelete true) (afterMongo o w))))
      as (w2 & -> & Hd & Ht).
    unfold mret, M_ret, ret. eexists. split; [reflexivity|].
    rewrite Hd, Ht. unfold emitted, afterMongo, awaited. simplWorld.
    rewrite <- app_assoc. auto.
  - change (0 <? 0) with false. cbv iota.
    eexists; split; [reflexivity|split; reflexivity].
Qed.

End WithOracle.

End DeletionFacts.

(* ===================================================================== *)
(** ** The text splitter and the de-duplicator *)
(* ===================================================================== *)

Module TextClaims.
Import Splitter Chunker SplitterFacts JSFacts ChunkerFacts Examples.

(** C5, as the spec words it, fails on a long text. With chunks of one
    character and no overlap, a text of 1001 characters is cut after
    1000 iterations: the chunks no longer spell the text. *)
Lemma splitText_truncates :
  0 < 1
  /\ length (splitText 1 0 longLine) = 1000%nat
  /\ iterations 1 0 longLine = maxIterations
  /\ reconstruct 0 (splitText 1 0 longLine) <> longLine.
Proof.
  split; [lia|]. split; [vm_compute; reflexivity|]. split; [vm_compute; reflexivity|].
  assert (Hlen : length (reconstruct 0 (splitText 1 0 longLine)) = 1000%nat)
    by (vm_compute; reflexivity).
  intros H. rewrite H in Hlen. vm_compute in Hlen. discriminate Hlen.
Qed.

(** C5 (amended). For [0 <= chunkOverlap < chunkSize] the chunks are the
    windows that start at the multiples of [chunkSize - chunkOverlap],
    each of length [min chunkSize remaining], up to the last window or
    to the cap of 1000 iterations, whichever comes first; when the text
    has at most [chunkSize + 999 * (chunkSize - chunkOverlap)]
    characters the cap is not reached and the chunks minus their
    overlaps spell the text; a text of 2500 characters is split, with
    the defaults, into [0,1000), [900,1900) and [1800,2500). *)
Theorem splitText_windows (chunkSize chunkOverlap : Z) (text_ : jsstring) :
  0 <= chunkOverlap -> chunkOverlap < chunkSize ->
  let stride := chunkSize - chunkOverlap in
  let count := Nat.min maxIterations (windowCount chunkSize chunkOverlap (strlen text_)) in
  splitText chunkSize chunkOverlap text_ =
    List.map (window chunkSize chunkOverlap text_) (seq 0 count)
  /\ (forall k, (k < count)%nat ->
        window chunkSize chunkOverlap text_ k =
          slice text_ (Z.of_nat k * stride) (Z.of_nat k * stride + chunkSize)
        /\ strlen (window chunkSize chunkOverlap text_ k) =
             Z.min chunkSize (strlen text_ - Z.of_nat k * stride))
  /\ (iterations chunkSize chunkOverlap text_ <= maxIterations)%nat
  /\ (strlen text_ <= chunkSize + 999 * stride ->
      reconstruct chunkOverlap (splitText chunkSize chunkOverlap text_) = text_)
  /\ (chunkSize = 1000 -> chunkOverlap = 100 -> strlen text_ = 2500 ->
      splitText chunkSize chunkOverlap text_ =
        [slice text_ 0 1000; slice text_ 900 1900; slice text_ 1800 2500]).
Proof.
  intros Hnn Hlt stride count.
  pose proof (splitRun_windows chunkSize chunkOverlap text_ Hnn Hlt) as Hrun.
  assert (Hsplit : splitText chunkSize chunkOverlap text_ =
                     List.map (window chunkSize chunkOverlap text_) (seq 0 count)).
  { unfold splitText. rewrite Hrun. reflexivity. }
  split; [exact Hsplit|]. split; [|split; [|split]].
  - intros k Hk.
    assert (Hk' : (k < windowCount chunkSize chunkOverlap (strlen text_))%nat)
      by (unfold count in Hk; lia).
    split; [|exact (strlen_window chunkSize chunkOverlap text_ Hnn Hlt k Hk')].
    pose proof (window_starts_inside chunkSize chunkOverlap text_ Hnn Hlt k Hk') as Hin.
    fold stride in Hin. unfold window. fold stride. unfold slice.
    assert (Hlen : 0 <= strlen text_) by (unfold strlen; lia).
    destruct (Z.ltb_spec (Z.of_nat k * stride + chunkSize) 0); [lia|].
    destruct (Z.ltb_spec (Z.min (Z.of_nat k * stride + chunkSize) (strlen text_)) 0);
      [lia|].
    rewrite <- Z.min_assoc, Z.min_id. reflexivity.
  - unfold iterations. rewrite Hrun. cbn [snd]. apply Nat.le_min_l.
  - intros Hcap.
    apply (splitText_reconstruct chunkSize chunkOverlap text_ Hnn Hlt 999);
      [reflexivity|]. exact Hcap.
  - intros -> -> Hlen. rewrite Hsplit. unfold count. rewrite Hlen.
    change (windowCount 1000 100 2500) with 3%nat.
    change (Nat.min maxIterations 3) with 3%nat.
    cbn [seq List.map]. unfold window. rewrite Hlen. reflexivity.
Qed.

(** The default splitter on the handbook of 2500 characters. *)
Lemma splitText_windows_handbook :
  splitText 1000 100 Examples.handbook =
    [slice Examples.handbook 0 1000; slice Examples.handbook 900 1900;
     slice Examples.handbook 1800 2500]
  /\ reconstruct 100 (splitText 1000 100 Examples.handbook) = Examples.handbook.
Proof.
  destruct (splitText_windows 1000 100 Examples.handbook) as (_ & _ & _ & Hrec & Hex);
    [lia|lia|].
  split.
  - apply Hex; reflexivity.
  - apply Hrec. vm_compute. discriminate.
Defined.

(** C7. The de-duplication stage is idempotent, and it keeps, in input
    order, the first candidate of every signature. *)
Theorem dedupe_idempotent (toLowerCase : jsstring -> jsstring)
    (rawChunks : list jsstring) :
  dedupe toLowerCase (dedupe toLowerCase rawChunks) = dedupe toLowerCase rawChunks
  /\ dedupe toLowerCase rawChunks = dedupeSpec toLowerCase rawChunks
  /\ dedupe toLowerCase rawChunks `sublist_of` List.map trim rawChunks
  /\ NoDup (List.map (signature toLowerCase) (dedupe toLowerCase rawChunks)).
Proof.
  split; [apply dedupe_fixed|]. split; [apply dedupe_is_spec|].
  rewrite dedupe_is_spec. unfold dedupeSpec. split.
  - etransitivity; [apply firstOccurrences_sublist|apply candidates_sublist].
  - apply (firstOccurrences_props toLowerCase (candidates rawChunks) []).
Qed.

(** C8. No chunk whose trimmed length is under 50 leaves the
    de-duplicator: every chunk it returns, and so every chunk
    [chunkText] returns, is trimmed and has at least 50 characters. *)
Theorem chunks_trimmed_and_long (toLowerCase : jsstring -> jsstring) (c : jsstring) :
  (forall rawChunks, In c (dedupe toLowerCase rawChunks) ->
                     trim c = c /\ 50 <= strlen c)
  /\ (forall text_, In c (chunkText toLowerCase text_) ->
                    trim c = c /\ 50 <= strlen c).
Proof.
  split.
  - intros rawChunks Hc. exact (dedupe_wellFormed toLowerCase rawChunks c Hc).
  - intros text_ Hc. unfold chunkText in Hc.
    exact (dedupe_wellFormed toLowerCase _ c Hc).
Qed.

(** The first chunk of the handbook. *)
Lemma chunks_trimmed_and_long_handbook :
  In (slice Examples.handbook 0 1000) (chunkText asciiLower Examples.handbook)
  /\ trim (slice Examples.handbook 0 1000) = slice Examples.handbook 0 1000
  /\ 50 <= strlen (slice Examples.handbook 0 1000).
Proof.
  assert (H : In (slice Examples.handbook 0 1000)
                 (chunkText asciiLower Examples.handbook))
    by (vm_compute; left; reflexivity).
  split; [exact H|].
  exact (proj2 (chunks_trimmed_and_long asciiLower (slice Examples.handbook 0 1000))
           Examples.handbook H).
Defined.

End TextClaims.

(* ===================================================================== *)
(** ** The embedding provider *)
(* ===================================================================== *)

Module EmbeddingClaims.
Import Service EffFacts EmbeddingFacts Examples MoreExamples.

(** C4, as the spec words it, fails when the upstream service
    answers with a vector of another dimension: the answer is cached and
    returned as it is, its length is not looked at. Here the service
    answers with three components, and the call returns these three,
    as does the next call, from the cache. *)
Lemma upstream_vector_unchecked :
  genAI (service fresh) = true
  /\ embedContent shortOracle (embedCalls fresh) (lit "alpha")
     = EmbedValues [1%float; 2%float; 3%float]
  /\ result (generateEmbedding shortOracle (lit "alpha") fresh)
     = inr [1%float; 2%float; 3%float]
  /\ result (generateEmbedding shortOracle (lit "alpha")
               (after (generateEmbedding shortOracle (lit "alpha") fresh)))
     = inr [1%float; 2%float; 3%float]
  /\ length [1%float; 2%float; 3%float] <> 768%nat.
Proof.
  split; [reflexivity|]. split; [reflexivity|].
  split; [vm_compute; reflexivity|]. split; [vm_compute; reflexivity|].
  cbn [length]. discriminate.
Qed.

(** C4 (amended). [generateEmbedding] never throws, whatever the text
    and the state. It returns the cached vector when the key of the text
    is cached. Otherwise it returns a mock vector while the quota window
    is open, without a configured provider, and when the upstream call
    fails with whatever error; a mock vector has exactly 768 components.
    Otherwise it returns the vector that the upstream service answers,
    as it is. So the result has exactly 768 components whenever the
    upstream service answers with vectors of 768 components only and
    the cache holds such vectors only, which then stays true of the
    cache; in particular in every sequence of calls from the initial
    state. *)
Theorem generateEmbedding_total (o : Oracle) (text_ : jsstring) (w : World) :
  (exists values, result (generateEmbedding o text_ w) = inr values)
  /\ (forall values,
        cached w text_ = Some values ->
        result (generateEmbedding o text_ w) = inr values)
  /\ (cached w text_ = None -> quotaActive w = true ->
      result (generateEmbedding o text_ w) = inr (mockVector o (randomCalls w)))
  /\ (cached w text_ = None -> genAI (service w) = false ->
      result (generateEmbedding o text_ w) = inr (mockVector o (randomCalls w)))
  /\ (forall error,
        cached w text_ = None ->
        embedContent o (embedCalls w) text_ = EmbedThrows error ->
        result (generateEmbedding o text_ w) = inr (mockVector o (randomCalls w)))
  /\ (forall values,
        cached w text_ = None -> quotaActive w = false ->
        genAI (service w) = true ->
        embedContent o (embedCalls w) text_ = EmbedValues values ->
        result (generateEmbedding o text_ w) = inr values)
  /\ length (mockVector o (randomCalls w)) = 768%nat
  /\ (upstream768 o -> cache768 w ->
      exists values,
        result (generateEmbedding o text_ w) = inr values
        /\ length values = 768%nat
        /\ cache768 (after (generateEmbedding o text_ w)))
  /\ (upstream768 o ->
      forall configured clock calls,
        Forall (fun r => exists values, r = inr values /\ length values = 768%nat)
               (fst (session o calls (initialWorld configured clock)))).
Proof.
  unfold result, after.
  split; [|split; [|split; [|split; [|split; [|split; [|split; [|split]]]]]]].
  - destruct (generateEmbedding_frame o text_ w) as (v & w' & -> & _). eauto.
  - intros values Hc. rewrite (generateEmbedding_hit o text_ w values Hc).
    reflexivity.
  - intros Hc Hq. rewrite (generateEmbedding_quota o text_ w Hc Hq). reflexivity.
  - intros Hc Hg.
    destruct (generateEmbedding_outcome o text_ w)
      as [v Hc'|_ _|v _ _ Hg' _|e _ _ Hg' _]; try reflexivity; congruence.
  - intros error Hc He.
    destruct (generateEmbedding_outcome o text_ w)
      as [v Hc'|_ _|v _ _ _ He'|e _ _ _ _]; try reflexivity; congruence.
  - intros values Hc Hq Hg He.
    rewrite (generateEmbedding_upstream o text_ w Hc Hq Hg). cbv zeta.
    rewrite He. reflexivity.
  - apply length_mockVector.
  - intros Hup Hcache.
    destruct (generateEmbedding_768 o text_ w Hup Hcache) as (v & w' & -> & ? & ?).
    eauto.
  - intros Hup configured clock calls.
    apply (session_768 o calls Hup). intros key values. cbn.
    rewrite lookup_empty. discriminate.
Qed.

(** The empty string, on a fresh service whose provider answers. *)
Lemma generateEmbedding_total_example :
  upstream768 oracle /\ cache768 fresh
  /\ exists values,
       result (generateEmbedding oracle [] fresh) = inr values
       /\ length values = 768%nat.
Proof.
  assert (Hup : upstream768 oracle).
  { intros n t values. cbn. destruct (n =? 1)%nat; [discriminate|].
    intros [= <-]. reflexivity. }
  assert (Hcache : cache768 fresh).
  { intros key values. cbn. rewrite lookup_empty. discriminate. }
  split; [exact Hup|]. split; [exact Hcache|].
  destruct (generateEmbedding_total oracle [] fresh)
    as (_ & _ & _ & _ & _ & _ & _ & H & _).
  destruct (H Hup Hcache) as (values & Hr & Hlen & _).
  exists values. auto.
Defined.

Lemma float_two_differs (x : float) :
  x = 0.25%float \/ x = 0.75%float -> 2%float <> x.
Proof.
  intros [->| ->] H; apply (f_equal (fun y => PrimFloat.ltb y 1%float)) in H;
    vm_compute in H; discriminate H.
Qed.

(** C3, as the spec words it, fails when the text of a later call is
    cached. After [alpha] has been embedded and cached and [beta] has
    been rate limited, a call for [alpha] before the reset time returns
    the cached vector of the provider, which is no mock vector. *)
Lemma cached_vector_in_quiet_period :
  quotaExceeded (service afterBeta) = true
  /\ quotaResetTime (service afterBeta) = Num 1035010
  /\ now afterBeta < 1035010
  /\ result (generateEmbedding oracle (lit "alpha") afterBeta)
       = inr (repeat 2%float 768)
  /\ embedCalls (after (generateEmbedding oracle (lit "alpha") afterBeta))
       = embedCalls afterBeta
  /\ forall n, repeat 2%float 768 <> mockVector oracle n.
Proof.
  split; [vm_compute; reflexivity|]. split; [vm_compute; reflexivity|].
  split; [vm_compute; reflexivity|]. split; [vm_compute; reflexivity|].
  split; [vm_compute; reflexivity|].
  intros n H. apply (f_equal (hd 0%float)) in H.
  unfold mockVector in H. change (seq 0 768) with (0%nat :: seq 1 767) in H.
  change (repeat 2%float 768) with (2%float :: repeat 2%float 767) in H.
  cbn [List.map hd random oracle oracleWith] in H.
  revert H. apply float_two_differs.
  destruct ((n + 0) mod 2 =? 0)%nat; auto.
Qed.

(** C3 (amended). A rate-limit error (status 429, or a message that
    contains [quota]) sets the flag and the reset time: the time of the
    error plus the seconds of the retry hint when there is one, plus 60
    seconds otherwise; a mock vector is returned. While the flag is set
    and the reset time is ahead, no call reaches the upstream service:
    a call returns the cached vector when its key is cached and a mock
    vector otherwise, and leaves the flag and the reset time as they
    are. Once the reset time has passed, a call whose key is not cached
    reaches the upstream service again, and a successful answer clears
    the flag. *)
Theorem quota_backoff (o : Oracle) :
  (forall w text_ error,
     cached w text_ = None -> quotaActive w = false -> genAI (service w) = true ->
     embedContent o (embedCalls w) text_ = EmbedThrows error ->
     isRateLimit error = true ->
     let r := generateEmbedding o text_ w in
     result r = inr (mockVector o (randomCalls w))
     /\ quotaExceeded (service (after r)) = true
     /\ (forall hint seconds,
           findRetryDelay error = Some hint -> hint <> [] ->
           parseInt hint = Num seconds ->
           quotaResetTime (service (after r)) = Num (now (after r) + seconds * 1000))
     /\ (findRetryDelay error = None \/ findRetryDelay error = Some [] ->
         quotaResetTime (service (after r)) = Num (now (after r) + 60000)))
  /\ (forall w reset calls,
        quotaExceeded (service w) = true ->
        quotaResetTime (service w) = Num reset ->
        now w + totalIdle calls < reset ->
        let r := session o calls w in
        embedCalls (snd r) = embedCalls w
        /\ List.filter isEmbedContent (newEvents w (snd r)) = []
        /\ quotaExceeded (service (snd r)) = true
        /\ quotaResetTime (service (snd r)) = Num reset
        /\ Forall2 (quietAnswer o w) calls (fst r))
  /\ (forall w reset text_,
        quotaResetTime (service w) = Num reset -> reset <= now w ->
        genAI (service w) = true -> cached w text_ = None ->
        let r := generateEmbedding o text_ w in
        embedCalls (after r) = S (embedCalls w)
        /\ In (EvEmbedContent text_) (newEvents w (after r)))
  /\ (forall w text_ values,
        cached w text_ = None -> quotaActive w = false -> genAI (service w) = true ->
        embedContent o (embedCalls w) text_ = EmbedValues values ->
        let r := generateEmbedding o text_ w in
        result r = inr values /\ quotaExceeded (service (after r)) = false).
Proof.
  split; [|split; [|split]].
  - intros w text_ error Hc Hq Hg He Hrl. cbv zeta. unfold result, after.
    rewrite generateEmbedding_upstream by assumption. cbv zeta.
    rewrite He, onEmbeddingError_run, Hrl.
    pose proof (answered_fields o text_ (entered text_ w)) as Hf. cbv zeta in Hf.
    destruct Hf as (_ & _ & _ & _ & Hr & _).
    cbn [fst snd]. rewrite Hr. unfold drawn, limited, resetTimeOf, entered at 1.
    simplWorld. split; [reflexivity|]. split; [reflexivity|]. split.
    + intros hint seconds -> Hne Hp. destruct hint as [|c s]; [congruence|].
      rewrite Hp. reflexivity.
    + intros [-> | ->]; reflexivity.
  - intros w reset calls Hflag Hreset Htime. cbv zeta.
    destruct (session_quiet o calls w reset Hflag Hreset Htime)
      as (es & Ht & Hf & He & Hs & Hall).
    rewrite (newEvents_app _ _ _ Ht), Hs. auto.
  - intros w reset text_ Hreset Hpast Hg Hc. cbv zeta. unfold after.
    assert (Hq : quotaActive w = false).
    { unfold quotaActive, isQuotaExceeded. rewrite Hreset. cbn [lt].
      apply andb_false_iff. right. apply Z.ltb_ge. exact Hpast. }
    rewrite generateEmbedding_upstream by assumption. cbv zeta.
    pose proof (answered_fields o text_ (entered text_ w)) as Hf. cbv zeta in Hf.
    destruct Hf as (_ & _ & _ & _ & _ & He & Ht & _).
    assert (Htrace : forall w',
               embedCalls w' = embedCalls (answered o text_ (entered text_ w)) ->
               trace w' = trace (answered o text_ (entered text_ w)) ->
               embedCalls w' = S (embedCalls w)
               /\ In (EvEmbedContent text_) (newEvents w w')).
    { intros w' He' Ht'. split; [rewrite He', He; reflexivity|].
      rewrite (newEvents_app w w' [EvGenerateEmbedding text_; EvEmbedContent text_]).
      - right. left. reflexivity.
      - rewrite Ht', Ht. unfold entered. simplWorld. rewrite <- app_assoc. reflexivity. }
    destruct (embedContent o (embedCalls w) text_) as [values|error].
    + apply Htrace; reflexivity.
    + rewrite onEmbeddingError_run.
      destruct (isRateLimit error); apply Htrace; reflexivity.
  - intros w text_ values Hc Hq Hg He. cbv zeta. unfold result, after.
    rewrite generateEmbedding_upstream by assumption. cbv zeta. rewrite He.
    split; reflexivity.
Qed.

(** The rate-limited call for [beta] carries a hint of 34 seconds; two
    later calls inside the window do not reach the upstream service. *)
Lemma quota_backoff_example :
  quotaResetTime (service (after (generateEmbedding oracle (lit "beta") afterAlpha)))
  = Num (now (after (generateEmbedding oracle (lit "beta") afterAlpha)) + 34 * 1000)
  /\ embedCalls (snd (session oracle [(1000%N, lit "gamma"); (2000%N, lit "alpha")]
                        afterBeta))
     = embedCalls afterBeta.
Proof.
  destruct (quota_backoff oracle) as (Hlimit & Hquiet & _). split.
  - pose proof (Hlimit afterAlpha (lit "beta") rateLimitError
                  ltac:(vm_compute; reflexivity) ltac:(vm_compute; reflexivity)
                  ltac:(vm_compute; reflexivity) ltac:(vm_compute; reflexivity)
                  ltac:(vm_compute; reflexivity)) as (_ & _ & Hhint & _).
    apply (Hhint (lit "34s") 34).
    + vm_compute. reflexivity.
    + discriminate.
    + vm_compute. reflexivity.
  - pose proof (Hquiet afterBeta 1035010
                  [(1000%N, lit "gamma"); (2000%N, lit "alpha")]
                  ltac:(vm_compute; reflexivity) ltac:(vm_compute; reflexivity)
                  ltac:(vm_compute; reflexivity)) as (H & _).
    exact H.
Defined.

End EmbeddingClaims.

(* ===================================================================== *)
(** ** Retrieval *)
(* ===================================================================== *)

Module RetrievalClaims.
Import Service EffFacts EmbeddingFacts StoreFacts RetrievalFacts ResultFacts Examples.

(** C1. [searchDocuments] never throws, and every hit it returns for
    a bot comes from a processed document of that bot. On the vector
    path the hit is a row ChromaDB returned whose [documentId] is the
    [_id] of such a document: rows of any other document are filtered
    out. On the fallback path the hit is a stored chunk of such a
    document. As MongoDB keeps [_id] unique, no document of another bot
    carries that [_id]. *)
Theorem retrieval_scoped (o : Oracle) (botId_ query : jsstring) (topK : Z) (w : World) :
  exists results,
    result (searchDocuments o botId_ query topK w) = inr results
    /\ forall r, In r results ->
         exists d,
           In d (documents w) /\ botId d = botId_ /\ processed d = true
           /\ (NoDup (List.map _id (documents w)) ->
               forall d', In d' (documents w) -> _id d' = _id d -> d' = d)
           /\ ((isConnected w = true
                /\ exists queryEmbedding rows row hit,
                     result (generateEmbedding o query w) = inr queryEmbedding
                     /\ chromaQuery o (chromaOps w) queryEmbedding (topK * 2)
                        = QueryAnswers (Some rows)
                     /\ In row rows /\ toSimilarChunk row = Some hit
                     /\ documentId (metadata hit) = _id d
                     /\ resContent r = text hit /\ resScore r = score hit)
               \/ (isConnected w = false
                   /\ exists c,
                        In c (chunks d) /\ resContent r = content c
                        /\ resFilename r = filename d
                        /\ resScore r = 0.5%float)).
Proof.
  destruct (searchDocuments_run o botId_ query topK w)
    as (emb & w1 & Hgen & w' & Hrun & _).
  exists (searchOutcome o botId_ topK w emb). unfold result.
  rewrite Hrun. split; [reflexivity|].
  intros r Hr. unfold searchOutcome in Hr.
  destruct (negb (isObjectId o botId_) || mongoFails o (mongoOps w)); [destruct Hr|].
  destruct (strlen (processedOf botId_ (documents w)) =? 0); [destruct Hr|].
  assert (Hown : forall d, In d (processedOf botId_ (documents w)) ->
            In d (documents w) /\ botId d = botId_ /\ processed d = true
            /\ (NoDup (List.map _id (documents w)) ->
                forall d', In d' (documents w) -> _id d' = _id d -> d' = d)).
  { intros d Hd. apply In_processedOf in Hd as (Hd & Hb & Hp).
    repeat (split; [assumption|]). intros Hnd d' Hd' Hid.
    exact (NoDup_ids_unique _ d d' Hnd Hd Hd' Hid). }
  destruct (isConnected w) eqn:Hconn.
  - apply In_formatChromaResults in Hr as (hit & d & Hhit & Hd & Hid & Hc & Hs).
    apply In_hitsOf in Hhit as (rows & row & Hq & Hrow & Ht).
    destruct (Hown d Hd) as (H1 & H2 & H3 & H4).
    exists d. repeat (split; [assumption|]). left. split; [reflexivity|].
    exists emb, rows, row, hit. rewrite Hgen. cbn [fst]. auto 10.
  - rewrite fallbackResults_stored in Hr. apply In_slice in Hr.
    apply In_storedChunks in Hr as (d & c & Hd & Hc & H1 & H2 & H3).
    destruct (Hown d Hd) as (H4 & H5 & H6 & H7).
    exists d. repeat (split; [assumption|]). right. split; [reflexivity|].
    exists c. auto.
Qed.

(** With ChromaDB connected and answering with a row of another
    tenant and a row of the ingested handbook, retrieval for [botA]
    returns the one row of its own document. *)
Lemma retrieval_scoped_example :
  NoDup (List.map _id (documents ingestedOnline))
  /\ result (searchDocuments oracle botA (lit "rules") 8 ingestedOnline)
     = inr [ {| resContent := lit "text of the first chunk";
                resScore := 0.75%float;
                resFilename := lit "handbook.pdf" |} ]
  /\ exists d,
       In d (documents ingestedOnline) /\ botId d = botA /\ processed d = true
       /\ _id d = lit "doc0".
Proof.
  assert (Hids : List.map _id (documents ingestedOnline) = [lit "doc0"])
    by (vm_compute; reflexivity).
  assert (Hres : result (searchDocuments oracle botA (lit "rules") 8 ingestedOnline)
                 = inr [ {| resContent := lit "text of the first chunk";
                            resScore := 0.75%float;
                            resFilename := lit "handbook.pdf" |} ])
    by (vm_compute; reflexivity).
  split; [rewrite Hids; apply NoDup_singleton|]. split; [exact Hres|].
  destruct (retrieval_scoped oracle botA (lit "rules") 8 ingestedOnline)
    as (results & Hr & Hall).
  rewrite Hres in Hr. injection Hr as <-.
  destruct (Hall _ (or_introl eq_refl)) as (d & Hd & Hb & Hp & _).
  exists d. repeat (split; [assumption|]).
  apply (in_map _id) in Hd. rewrite Hids in Hd.
  destruct Hd as [Hd|[]]. symmetry. exact Hd.
Defined.

(** C2, as the spec words it, fails when ChromaDB is connected. The
    handbook of [botA] is stored with three chunks, the sixteen nearest
    rows ChromaDB returns all belong to another tenant, nothing is left
    after filtering, and retrieval returns nothing: it does not fall
    back to the stored chunks. *)
Lemma no_fallback_when_connected :
  isConnected ingestedOnline = true
  /\ length (storedChunks (processedOf botA (documents ingestedOnline))) = 3%nat
  /\ (forall queryEmbedding,
        List.filter
          (fun hit => bool_decide
                        (documentId (metadata hit)
                         ∈ List.map _id (processedOf botA (documents ingestedOnline))))
          (hitsOf (chromaQuery crowdedOracle (chromaOps ingestedOnline)
                     queryEmbedding 16))
        = [])
  /\ result (searchDocuments crowdedOracle botA (lit "rules") 8 ingestedOnline)
     = inr [].
Proof.
  split; [vm_compute; reflexivity|]. split; [vm_compute; reflexivity|].
  split; [intros emb; vm_compute; reflexivity|]. vm_compute. reflexivity.
Qed.

(** C2 (amended). When ChromaDB is not connected and MongoDB answers,
    retrieval returns the first [topK] stored chunks of the bot's
    processed documents, in stored order, each with score exactly 0.5,
    and so a non-empty result when there is a stored chunk and [topK]
    is at least 1. When ChromaDB is connected, the result is made of
    the rows it returned, also when none is left after filtering. *)
Theorem retrieval_fallback (o : Oracle) (botId_ query : jsstring) (topK : Z) (w : World) :
  isObjectId o botId_ = true -> mongoFails o (mongoOps w) = false ->
  let docs := processedOf botId_ (documents w) in
  let r := searchDocuments o botId_ query topK w in
  (isConnected w = false ->
     result r = inr (slice (storedChunks docs) 0 topK)
     /\ (0 <= topK -> result r = inr (take (Z.to_nat topK) (storedChunks docs)))
     /\ Forall (fun hit => resScore hit = 0.5%float) (slice (storedChunks docs) 0 topK)
     /\ (1 <= topK -> storedChunks docs <> [] -> result r <> inr []))
  /\ (isConnected w = true ->
      exists queryEmbedding,
        result (generateEmbedding o query w) = inr queryEmbedding
        /\ result r =
             inr (if strlen docs =? 0 then []
                  else formatChromaResults docs
                         (hitsOf (chromaQuery o (chromaOps w) queryEmbedding (topK * 2)))
                         topK)).
Proof.
  intros Hid Hmongo docs r.
  destruct (searchDocuments_run o botId_ query topK w)
    as (emb & w1 & Hgen & w' & Hrun & _).
  unfold r, result. rewrite Hrun. cbn [fst]. unfold searchOutcome. fold docs.
  clear r Hrun. clearbody docs.
  rewrite Hid, Hmongo. cbn [negb orb]. split.
  - intros ->.
    assert (Hres : (if strlen docs =? 0 then [] else fallbackResults docs topK)
                   = slice (storedChunks docs) 0 topK).
    { rewrite fallbackResults_stored.
      destruct (Z.eqb_spec (strlen docs) 0) as [Hz|]; [|reflexivity].
      destruct docs as [|d docs]; [|unfold strlen in Hz; cbn [length] in Hz; lia].
      unfold storedChunks, slice. cbn [List.flat_map].
      rewrite drop_nil, take_nil. reflexivity. }
    rewrite Hres. split; [reflexivity|]. split; [|split].
    + intros Hk. rewrite slice_prefix by exact Hk. reflexivity.
    + apply List.Forall_forall. intros hit Hhit. apply In_slice in Hhit.
      apply In_storedChunks in Hhit as (d & c & _ & _ & _ & _ & Hs). exact Hs.
    + intros Hk Hne. rewrite slice_prefix by lia.
      destruct (storedChunks docs) as [|c cs]; [congruence|].
      replace (Z.to_nat topK) with (S (Z.to_nat (topK - 1))) by lia.
      discriminate.
  - intros ->. exists emb. rewrite Hgen. split; reflexivity.
Qed.

(** With ChromaDB not connected, retrieval with [topK = 2] returns the
    first two of the three stored chunks of the handbook. *)
Lemma retrieval_fallback_example :
  isConnected ingestedOffline = false
  /\ length (storedChunks (processedOf botA (documents ingestedOffline))) = 3%nat
  /\ result (searchDocuments oracle botA (lit "rules") 2 ingestedOffline)
     = inr (take 2 (storedChunks (processedOf botA (documents ingestedOffline)))).
Proof.
  split; [vm_compute; reflexivity|]. split; [vm_compute; reflexivity|].
  pose proof (retrieval_fallback oracle botA (lit "rules") 2 ingestedOffline
                eq_refl eq_refl) as [Hoff _].
  destruct (Hoff ltac:(vm_compute; reflexivity)) as (_ & Htake & _).
  apply Htake. lia.
Defined.

End RetrievalClaims.

(* ===================================================================== *)
(** ** Ingestion and deletion *)
(* ===================================================================== *)

Module IngestionClaims.
Import Service EffFacts StoreFacts IngestionFacts DeletionFacts Examples.

Lemma filter_isAddEmbeddings_embeddings (es : list Event) :
  List.filter isStoreEvent es = [] -> List.filter isAddEmbeddings es = [].
Proof.
  induction es as [|e es IH]; [reflexivity|]. cbn [List.filter].
  destruct e; cbn [isStoreEvent isAddEmbeddings]; try discriminate; exact IH.
Qed.

Lemma In_not_store (es : list Event) (e : Event) :
  List.filter isStoreEvent es = [] -> In e es -> isStoreEvent e = false.
Proof.
  intros Hf He. destruct (isStoreEvent e) eqn:Hs; [|reflexivity].
  assert (Hin : In e (List.filter isStoreEvent es)) by (apply filter_In; auto).
  rewrite Hf in Hin. destruct Hin.
Qed.

(** How [processDocument] ends once the PDF has given a text. *)
Lemma processDocument_run (o : Oracle) (botId_ userId_ filename_ : jsstring)
    (buffer : list N) (fileType_ text_ : jsstring) (w : World) :
  pdfParse o buffer = Some text_ -> isBlank text_ = false ->
  let input := ingestInput botId_ userId_ filename_ fileType_ (strlen buffer)
                 (lit "pdf") (chunkText o text_) in
  let r := processDocument o botId_ userId_ filename_ buffer fileType_ w in
  exists es w1,
    List.filter isStoreEvent es = []
    /\ documents w1 = documents w /\ mongoOps w1 = mongoOps w
    /\ ((exists e,
           result r = inl e
           /\ validates o input && inserts o input w1 = false
           /\ documents (after r) = documents w
           /\ newEvents w (after r) = es ++ [EvDocumentCreate false])
        \/ (result r = inr (_id (newDocument o input w1))
            /\ validates o input && inserts o input w1 = true
            /\ documents (after r) = documents w ++ [newDocument o input w1]
            /\ newEvents w (after r)
               = es ++ [EvDocumentCreate true;
                        EvAddEmbeddings (_id (newDocument o input w1))])).
Proof.
  intros Hpdf Hblank input r. unfold r, result, after.
  rewrite processDocument_unfold, Hpdf, Hblank. cbv zeta.
  destruct (ingestTail_run o (embedBatches o (chunkText o text_)
                                (length (chunkText o text_)) 0 [])
              input (chunkText o text_) (lit "pdf") (awaited o w)
              (embedBatches_mapM o _ _))
    as (es & w1 & _ & Hs & Hd & Hm & Hcases).
  exists es, w1. split; [exact Hs|]. split; [exact Hd|]. split; [exact Hm|].
  fold input.
  destruct Hcases as [(e & w' & -> & Hv & Hdocs & Ht)|(w' & -> & Hv & Hdocs & Ht)];
    cbn [fst snd]; [left; exists e|right]; repeat (split; [assumption || reflexivity|]);
    apply newEvents_app; exact Ht.
Qed.

(** C6. When the PDF gives no text, or the write to MongoDB fails,
    [processDocument] throws, the collection of documents is what it
    was, and [addEmbeddings] has not been called. In every run,
    [addEmbeddings] is called only after the record has been written,
    with the [_id] of that record. *)
Theorem ingestion_failure_leaves_nothing (o : Oracle)
    (botId_ userId_ filename_ : jsstring) (buffer : list N) (fileType_ : jsstring)
    (w : World) :
  let r := processDocument o botId_ userId_ filename_ buffer fileType_ w in
  (pdfParse o buffer = None ->
     result r = inl (newError (lit "Failed to parse PDF"))
     /\ documents (after r) = documents w /\ newEvents w (after r) = [])
  /\ (forall text_,
        pdfParse o buffer = Some text_ -> isBlank text_ = true ->
        result r = inl (newError (lit "No text content found in PDF"))
        /\ documents (after r) = documents w /\ newEvents w (after r) = [])
  /\ (forall text_,
        pdfParse o buffer = Some text_ -> isBlank text_ = false ->
        validates o (ingestInput botId_ userId_ filename_ fileType_ (strlen buffer)
                       (lit "pdf") (chunkText o text_)) = false
        \/ mongoFails o (mongoOps w) = true
        \/ newObjectId o (mongoOps w) ∈ List.map _id (documents w) ->
        (exists e, result r = inl e)
        /\ documents (after r) = documents w
        /\ List.filter isAddEmbeddings (newEvents w (after r)) = [])
  /\ (forall e,
        result r = inl e ->
        documents (after r) = documents w
        /\ List.filter isAddEmbeddings (newEvents w (after r)) = [])
  /\ (forall id_,
        In (EvAddEmbeddings id_) (newEvents w (after r)) ->
        result r = inr id_
        /\ exists doc pre,
             documents (after r) = documents w ++ [doc] /\ _id doc = id_
             /\ newEvents w (after r)
                = pre ++ [EvDocumentCreate true; EvAddEmbeddings id_]
             /\ List.filter isAddEmbeddings pre = []).
Proof.
  cbv zeta.
  assert (Hnone : pdfParse o buffer = None ->
            processDocument o botId_ userId_ filename_ buffer fileType_ w
            = (inl (newError (lit "Failed to parse PDF")), awaited o w)).
  { intros H. rewrite processDocument_unfold, H. reflexivity. }
  assert (Hblank : forall text_, pdfParse o buffer = Some text_ -> isBlank text_ = true ->
            processDocument o botId_ userId_ filename_ buffer fileType_ w
            = (inl (newError (lit "No text content found in PDF")), awaited o w)).
  { intros text_ H Hb. rewrite processDocument_unfold, H, Hb. reflexivity. }
  assert (Hquiet : newEvents w (awaited o w) = []).
  { apply newEvents_app. unfold awaited. simplWorld. rewrite app_nil_r. reflexivity. }
  split; [|split; [|split; [|split]]].
  - intros H. unfold result, after. rewrite (Hnone H). cbn [fst snd]. auto.
  - intros text_ H Hb. unfold result, after. rewrite (Hblank text_ H Hb).
    cbn [fst snd]. auto.
  - intros text_ Hpdf Hb Hfail.
    destruct (processDocument_run o botId_ userId_ filename_ buffer fileType_ text_ w
                Hpdf Hb) as (es & w1 & Hs & Hd & Hm & Hcases). cbv zeta in Hcases.
    destruct Hcases as [(e & Hr & _ & Hdocs & Hev)|(_ & Hv & _)].
    + split; [eauto|]. split; [exact Hdocs|]. rewrite Hev, List.filter_app.
      rewrite (filter_isAddEmbeddings_embeddings es Hs). reflexivity.
    + exfalso. apply andb_prop in Hv as [Hv Hi]. unfold inserts in Hi.
      apply negb_true_iff, orb_false_iff in Hi as [Hi1 Hi2].
      cbn [newDocument _id] in Hi2. rewrite Hm in Hi1, Hi2. rewrite Hd in Hi2.
      apply bool_decide_eq_false in Hi2.
      destruct Hfail as [H|[H|H]]; [congruence|congruence|contradiction].
  - intros e He.
    destruct (pdfParse o buffer) as [text_|] eqn:Hpdf.
    + destruct (isBlank text_) eqn:Hb.
      * unfold after. rewrite (Hblank text_ eq_refl Hb). cbn [snd].
        rewrite Hquiet. auto.
      * destruct (processDocument_run o botId_ userId_ filename_ buffer fileType_
                    text_ w Hpdf Hb) as (es & w1 & Hs & Hd & Hm & Hcases).
        cbv zeta in Hcases.
        destruct Hcases as [(e' & _ & _ & Hdocs & Hev)|(Hr & _)]; [|congruence].
        split; [exact Hdocs|]. rewrite Hev, List.filter_app.
        rewrite (filter_isAddEmbeddings_embeddings es Hs). reflexivity.
    + unfold after. rewrite (Hnone eq_refl). cbn [snd]. rewrite Hquiet. auto.
  - intros id_ Hin.
    destruct (pdfParse o buffer) as [text_|] eqn:Hpdf.
    + destruct (isBlank text_) eqn:Hb.
      * unfold after in Hin. rewrite (Hblank text_ eq_refl Hb) in Hin.
        cbn [snd] in Hin. rewrite Hquiet in Hin. destruct Hin.
      * destruct (processDocument_run o botId_ userId_ filename_ buffer fileType_
                    text_ w Hpdf Hb) as (es & w1 & Hs & Hd & Hm & Hcases).
        cbv zeta in Hcases.
        destruct Hcases as [(e' & _ & _ & _ & Hev)|(Hr & _ & Hdocs & Hev)];
          rewrite Hev in Hin; apply in_app_or in Hin as [Hin|Hin];
          try (apply (In_not_store es _ Hs) in Hin; discriminate Hin).
        -- destruct Hin as [Hin|[]]. discriminate Hin.
        -- destruct Hin as [Hin|[Hin|[]]]; [discriminate Hin|].
           injection Hin as <-. split; [exact Hr|].
           eexists _, es. split; [exact Hdocs|]. split; [reflexivity|].
           split; [exact Hev|]. exact (filter_isAddEmbeddings_embeddings es Hs).
    + unfold after in Hin. rewrite (Hnone eq_refl) in Hin. cbn [snd] in Hin.
      rewrite Hquiet in Hin. destruct Hin.
Qed.

(** An empty PDF, and MongoDB down during the ingestion of the
    handbook. *)
Lemma ingestion_failure_example :
  result (processDocument oracle botA alice (lit "empty.pdf") [] (lit "pdf") fresh)
    = inl (newError (lit "Failed to parse PDF"))
  /\ (exists e, result (processDocument mongoDownOracle botA alice (lit "handbook.pdf")
                          handbook (lit "pdf") fresh) = inl e)
  /\ documents (after (processDocument mongoDownOracle botA alice (lit "handbook.pdf")
                         handbook (lit "pdf") fresh)) = documents fresh.
Proof.
  split.
  - pose proof (ingestion_failure_leaves_nothing oracle botA alice (lit "empty.pdf") []
                  (lit "pdf") fresh) as (H & _).
    apply H. reflexivity.
  - pose proof (ingestion_failure_leaves_nothing mongoDownOracle botA alice
                  (lit "handbook.pdf") handbook (lit "pdf") fresh) as (_ & _ & H & _).
    cbv zeta in H.
    destruct (H handbook) as (He & Hd & _);
      [reflexivity|vm_compute; reflexivity|right; left; reflexivity|].
    split; assumption.
Defined.

(** C9. The record a successful ingestion creates is marked
    processed, [totalChunks] is the number of its chunks, the chunks are
    those of the text with [chunkIndex] 0, 1, ... in order, and the
    record is written after [generateEmbedding] has been called for
    every chunk, in order. *)
Theorem ingested_record_complete (o : Oracle)
    (botId_ userId_ filename_ fileType_ : jsstring) (w : World) :
  (forall buffer id_,
     result (processDocument o botId_ userId_ filename_ buffer fileType_ w) = inr id_ ->
     exists text_,
       pdfParse o buffer = Some text_
       /\ ingested o botId_ userId_ text_ id_ w
            (after (processDocument o botId_ userId_ filename_ buffer fileType_ w)))
  /\ (forall text_ id_,
        result (processDocumentFromText o botId_ userId_ filename_ text_ fileType_ w)
          = inr id_ ->
        ingested o botId_ userId_ text_ id_ w
          (after (processDocumentFromText o botId_ userId_ filename_ text_ fileType_ w))).
Proof.
  split.
  - intros buffer id_. rewrite processDocument_unfold.
    destruct (pdfParse o buffer) as [text_|]; [|discriminate].
    destruct (isBlank text_); [discriminate|]. cbv zeta. intros Hres.
    exists text_. split; [reflexivity|].
    apply (ingestTail_ingested o _ botId_ userId_ filename_ fileType_ (lit "pdf")
             text_ (strlen buffer) w (awaited o w) id_);
      [apply embedBatches_mapM|reflexivity|reflexivity|exact Hres].
  - intros text_ id_. rewrite processDocumentFromText_unfold.
    destruct (isBlank text_); [discriminate|]. cbv zeta. intros Hres.
    apply (ingestTail_ingested o _ botId_ userId_ filename_ fileType_ (lit "url")
             text_ (strlen text_) w w id_);
      [reflexivity|reflexivity|reflexivity|exact Hres].
Qed.

(** The handbook of 2500 characters: three chunks, three embeddings,
    then the record, then the vector index. *)
Lemma ingested_record_example :
  result ingestion = inr (lit "doc0")
  /\ ingested oracle botA alice handbook (lit "doc0") fresh (after ingestion)
  /\ List.map (fun d => (totalChunks d, processed d, List.map chunkIndex (chunks d)))
              (documents (after ingestion))
     = [(3, true, [0; 1; 2])].
Proof.
  unfold ingestion.
  assert (Hres : result (processDocument oracle botA alice (lit "handbook.pdf") handbook
                           (lit "pdf") fresh) = inr (lit "doc0"))
    by (vm_compute; reflexivity).
  split; [exact Hres|]. split; [|vm_compute; reflexivity].
  destruct (ingested_record_complete oracle botA alice (lit "handbook.pdf") (lit "pdf")
              fresh) as (Hpdf & _).
  destruct (Hpdf handbook (lit "doc0") Hres) as (text_ & Htext & Hing).
  cbn [pdfParse oracle oracleWith] in Htext.
  change (isEmpty handbook) with false in Htext. cbv iota in Htext.
  injection Htext as <-. exact Hing.
Defined.

Lemma removeFirst_None_all (p : IDocument -> bool) (l : list IDocument) :
  removeFirst p l = None -> forall x, In x l -> p x = false.
Proof.
  induction l as [|d l IH]; intros Hnone x Hx; [destruct Hx|].
  cbn [removeFirst] in Hnone. destruct (p d) eqn:Hd; [discriminate|].
  destruct (removeFirst p l) as [rest|]; [discriminate|].
  destruct Hx as [<-|Hx]; [exact Hd|exact (IH eq_refl x Hx)].
Qed.

(** C10. [deleteDocument] never throws. When both ids cast and
    MongoDB answers, and a record is stored whose [_id] and [userId]
    both match, it removes the first such record and returns [true];
    in every other case it removes nothing and returns [false]. So it
    returns [true] exactly when a record was removed;
    [chromaService.deleteDocument] is called exactly then; and when
    MongoDB fails (or an id does not cast) the result is [false] and the
    collection is what it was. *)
Theorem deleteDocument_total (o : Oracle) (documentId_ userId_ : jsstring) (w : World) :
  let r := deleteDocument o documentId_ userId_ w in
  exists removed : bool,
    result r = inr removed
    /\ (removed = true ->
        exists before d rest,
          documents w = before ++ d :: rest
          /\ _id d = documentId_ /\ userId d = userId_
          /\ (forall x, In x before -> ~ (_id x = documentId_ /\ userId x = userId_))
          /\ documents (after r) = before ++ rest)
    /\ (removed = false -> documents (after r) = documents w)
    /\ (removed = true <-> length (documents (after r)) < length (documents w))%nat
    /\ List.filter isDeleteEmbeddings (newEvents w (after r))
       = (if removed then [EvDeleteEmbeddings documentId_] else [])
    /\ (isObjectId o documentId_ && isObjectId o userId_ = false
        \/ mongoFails o (mongoOps w) = true ->
        removed = false /\ documents (after r) = documents w)
    /\ (removed = true <->
        isObjectId o documentId_ && isObjectId o userId_ = true
        /\ mongoFails o (mongoOps w) = false
        /\ exists d, In d (documents w) /\ _id d = documentId_ /\ userId d = userId_).
Proof.
  cbv zeta. unfold result, after.
  destruct (deleteDocument_run o documentId_ userId_ w) as (w' & Hrun). cbv zeta in Hrun.
  destruct (isObjectId o documentId_ && isObjectId o userId_) eqn:Hcast;
    cbn [negb orb] in Hrun.
  - destruct (mongoFails o (mongoOps w)) eqn:Hfail.
    + destruct Hrun as (-> & Hd & Ht). exists false. cbn [fst snd].
      rewrite (newEvents_app _ _ _ Ht), Hd.
      split; [reflexivity|]. split; [discriminate|]. split; [reflexivity|].
      split; [split; [discriminate|lia]|]. split; [reflexivity|].
      split; [auto|]. split; [discriminate|]. intros (_ & H & _). discriminate H.
    + destruct (removeFirst _ (documents w)) as [remaining|] eqn:Hrem.
      * destruct Hrun as (-> & Hd & Ht). exists true. cbn [fst snd].
        rewrite (newEvents_app _ _ _ Ht), Hd.
        apply removeFirst_Some in Hrem as (before & d & rest & Hw & Hp & Hb & ->).
        apply andb_prop in Hp as [Hp1 Hp2].
        apply bool_decide_eq_true in Hp1, Hp2.
        split; [reflexivity|].
        split; [|split; [discriminate|split; [|split; [|split]]]].
        -- intros _. exists before, d, rest. repeat (split; [assumption|]).
           split; [|reflexivity]. intros x Hx [Hx1 Hx2].
           specialize (Hb x Hx). apply andb_false_iff in Hb as [Hb|Hb];
             apply bool_decide_eq_false in Hb; contradiction.
        -- rewrite Hw, !length_app. cbn [length]. split; [lia|reflexivity].
        -- reflexivity.
        -- intros [H|H]; discriminate H.
        -- split; [|reflexivity]. intros _. split; [reflexivity|].
           split; [reflexivity|]. exists d. rewrite Hw.
           split; [apply in_or_app; right; left; reflexivity|]. auto.
      * destruct Hrun as (-> & Hd & Ht). exists false. cbn [fst snd].
        rewrite (newEvents_app _ _ _ Ht), Hd.
        split; [reflexivity|]. split; [discriminate|]. split; [reflexivity|].
        split; [split; [discriminate|lia]|]. split; [reflexivity|].
        split; [intros [H|H]; discriminate H|]. split; [discriminate|].
        intros (_ & _ & d & Hin & Hid & Hu). exfalso.
        pose proof (removeFirst_None_all _ _ Hrem d Hin) as Hno.
        cbv beta in Hno. rewrite Hid, Hu, !bool_decide_eq_true_2 in Hno by reflexivity.
        discriminate Hno.
  - destruct Hrun as (-> & Hd & Ht). exists false. cbn [fst snd].
    rewrite (newEvents_app _ _ _ Ht), Hd.
    split; [reflexivity|]. split; [discriminate|]. split; [reflexivity|].
    split; [split; [discriminate|lia]|]. split; [reflexivity|].
    split; [auto|]. split; [discriminate|]. intros (H & _). discriminate H.
Qed.

(** The owner deletes the handbook; another user cannot. *)
Lemma deleteDocument_example :
  result (deleteDocument oracle (lit "doc0") alice ingestedOnline) = inr true
  /\ documents (after (deleteDocument oracle (lit "doc0") alice ingestedOnline)) = []
  /\ result (deleteDocument oracle (lit "doc0") (lit "mallory") ingestedOnline)
     = inr false.
Proof.
  destruct (deleteDocument_total oracle (lit "doc0") alice ingestedOnline)
    as (removed & Hr & Hrem & _).
  assert (Htrue : removed = true).
  { assert (H : result (deleteDocument oracle (lit "doc0") alice ingestedOnline)
                = inr true) by (vm_compute; reflexivity).
    rewrite H in Hr. injection Hr as <-. reflexivity. }
  subst removed. split; [exact Hr|]. split; [vm_compute; reflexivity|].
  vm_compute. reflexivity.
Defined.

End IngestionClaims.
(* ===================================================================== *)
(** ** More about splitting, cleaning and chunking *)
(* ===================================================================== *)

Module TextFacts.
Import Splitter Chunker More SplitterFacts JSFacts ChunkerFacts.

Lemma splitLoop_stuck (chunkSize : Z) (text_ : jsstring) (budget : nat) :
  0 < chunkSize -> chunkSize < strlen text_ ->
  forall (acc : list jsstring) (it : nat),
    splitLoop chunkSize chunkSize text_ budget 0 acc it =
      (acc ++ repeat (slice text_ 0 chunkSize) budget, (it + budget)%nat).
Proof.
  intros Hpos Hlen. induction budget as [|b IH]; intros acc it.
  - cbn [splitLoop repeat]. rewrite app_nil_r, Nat.add_0_r. reflexivity.
  - cbn [splitLoop].
    destruct (Z.ltb_spec 0 (strlen text_)) as [_|]; [|lia]. cbn [negb].
    rewrite Z.add_0_l, (Z.min_l chunkSize) by lia.
    rewrite strlen_slice_inside by lia.
    destruct (Z.ltb_spec 0 (chunkSize - 0)) as [_|]; [|lia].
    rewrite Z.sub_diag.
    destruct (Z.leb_spec 0 0) as [_|]; [|lia].
    destruct (Z.ltb_spec chunkSize (strlen text_)) as [_|]; [|lia]. cbn [andb].
    destruct (Z.geb_spec chunkSize (strlen text_)) as [|_]; [lia|].
    rewrite andb_false_r, IH. cbn [repeat].
    rewrite <- app_assoc. cbn [app]. f_equal. lia.
Qed.

Lemma fallbackLoop_running (text_ : jsstring) (budget : nat) :
  forall (start : Z) (chunks_ : list jsstring),
    start < strlen text_ -> fallbackLoop text_ budget start chunks_ = None.
Proof.
  induction budget as [|b IH]; intros start chunks_ Hstart; [reflexivity|].
  cbn [fallbackLoop].
  destruct (Z.ltb_spec start (strlen text_)) as [_|]; [|lia]. cbn [negb].
  destruct (Z.geb_spec (Z.min (start + 1000) (strlen text_) - 100) (strlen text_))
    as [|_]; [lia|].
  apply IH. lia.
Qed.

Lemma replaceWsRuns_SP_no_other_space (s : jsstring) :
  forall inRun c,
    In c (replaceWsRuns [SP] inRun s) -> isWhitespace c = true -> c = SP.
Proof.
  induction s as [|d s IH]; intros inRun c; [intros []|].
  cbn [replaceWsRuns]. destruct (isWhitespace d) eqn:Hd.
  - intros Hin Hc. apply in_app_or in Hin as [Hin|Hin]; [|exact (IH _ _ Hin Hc)].
    destruct inRun; [destruct Hin|]. destruct Hin as [<-|[]]. reflexivity.
  - intros [<-|Hin] Hc; [congruence|exact (IH _ _ Hin Hc)].
Qed.

Lemma limitNewlines_without_LF (s : jsstring) :
  (forall c, In c s -> c <> LF) -> limitNewlines 0 s = s.
Proof.
  induction s as [|c s IH]; intros Hno; [reflexivity|].
  cbn [limitNewlines].
  destruct (N.eqb_spec c LF) as [->|_]; [exfalso; exact (Hno LF (or_introl eq_refl) eq_refl)|].
  cbn [flushNewlines Nat.min repeat app]. f_equal. apply IH.
  intros d Hd. apply Hno. right. exact Hd.
Qed.

Lemma In_trimStart (s : jsstring) (c : N) : In c (trimStart s) -> In c s.
Proof.
  induction s as [|d s IH]; [intros []|]. cbn [trimStart].
  destruct (isWhitespace d); [right; auto|auto].
Qed.

Lemma In_trim (s : jsstring) (c : N) : In c (trim s) -> In c s.
Proof.
  unfold trim, trimEnd. rewrite <- in_rev. intros H.
  apply In_trimStart in H. rewrite <- in_rev in H. apply In_trimStart. exact H.
Qed.

(** After [replace(/\s+/g, ' ')] no line feed is left, so the second
    replacement, [replace(/\n{3,}/g, '\n\n')], changes nothing. *)
Lemma cleanText_collapsed (text_ : jsstring) :
  cleanText text_ = trim (replaceWsRuns [SP] false text_).
Proof.
  unfold cleanText. rewrite limitNewlines_without_LF; [reflexivity|].
  intros c Hc ->.
  pose proof (replaceWsRuns_SP_no_other_space text_ false LF Hc eq_refl) as H.
  discriminate H.
Qed.

Lemma length_trimStart (s : jsstring) : (length (trimStart s) <= length s)%nat.
Proof.
  induction s as [|c s IH]; [reflexivity|]. cbn [trimStart].
  destruct (isWhitespace c); cbn [length]; lia.
Qed.

Lemma length_trim (s : jsstring) : (length (trim s) <= length s)%nat.
Proof.
  unfold trim, trimEnd. rewrite length_rev.
  etransitivity; [apply length_trimStart|]. rewrite length_rev.
  apply length_trimStart.
Qed.

Lemma length_replaceWsRuns_SP (s : jsstring) :
  forall inRun, (length (replaceWsRuns [SP] inRun s) <= length s)%nat.
Proof.
  induction s as [|c s IH]; intros inRun; [reflexivity|].
  cbn [replaceWsRuns]. destruct (isWhitespace c).
  - rewrite length_app. specialize (IH true). destruct inRun; cbn [length]; lia.
  - cbn [length]. specialize (IH false). lia.
Qed.

Lemma strlen_cleanText (text_ : jsstring) : strlen (cleanText text_) <= strlen text_.
Proof.
  rewrite cleanText_collapsed.
  unfold strlen. pose proof (length_trim (replaceWsRuns [SP] false text_)).
  pose proof (length_replaceWsRuns_SP text_ false). lia.
Qed.

Lemma trim_cleanText (text_ : jsstring) : trim (cleanText text_) = cleanText text_.
Proof. unfold cleanText. apply trim_idempotent. Qed.

(** A text of at most 1000 characters is one window. *)
Lemma splitText_fits (text_ : jsstring) :
  strlen text_ <= 1000 ->
  splitText 1000 100 text_ = if strlen text_ <=? 0 then [] else [text_].
Proof.
  intros Hfits. unfold splitText. rewrite splitRun_windows by lia. cbn [fst].
  unfold windowCount.
  destruct (Z.leb_spec (strlen text_) 0) as [Hzero|Hpos].
  - rewrite Nat.min_0_r. reflexivity.
  - destruct (Z.leb_spec (strlen text_) 1000) as [_|]; [|lia].
    change (Nat.min maxIterations 1) with 1%nat. cbn [seq List.map].
    f_equal. unfold window. cbn [Z.of_nat Z.mul].
    rewrite Z.add_0_l, Z.min_r by lia.
    rewrite slice_inside by lia. rewrite Z.sub_0_r. cbn [Z.to_nat drop].
    apply take_ge. unfold strlen. lia.
Qed.

Lemma dedupe_short (toLowerCase : jsstring -> jsstring) (c : jsstring) :
  strlen c < 50 -> dedupe toLowerCase [c] = [].
Proof.
  intros Hshort. unfold dedupe. cbn [dedupeLoop].
  pose proof (length_trim c) as Hle.
  destruct (Z.ltb_spec (strlen (trim c)) 50) as [_|Hge]; [reflexivity|].
  unfold strlen in *. lia.
Qed.

Lemma chunkText_short_nil (toLowerCase : jsstring -> jsstring) (text_ : jsstring) :
  strlen text_ < 50 -> chunkText toLowerCase text_ = [].
Proof.
  intros Hshort. pose proof (strlen_cleanText text_) as Hclean.
  unfold chunkText. rewrite splitText_fits by lia.
  destruct (strlen (cleanText text_) <=? 0); [reflexivity|].
  apply dedupe_short. lia.
Qed.

End TextFacts.

(* ===================================================================== *)
(** ** Further properties: splitting, cleaning and chunking *)
(* ===================================================================== *)

Module TextExtras.
Import Splitter Chunker More SplitterFacts JSFacts ChunkerFacts TextFacts MoreExamples.

(** *** The splitter without forward progress *)

(** X1. When the overlap equals the chunk size the window does not
    advance, and nothing forces it to: on a text longer than one chunk
    the loop runs into its cap and returns the first chunk 1000 times. *)
Theorem splitText_no_progress (chunkSize : Z) (text_ : jsstring) :
  0 < chunkSize -> chunkSize < strlen text_ ->
  splitText chunkSize chunkSize text_
    = repeat (slice text_ 0 chunkSize) maxIterations
  /\ iterations chunkSize chunkSize text_ = maxIterations.
Proof.
  intros Hpos Hlen. unfold splitText, iterations, splitRun.
  rewrite (splitLoop_stuck chunkSize text_ maxIterations Hpos Hlen).
  split; reflexivity.
Qed.

Lemma splitText_no_progress_example :
  splitText 2 2 (lit "abc") = repeat (lit "ab") maxIterations.
Proof.
  destruct (splitText_no_progress 2 (lit "abc")) as [H _];
    [lia|vm_compute; reflexivity|].
  exact H.
Defined.

(** *** The fallback chunker *)

(** X2. [fallbackChunking] returns on the empty text only: on any other
    text its loop never ends, because [start = end - overlap] stays
    below the length of the text. *)
Theorem fallbackChunking_diverges (text_ : jsstring) :
  (text_ = [] -> forall budget, fallbackChunking text_ (S budget) = Some [])
  /\ (text_ <> [] -> forall budget, fallbackChunking text_ budget = None).
Proof.
  unfold fallbackChunking. split.
  - intros -> budget. reflexivity.
  - intros Hne budget. apply fallbackLoop_running.
    destruct text_; [congruence|]. unfold strlen. cbn [length]. lia.
Qed.

Lemma fallbackChunking_diverges_example :
  fallbackChunking (lit "a") 5 = None.
Proof.
  destruct (fallbackChunking_diverges (lit "a")) as [_ H].
  apply H. discriminate.
Defined.

(** *** The cleaning of the text *)

(** X3. After [replace(/\s+/g, ' ')] no line feed is left, so the second
    replacement, [replace(/\n{3,}/g, '\n\n')], changes nothing: the
    cleaned text is the text with every run of white space made one
    space, trimmed; its only white space is the space, it has no line
    feed, and it is not longer than the text. *)
Theorem cleanText_loses_newlines (text_ : jsstring) :
  cleanText text_ = trim (replaceWsRuns [SP] false text_)
  /\ (forall c, In c (cleanText text_) -> isWhitespace c = true -> c = SP)
  /\ ~ In LF (cleanText text_)
  /\ strlen (cleanText text_) <= strlen text_.
Proof.
  assert (Hsp : forall c, In c (cleanText text_) -> isWhitespace c = true -> c = SP).
  { rewrite cleanText_collapsed. intros c Hc. apply In_trim in Hc.
    exact (replaceWsRuns_SP_no_other_space text_ false c Hc). }
  split; [apply cleanText_collapsed|]. split; [exact Hsp|]. split.
  - intros H. pose proof (Hsp LF H eq_refl) as Heq. discriminate Heq.
  - apply strlen_cleanText.
Qed.

(** *** Texts of one chunk *)

(** X4. A text whose cleaned form has at most 1000 characters gives one
    chunk, the cleaned text itself, or no chunk at all when the cleaned
    text has fewer than 50 characters. *)
Theorem chunkText_small (toLowerCase : jsstring -> jsstring) (text_ : jsstring) :
  strlen (cleanText text_) <= 1000 ->
  chunkText toLowerCase text_
  = if strlen (cleanText text_) <? 50 then [] else [cleanText text_].
Proof.
  intros Hfits. unfold chunkText. rewrite splitText_fits by exact Hfits.
  pose proof (trim_cleanText text_) as Htrim.
  set (cleaned := cleanText text_) in *.
  destruct (Z.leb_spec (strlen cleaned) 0) as [Hzero|Hpos].
  - destruct (Z.ltb_spec (strlen cleaned) 50) as [_|]; [reflexivity|lia].
  - unfold dedupe. cbn [dedupeLoop]. rewrite Htrim.
    destruct (strlen cleaned <? 50); [reflexivity|].
    destruct (decide (signature toLowerCase cleaned ∈ (∅ : gset jsstring)))
      as [Hin|_]; [|reflexivity].
    exfalso. revert Hin. apply not_elem_of_empty.
Qed.

Lemma chunkText_small_example :
  chunkText asciiLower leaflet = [leaflet] /\ chunkText asciiLower note = [].
Proof.
  split.
  - rewrite (chunkText_small asciiLower leaflet) by (vm_compute; discriminate).
    vm_compute. reflexivity.
  - rewrite (chunkText_small asciiLower note) by (vm_compute; discriminate).
    vm_compute. reflexivity.
Defined.

End TextExtras.

(* ===================================================================== *)
(** ** Further properties: the embedding provider *)
(* ===================================================================== *)

Module EmbeddingExtras.
Import Service More EffFacts EmbeddingFacts Examples MoreExamples.

(** *** The seconds until the quota resets *)

Lemma ceilSeconds_bounds (x : Z) :
  1000 * (ceilSeconds x - 1) < x <= 1000 * ceilSeconds x.
Proof.
  unfold ceilSeconds.
  pose proof (Z.div_mod (- x) 1000 ltac:(lia)) as Hdm.
  pose proof (Z.mod_pos_bound (- x) 1000 ltac:(lia)) as Hr.
  lia.
Qed.

(** X5. [getQuotaResetTime] is 0 while the flag is down. While
    [isQuotaExceeded] holds it is the number of seconds to wait, rounded
    up, so at least 1. Once the reset time has passed and the flag is
    still up, [isQuotaExceeded] is false and [getQuotaResetTime] is zero
    or negative. *)
Theorem getQuotaResetTime_seconds (w : World) :
  (quotaExceeded (service w) = false -> getQuotaResetTime w = Num 0)
  /\ (isQuotaExceeded w = true ->
      exists reset seconds,
        quotaResetTime (service w) = Num reset
        /\ getQuotaResetTime w = Num seconds
        /\ 1 <= seconds
        /\ 1000 * (seconds - 1) < reset - now w <= 1000 * seconds)
  /\ (forall reset,
        quotaExceeded (service w) = true ->
        quotaResetTime (service w) = Num reset -> reset <= now w ->
        isQuotaExceeded w = false
        /\ exists seconds, getQuotaResetTime w = Num seconds /\ seconds <= 0).
Proof.
  unfold getQuotaResetTime, isQuotaExceeded. split; [|split].
  - intros ->. reflexivity.
  - intros [Hflag Hlt]%andb_prop. rewrite Hflag. cbn [negb].
    destruct (quotaResetTime (service w)) as [reset|]; [|discriminate].
    cbn [lt] in Hlt. apply Z.ltb_lt in Hlt.
    pose proof (ceilSeconds_bounds (reset - now w)).
    exists reset, (ceilSeconds (reset - now w)). repeat split; try lia.
  - intros reset -> -> Hpast. cbn [negb andb lt]. split.
    + apply Z.ltb_ge. exact Hpast.
    + pose proof (ceilSeconds_bounds (reset - now w)).
      eexists. split; [reflexivity|]. lia.
Qed.

(** After the rate-limited call for [beta], 34 seconds remain. *)
Lemma getQuotaResetTime_example :
  isQuotaExceeded afterBeta = true /\ getQuotaResetTime afterBeta = Num 34.
Proof.
  assert (Hq : isQuotaExceeded afterBeta = true) by (vm_compute; reflexivity).
  split; [exact Hq|].
  destruct (getQuotaResetTime_seconds afterBeta) as (_ & H & _).
  destruct (H Hq) as (reset & seconds & Hreset & -> & Hone & Hbounds).
  assert (Hr : quotaResetTime (service afterBeta) = Num 1035010)
    by (vm_compute; reflexivity).
  assert (Hn : now afterBeta = 1001010) by (vm_compute; reflexivity).
  rewrite Hr in Hreset. injection Hreset as <-. rewrite Hn in Hbounds.
  f_equal. lia.
Defined.

(** *** The spacing of upstream calls *)

Lemma answered_spacing (o : Oracle) (text_ : jsstring) (w : World) :
  let wa := answered o text_ w in
  lastEmbeddingCall (service w) + embeddingDelay <= lastEmbeddingCall (service wa)
  /\ lastEmbeddingCall (service wa) <= now wa.
Proof.
  unfold answered, spaced, awaited, embeddingDelay.
  destruct (Z.ltb_spec (now w - lastEmbeddingCall (service w)) 1000); simplWorld; lia.
Qed.

(** X6. A call either does not reach the upstream service, and then
    leaves [lastEmbeddingCall] alone, or it reaches it once, at least
    [embeddingDelay] = 1000 ms after the time recorded for the previous
    upstream call. *)
Theorem upstream_calls_spaced (o : Oracle) (text_ : jsstring) (w : World) :
  let r := generateEmbedding o text_ w in
  (embedCalls (after r) = embedCalls w
   /\ lastEmbeddingCall (service (after r)) = lastEmbeddingCall (service w))
  \/ (embedCalls (after r) = S (embedCalls w)
      /\ lastEmbeddingCall (service w) + embeddingDelay
         <= lastEmbeddingCall (service (after r))
      /\ lastEmbeddingCall (service (after r)) <= now (after r)).
Proof.
  cbv zeta. unfold after.
  pose proof (answered_fields o text_ (entered text_ w)) as Hf.
  pose proof (answered_spacing o text_ (entered text_ w)) as Hs.
  cbv zeta in Hf, Hs. destruct Hf as (_ & _ & _ & _ & _ & He & _).
  destruct Hs as [Hs1 Hs2].
  destruct (generateEmbedding_outcome o text_ w)
    as [v Hc|Hc Hq|v Hc Hq Hg Hv|e Hc Hq Hg Hv]; cbn [snd].
  - left. split; reflexivity.
  - left. split; reflexivity.
  - right. unfold stored. simplWorld. rewrite He. auto.
  - right. unfold drawn. destruct (isRateLimit e); unfold limited; simplWorld;
      rewrite He; auto.
Qed.

(** *** The cache *)

Lemma generateEmbedding_answered (o : Oracle) (text_ : jsstring)
    (values : list float) (w : World) :
  cached w text_ = None -> quotaActive w = false -> genAI (service w) = true ->
  embedContent o (embedCalls w) text_ = EmbedValues values ->
  generateEmbedding o text_ w
  = (inr values, stored text_ values (answered o text_ (entered text_ w))).
Proof.
  intros Hc Hq Hg Hv. rewrite (generateEmbedding_upstream o text_ w Hc Hq Hg).
  cbv zeta. rewrite Hv. reflexivity.
Qed.

Lemma generateEmbedding_failed (o : Oracle) (text_ : jsstring)
    (error : JsError) (w : World) :
  cached w text_ = None -> quotaActive w = false -> genAI (service w) = true ->
  embedContent o (embedCalls w) text_ = EmbedThrows error ->
  generateEmbedding o text_ w
  = (inr (mockVector o (randomCalls w)),
     drawn (if isRateLimit error
            then limited error (answered o text_ (entered text_ w))
            else answered o text_ (entered text_ w))).
Proof.
  intros Hc Hq Hg Hv. rewrite (generateEmbedding_upstream o text_ w Hc Hq Hg).
  cbv zeta. rewrite Hv, onEmbeddingError_run.
  pose proof (answered_fields o text_ (entered text_ w)) as Hf. cbv zeta in Hf.
  destruct Hf as (_ & _ & _ & _ & Hr & _). rewrite Hr.
  change (randomCalls (entered text_ w)) with (randomCalls w).
  destruct (isRateLimit error); reflexivity.
Qed.

(** X7. The cache is keyed by the first 100 characters. Once the upstream
    service has answered for a text, every text with the same first 100
    characters gets that answer, at any later time and whatever the
    quota state, without a call of the upstream service. *)
Theorem cache_keyed_by_prefix (o : Oracle) (text_ other : jsstring)
    (values : list float) (dt : N) (w : World) :
  cached w text_ = None -> quotaActive w = false -> genAI (service w) = true ->
  embedContent o (embedCalls w) text_ = EmbedValues values ->
  substring0 other 100 = substring0 text_ 100 ->
  let w1 := idle dt (after (generateEmbedding o text_ w)) in
  result (generateEmbedding o other w1) = inr values
  /\ embedCalls (after (generateEmbedding o other w1)) = embedCalls w1.
Proof.
  intros Hc Hq Hg Hv Hkey. cbv zeta. unfold result, after.
  rewrite (generateEmbedding_answered o text_ values w Hc Hq Hg Hv). cbn [snd].
  set (w1 := idle dt (stored text_ values (answered o text_ (entered text_ w)))).
  assert (Hhit : cached w1 other = Some values).
  { unfold w1, cached, cacheKey, idle, stored. simplWorld. rewrite Hkey.
    apply lookup_insert_eq. }
  clearbody w1. rewrite (generateEmbedding_hit o other w1 values Hhit).
  cbn [fst snd]. split; [reflexivity|]. unfold entered. simplWorld. reflexivity.
Qed.

(** Two texts that agree on their first 100 characters only. *)
Lemma cache_keyed_by_prefix_example :
  longA <> longB
  /\ result (generateEmbedding oracle longB
               (idle 0 (after (generateEmbedding oracle longA fresh))))
     = inr (repeat 2%float 768).
Proof.
  split; [intros H; apply (f_equal (@length N)) in H; vm_compute in H; discriminate H|].
  apply (cache_keyed_by_prefix oracle longA longB (repeat 2%float 768) 0 fresh);
    vm_compute; reflexivity.
Defined.

(** X8. The cache changes only when the upstream service answers: then
    the answer is stored under the first 100 characters of the text.
    A mock vector is never stored. *)
Theorem cache_grows_on_answers_only (o : Oracle) (text_ : jsstring) (w : World) :
  let r := generateEmbedding o text_ w in
  embeddingCache (service (after r)) = embeddingCache (service w)
  \/ exists values,
       embedContent o (embedCalls w) text_ = EmbedValues values
       /\ result r = inr values
       /\ embeddingCache (service (after r))
          = <[substring0 text_ 100 := values]> (embeddingCache (service w)).
Proof.
  cbv zeta. unfold result, after.
  pose proof (answered_fields o text_ (entered text_ w)) as Hf. cbv zeta in Hf.
  destruct Hf as (_ & _ & _ & _ & _ & _ & _ & _ & Hca & _).
  destruct (generateEmbedding_outcome o text_ w)
    as [v Hc|Hc Hq|v Hc Hq Hg Hv|e Hc Hq Hg Hv]; cbn [fst snd].
  - left. reflexivity.
  - left. reflexivity.
  - right. exists v. split; [exact Hv|]. split; [reflexivity|].
    unfold stored, cacheKey. simplWorld. rewrite Hca. reflexivity.
  - left. unfold drawn. destruct (isRateLimit e); unfold limited; simplWorld;
      exact Hca.
Qed.

Lemma upstream_reached (o : Oracle) (text_ : jsstring) (w : World) :
  cached w text_ = None -> quotaActive w = false -> genAI (service w) = true ->
  embedCalls (after (generateEmbedding o text_ w)) = S (embedCalls w).
Proof.
  intros Hc Hq Hg. unfold after.
  pose proof (answered_fields o text_ (entered text_ w)) as Hf. cbv zeta in Hf.
  destruct Hf as (_ & _ & _ & _ & _ & Hce & _).
  destruct (embedContent o (embedCalls w) text_) as [values|error] eqn:Hreply.
  - rewrite (generateEmbedding_answered o text_ values w Hc Hq Hg Hreply).
    cbn [snd]. unfold stored. simplWorld. exact Hce.
  - rewrite (generateEmbedding_failed o text_ error w Hc Hq Hg Hreply).
    cbn [snd]. unfold drawn.
    destruct (isRateLimit error); unfold limited; simplWorld; exact Hce.
Qed.

(** *** Errors that are no rate limit *)

(** X9. An upstream error that is no rate-limit error is answered with a
    mock vector and leaves the quota flag and the reset time as they
    were. *)
Theorem other_errors_keep_quota (o : Oracle) (text_ : jsstring) (error : JsError)
    (w : World) :
  cached w text_ = None -> quotaActive w = false -> genAI (service w) = true ->
  embedContent o (embedCalls w) text_ = EmbedThrows error ->
  isRateLimit error = false ->
  let r := generateEmbedding o text_ w in
  result r = inr (mockVector o (randomCalls w))
  /\ quotaExceeded (service (after r)) = quotaExceeded (service w)
  /\ quotaResetTime (service (after r)) = quotaResetTime (service w).
Proof.
  intros Hc Hq Hg He Hrl. cbv zeta. unfold result, after.
  rewrite (generateEmbedding_failed o text_ error w Hc Hq Hg He), Hrl.
  pose proof (answered_fields o text_ (entered text_ w)) as Hf. cbv zeta in Hf.
  destruct Hf as (_ & _ & _ & _ & _ & _ & _ & _ & _ & Hqe & Hqr & _).
  cbn [fst snd]. split; [reflexivity|]. unfold drawn. simplWorld.
  rewrite Hqe, Hqr. unfold entered. simplWorld. auto.
Qed.

Lemma other_errors_keep_quota_example :
  result (generateEmbedding offlineOracle (lit "alpha") fresh)
    = inr (mockVector offlineOracle 0)
  /\ quotaExceeded (service (after (generateEmbedding offlineOracle (lit "alpha") fresh)))
     = false.
Proof.
  destruct (other_errors_keep_quota offlineOracle (lit "alpha")
              (newError (lit "fetch failed")) fresh) as (Hr & Hq & _);
    try reflexivity.
  split; [exact Hr|exact Hq].
Defined.

(** *** A retry hint that is no number *)

(** X10. When the retry hint of a rate-limit error does not parse, the
    reset time is [NaN]: the flag is up, but no time is before [NaN], so
    [isQuotaExceeded] is false at every later time and the next call
    whose key is not cached reaches the upstream service again. *)
Theorem unparsable_hint_disables_backoff (o : Oracle) (text_ : jsstring)
    (error : JsError) (hint : jsstring) (w : World) :
  cached w text_ = None -> quotaActive w = false -> genAI (service w) = true ->
  embedContent o (embedCalls w) text_ = EmbedThrows error ->
  isRateLimit error = true ->
  findRetryDelay error = Some hint -> hint <> [] -> parseInt hint = NaN ->
  let w1 := after (generateEmbedding o text_ w) in
  quotaExceeded (service w1) = true
  /\ quotaResetTime (service w1) = NaN
  /\ getQuotaResetTime w1 = NaN
  /\ forall (dt : N) (next : jsstring),
       isQuotaExceeded (idle dt w1) = false
       /\ (cached w1 next = None ->
           embedCalls (after (generateEmbedding o next (idle dt w1)))
           = S (embedCalls w1)).
Proof.
  intros Hc Hq Hg He Hrl Hhint Hne Hnan. cbv zeta. unfold after.
  rewrite (generateEmbedding_failed o text_ error w Hc Hq Hg He), Hrl. cbn [snd].
  pose proof (answered_fields o text_ (entered text_ w)) as Hf. cbv zeta in Hf.
  destruct Hf as (_ & _ & _ & _ & _ & _ & _ & Hgen & _).
  set (wa := answered o text_ (entered text_ w)) in *.
  assert (Hreset : resetTimeOf error (now wa) = NaN).
  { unfold resetTimeOf. rewrite Hhint. destruct hint as [|c s]; [congruence|].
    rewrite Hnan. reflexivity. }
  set (w1 := drawn (limited error wa)).
  assert (Hflag : quotaExceeded (service w1) = true) by reflexivity.
  assert (Htime : quotaResetTime (service w1) = NaN)
    by (unfold w1, drawn, limited; simplWorld; exact Hreset).
  assert (Hg1 : genAI (service w1) = true).
  { unfold w1, drawn, limited. simplWorld. rewrite Hgen. unfold entered.
    simplWorld. exact Hg. }
  clearbody w1. clear Hgen Hreset. clearbody wa.
  split; [exact Hflag|]. split; [exact Htime|]. split.
  - unfold getQuotaResetTime. rewrite Hflag, Htime. reflexivity.
  - intros dt next.
    assert (Hquiet : quotaActive (idle dt w1) = false).
    { unfold quotaActive, isQuotaExceeded, idle. simplWorld. rewrite Htime.
      apply andb_false_r. }
    split; [exact Hquiet|]. intros Hmiss.
    exact (upstream_reached o next (idle dt w1) Hmiss Hquiet Hg1).
Qed.

Lemma unparsable_hint_example :
  quotaExceeded (service (after (generateEmbedding vagueOracle (lit "alpha") fresh)))
    = true
  /\ isQuotaExceeded (idle 1 (after (generateEmbedding vagueOracle (lit "alpha") fresh)))
     = false.
Proof.
  destruct (unparsable_hint_disables_backoff vagueOracle (lit "alpha") vagueError
              (lit "soon") fresh) as (Hflag & _ & _ & Hnext);
    try (vm_compute; reflexivity); [discriminate|].
  split; [exact Hflag|]. exact (proj1 (Hnext 1%N (lit "beta"))).
Defined.

End EmbeddingExtras.

(* ===================================================================== *)
(** ** More about the stores and the operations on them *)
(* ===================================================================== *)

Module ServiceFacts.
Import Service EffFacts EmbeddingFacts StoreFacts IngestionFacts DeletionFacts
  ResultFacts TextFacts.

Section WithOracle.

Variable o : Oracle.

(** *** ChromaDB marked unavailable *)

Lemma ensureCollection_offline (w : World) :
  isAvailable (chroma w) = false -> ensureCollection o w = (inr false, w).
Proof. intros H. unfold ensureCollection. unfoldM. rewrite H. reflexivity. Qed.

Lemma addEmbeddings_offline (documentId_ : jsstring) (chunks_ : list jsstring)
    (embeddings : list (list float)) (source_ : jsstring) (w : World) :
  isAvailable (chroma w) = false ->
  addEmbeddings o documentId_ chunks_ embeddings source_ w
  = (inr tt, emitted (EvAddEmbeddings documentId_) w).
Proof.
  intros H. unfold addEmbeddings, emitted. unfoldM.
  rewrite (ensureCollection_offline (setTrace (trace w ++ [EvAddEmbeddings documentId_]) w) H).
  reflexivity.
Qed.

Lemma deleteEmbeddings_offline (documentId_ : jsstring) (w : World) :
  isAvailable (chroma w) = false ->
  deleteEmbeddings o documentId_ w = (inr tt, emitted (EvDeleteEmbeddings documentId_) w).
Proof.
  intros H. unfold deleteEmbeddings, emitted. unfoldM.
  rewrite (ensureCollection_offline
             (setTrace (trace w ++ [EvDeleteEmbeddings documentId_]) w) H).
  reflexivity.
Qed.

Lemma searchSimilar_offline (queryEmbedding : list float) (topK : Z) (w : World) :
  isAvailable (chroma w) = false ->
  searchSimilar o queryEmbedding topK w = (inr [], w).
Proof.
  intros H. unfold searchSimilar. unfoldM.
  rewrite (ensureCollection_offline w H). reflexivity.
Qed.

(** The vector service does not call the embedding service. *)
Lemma ensureCollection_embedCalls (w : World) :
  embedCalls (snd (ensureCollection o w)) = embedCalls w.
Proof.
  unfold ensureCollection, initialize. unfoldM.
  destruct (isAvailable (chroma w)); cbn [negb andb]; [|reflexivity].
  destruct (collection (chroma w)); cbn [negb andb]; [reflexivity|].
  rewrite chromaOp_run. destruct (chromaFails o (chromaOps w)); reflexivity.
Qed.

Lemma addEmbeddings_embedCalls (documentId_ : jsstring) (chunks_ : list jsstring)
    (embeddings : list (list float)) (source_ : jsstring) (w : World) :
  embedCalls (snd (addEmbeddings o documentId_ chunks_ embeddings source_ w))
  = embedCalls w.
Proof.
  unfold addEmbeddings. unfoldM.
  pose proof (ensureCollection_embedCalls
                (setTrace (trace w ++ [EvAddEmbeddings documentId_]) w)) as H.
  destruct (ensureCollection o (setTrace (trace w ++ [EvAddEmbeddings documentId_]) w))
    as [[e|[|]] w1]; cbn [snd negb] in *; [exact H| |exact H].
  rewrite chromaOp_run. cbn [snd]. exact H.
Qed.

(** *** Steps 3 to 5 of an ingestion *)

(** Once the embeddings are made, in the world [w1]. *)
Lemma ingestTail_after (embed : M (list (list float))) (input : DocumentInput)
    (chunks_ : list jsstring) (source_ : jsstring) (w w1 : World)
    (embeddings : list (list float)) :
  embed w = (inr embeddings, w1) ->
  ingestTail o embed input chunks_ source_ w =
    if negb (validates o input)
    then (inl validationError, emitted (EvDocumentCreate false) w1)
    else if inserts o input w1
         then (inr (_id (newDocument o input w1)),
               snd (addEmbeddings o (_id (newDocument o input w1)) chunks_ embeddings
                      source_
                      (emitted (EvDocumentCreate true)
                         (setDocuments (documents w1 ++ [newDocument o input w1])
                            (afterMongo o w1)))))
         else (inl mongoError, emitted (EvDocumentCreate false) (afterMongo o w1)).
Proof.
  intros Hembed. unfold ingestTail, mbind, M_bind, bind. rewrite Hembed, create_run.
  destruct (validates o input); cbn [negb]; [|reflexivity].
  destruct (inserts o input w1); [|reflexivity].
  destruct (addEmbeddings_frame o (_id (newDocument o input w1)) chunks_ embeddings
              source_
              (emitted (EvDocumentCreate true)
                 (setDocuments (documents w1 ++ [newDocument o input w1])
                    (afterMongo o w1))))
    as (w3 & -> & _). reflexivity.
Qed.

(** The world in which the record is written differs from the
    starting world by the embedding of the chunks only. *)
Lemma ingestTail_cases (embed : M (list (list float))) (input : DocumentInput)
    (chunks_ : list jsstring) (source_ : jsstring) (w : World) :
  embed w = mapM (generateEmbedding o) chunks_ w ->
  exists embeddings w1 es,
    mapM (generateEmbedding o) chunks_ w = (inr embeddings, w1)
    /\ documents w1 = documents w /\ chroma w1 = chroma w
    /\ mongoOps w1 = mongoOps w /\ chromaOps w1 = chromaOps w
    /\ trace w1 = trace w ++ es
    /\ List.filter isGenerateEmbedding es = List.map EvGenerateEmbedding chunks_
    /\ List.filter isStoreEvent es = []
    /\ ingestTail o embed input chunks_ source_ w =
         if negb (validates o input)
         then (inl validationError, emitted (EvDocumentCreate false) w1)
         else if inserts o input w1
              then (inr (_id (newDocument o input w1)),
                    snd (addEmbeddings o (_id (newDocument o input w1)) chunks_
                           embeddings source_
                           (emitted (EvDocumentCreate true)
                              (setDocuments (documents w1 ++ [newDocument o input w1])
                                 (afterMongo o w1)))))
              else (inl mongoError, emitted (EvDocumentCreate false) (afterMongo o w1)).
Proof.
  intros Hembed.
  destruct (mapM_generateEmbedding o chunks_ w)
    as (embs & w1 & es & Hmap & _ & Hd & Hch & Hmo & Hco & Ht & Hg & Hs).
  exists embs, w1, es. repeat (split; [assumption|]).
  apply ingestTail_after. rewrite Hembed. exact Hmap.
Qed.

Lemma no_store_no_add (es : list Event) :
  List.filter isStoreEvent es = [] -> List.filter isAddEmbeddings es = [].
Proof.
  induction es as [|e es IH]; [reflexivity|]. cbn [List.filter].
  destruct e; cbn [isStoreEvent isAddEmbeddings]; try discriminate; exact IH.
Qed.

(** *** The collection of documents *)

Lemma removeFirst_last (p : IDocument -> bool) (l : list IDocument) (d : IDocument) :
  (forall x, In x l -> p x = false) -> p d = true ->
  removeFirst p (l ++ [d]) = Some l.
Proof.
  intros Hl Hd. induction l as [|x l IH]; cbn [app removeFirst].
  - rewrite Hd. reflexivity.
  - rewrite (Hl x (or_introl eq_refl)), IH; [reflexivity|].
    intros y Hy. apply Hl. right. exact Hy.
Qed.

Lemma removeFirst_none (p : IDocument -> bool) (l : list IDocument) :
  (forall x, In x l -> p x = false) -> removeFirst p l = None.
Proof.
  intros Hl. induction l as [|x l IH]; [reflexivity|]. cbn [removeFirst].
  rewrite (Hl x (or_introl eq_refl)), IH; [reflexivity|].
  intros y Hy. apply Hl. right. exact Hy.
Qed.

Lemma NoDup_ids_snoc (docs : list IDocument) (d : IDocument) :
  NoDup (List.map _id docs) -> _id d ∉ List.map _id docs ->
  NoDup (List.map _id (docs ++ [d])).
Proof.
  intros Hnd Hnew. rewrite List.map_app. cbn [List.map].
  apply NoDup_app. split; [exact Hnd|]. split.
  - intros x Hx Hx'. apply list_elem_of_singleton in Hx'. subst x. contradiction.
  - apply NoDup_singleton.
Qed.

Lemma NoDup_ids_remove (before rest : list IDocument) (d : IDocument) :
  NoDup (List.map _id (before ++ d :: rest)) ->
  NoDup (List.map _id (before ++ rest))
  /\ forall x, In x (before ++ rest) -> _id x <> _id d.
Proof.
  rewrite !List.map_app. cbn [List.map]. intros Hnd.
  apply NoDup_app in Hnd as (Hb & Hdis & Hr).
  apply NoDup_cons in Hr as [Hd Hr]. split.
  - apply NoDup_app. split; [exact Hb|]. split; [|exact Hr].
    intros x Hx Hx'. apply (Hdis x Hx). right. exact Hx'.
  - intros x Hx Heq. apply in_app_or in Hx as [Hx|Hx].
    + apply (Hdis (_id d)).
      * rewrite <- Heq. apply list_elem_of_In, in_map, Hx.
      * left.
    + apply Hd. rewrite <- Heq. apply list_elem_of_In, in_map, Hx.
Qed.

End WithOracle.

End ServiceFacts.

(* ===================================================================== *)
(** ** Further properties: the vector index *)
(* ===================================================================== *)

Module StoreExtras.
Import Service EffFacts StoreFacts ServiceFacts ResultFacts Examples MoreExamples.

(** *** ChromaDB marked unavailable *)

(** X11. While ChromaDB is marked unavailable, no method of the vector
    service contacts it: a search returns no hit and leaves the world
    as it is, and writing or deleting embeddings does nothing but
    return. The service does not try to connect again. *)
Theorem chroma_unavailable_inert (o : Oracle) (w : World) :
  isAvailable (chroma w) = false ->
  isConnected w = false
  /\ (forall queryEmbedding topK,
        searchSimilar o queryEmbedding topK w = (inr [], w))
  /\ (forall documentId_ chunks_ embeddings source_,
        let r := addEmbeddings o documentId_ chunks_ embeddings source_ w in
        result r = inr tt
        /\ chromaOps (after r) = chromaOps w /\ chroma (after r) = chroma w)
  /\ (forall documentId_,
        let r := deleteEmbeddings o documentId_ w in
        result r = inr tt
        /\ chromaOps (after r) = chromaOps w /\ chroma (after r) = chroma w).
Proof.
  intros H. split; [unfold isConnected; rewrite H; reflexivity|].
  split; [intros q k; apply searchSimilar_offline, H|]. split.
  - intros documentId_ chunks_ embeddings source_. cbv zeta. unfold result, after.
    rewrite (addEmbeddings_offline o _ _ _ _ w H). cbn [fst snd]. auto.
  - intros documentId_. cbv zeta. unfold result, after.
    rewrite (deleteEmbeddings_offline o _ w H). cbn [fst snd]. auto.
Qed.

Lemma chroma_unavailable_example :
  searchSimilar oracle (repeat 2%float 768) 16 fresh = (inr [], fresh).
Proof.
  destruct (chroma_unavailable_inert oracle fresh) as (_ & H & _); [reflexivity|].
  apply H.
Defined.

(** *** The rows of an answer *)

Lemma transformRows_missing (rows : list QueryRow) :
  Exists (fun row => rowMetadata row = None) rows -> transformRows rows = None.
Proof.
  induction 1 as [row rows Hrow|row rows _ IH]; cbn [transformRows].
  - unfold toSimilarChunk. rewrite Hrow. reflexivity.
  - rewrite IH. destruct (toSimilarChunk row); reflexivity.
Qed.

Lemma transformRows_complete (rows : list QueryRow) :
  Forall (fun row => rowMetadata row <> None) rows ->
  exists hits,
    transformRows rows = Some hits
    /\ Forall2 (fun row hit =>
                  id hit = rowId row /\ text hit = rowDocument row
                  /\ score hit = PrimFloat.sub 1%float (orZero (rowDistance row)))
               rows hits.
Proof.
  induction 1 as [|row rows Hrow _ (hits & Hhits & Hall)]; cbn [transformRows].
  - exists []. split; [reflexivity|constructor].
  - unfold toSimilarChunk at 1.
    destruct (rowMetadata row) as [m|]; [|congruence]. rewrite Hhits.
    eexists. split; [reflexivity|]. constructor; [|exact Hall].
    cbn [id text score]. auto.
Qed.

(** X12. A connected search is all or nothing. When every row of the
    answer has its metadata, every row becomes a hit, in order, with
    score [1 - distance], where a missing, zero or [NaN] distance counts
    as 0. When one row lacks its metadata, reading it throws, the error
    is caught, and the search returns no hit at all. *)
Theorem searchSimilar_all_or_nothing (o : Oracle) (queryEmbedding : list float)
    (topK : Z) (rows : list QueryRow) (w : World) :
  isConnected w = true ->
  chromaQuery o (chromaOps w) queryEmbedding topK = QueryAnswers (Some rows) ->
  let r := searchSimilar o queryEmbedding topK w in
  (Exists (fun row => rowMetadata row = None) rows -> result r = inr [])
  /\ (Forall (fun row => rowMetadata row <> None) rows ->
      exists hits,
        result r = inr hits
        /\ Forall2 (fun row hit =>
                      id hit = rowId row /\ text hit = rowDocument row
                      /\ score hit = PrimFloat.sub 1%float (orZero (rowDistance row)))
                   rows hits)
  /\ (forall distance,
        distance = None \/ distance = Some 0%float \/ distance = Some nan ->
        PrimFloat.sub 1%float (orZero distance) = 1%float).
Proof.
  intros Hconn Hrows. cbv zeta. unfold result.
  rewrite (searchSimilar_connected o queryEmbedding topK w Hconn), Hrows.
  cbn [fst hitsOf]. split; [|split].
  - intros Hmiss. rewrite (transformRows_missing rows Hmiss). reflexivity.
  - intros Hall. destruct (transformRows_complete rows Hall) as (hits & -> & H).
    exists hits. split; [reflexivity|exact H].
  - intros distance [-> | [-> | ->]]; reflexivity.
Qed.

Lemma searchSimilar_all_or_nothing_example :
  result (searchSimilar (oracleWith [ownRow; bareRow]) (repeat 2%float 768) 16 connected)
  = inr [].
Proof.
  destruct (searchSimilar_all_or_nothing (oracleWith [ownRow; bareRow])
              (repeat 2%float 768) 16 [ownRow; bareRow] connected) as (H & _);
    [reflexivity|reflexivity|].
  apply H. apply Exists_cons_tl, Exists_cons_hd. reflexivity.
Defined.

End StoreExtras.

(* ===================================================================== *)
(** ** More about ingestion, retrieval and deletion *)
(* ===================================================================== *)

Module DocumentFacts.
Import Service More EffFacts EmbeddingFacts StoreFacts RetrievalFacts IngestionFacts
  DeletionFacts ResultFacts TextFacts ServiceFacts.

Section WithOracle.

Variable o : Oracle.

(** *** Ingestion *)

Lemma IngestEmbedded_nil (w w1 : World) (es : list Event) :
  IngestEmbedded o [] w w1 es -> w1 = w /\ es = [].
Proof.
  intros (Hw & _ & _ & _ & _ & Ht & _). cbn in Hw. subst w1. split; [reflexivity|].
  rewrite <- (app_nil_r (trace w)) in Ht at 1. apply app_inv_head in Ht. auto.
Qed.

Lemma ingestTail_end (embed : M (list (list float))) (input : DocumentInput)
    (chunks_ : list jsstring) (source_ : jsstring) (w : World) :
  embed w = mapM (generateEmbedding o) chunks_ w ->
  IngestEnd o input chunks_ w (ingestTail o embed input chunks_ source_ w).
Proof.
  intros Hembed.
  destruct (ingestTail_cases o embed input chunks_ source_ w Hembed)
    as (embs & w1 & es & Hmap & Hd & Hch & Hmo & Hco & Ht & Hg & Hs & ->).
  assert (Hemb : IngestEmbedded o chunks_ w w1 es).
  { unfold IngestEmbedded. rewrite Hmap. cbn [snd]. auto 10. }
  destruct (validates o input) eqn:Hv; cbn [negb];
    [|apply (EndInvalid o input chunks_ w w1 es); assumption].
  destruct (inserts o input w1) eqn:Hi;
    [|apply (EndRefused o input chunks_ w w1 es); assumption].
  set (wc := emitted (EvDocumentCreate true)
               (setDocuments (documents w1 ++ [newDocument o input w1])
                  (afterMongo o w1))).
  apply (EndStored o input chunks_ w w1 es); try assumption.
  - destruct (addEmbeddings_frame o (_id (newDocument o input w1)) chunks_ embs
                source_ wc) as (w3 & -> & Hd3 & _).
    cbn [snd]. rewrite Hd3. unfold wc, emitted, afterMongo, awaited. simplWorld.
    rewrite Hd. reflexivity.
  - destruct (addEmbeddings_frame o (_id (newDocument o input w1)) chunks_ embs
                source_ wc) as (w3 & -> & _ & Ht3).
    cbn [snd]. rewrite Ht3. unfold wc, emitted, afterMongo, awaited. simplWorld.
    rewrite Ht, <- !app_assoc. reflexivity.
  - rewrite addEmbeddings_embedCalls. reflexivity.
  - intros Hoff.
    assert (Hoffc : isAvailable (chroma wc) = false).
    { unfold wc, emitted, afterMongo, awaited. simplWorld. rewrite Hch. exact Hoff. }
    rewrite (addEmbeddings_offline o _ chunks_ embs source_ wc Hoffc). cbn [snd].
    unfold wc, emitted, afterMongo, awaited. simplWorld. auto.
Qed.

(** The ways [processDocument] ends. *)
Lemma processDocument_end (botId_ userId_ filename_ : jsstring) (buffer : list N)
    (fileType_ : jsstring) (w : World) :
  let r := processDocument o botId_ userId_ filename_ buffer fileType_ w in
  (exists e, r = (inl e, awaited o w)
             /\ (pdfParse o buffer = None
                 \/ exists text_, pdfParse o buffer = Some text_
                                  /\ isBlank text_ = true))
  \/ (exists text_,
        pdfParse o buffer = Some text_ /\ isBlank text_ = false
        /\ IngestEnd o (ingestInput botId_ userId_ filename_ fileType_ (strlen buffer)
                        (lit "pdf") (chunkText o text_))
             (chunkText o text_) (awaited o w) r).
Proof.
  cbv zeta. rewrite processDocument_unfold.
  destruct (pdfParse o buffer) as [text_|]; [|left; eauto].
  destruct (isBlank text_) eqn:Hb; [left; eauto 6|].
  right. exists text_. split; [reflexivity|]. split; [exact Hb|].
  cbv zeta. apply ingestTail_end, embedBatches_mapM.
Qed.

(** The ways [processDocumentFromText] ends. *)
Lemma processDocumentFromText_end (botId_ userId_ filename_ text_ fileType_ : jsstring)
    (w : World) :
  let r := processDocumentFromText o botId_ userId_ filename_ text_ fileType_ w in
  (isBlank text_ = true /\ r = (inl (newError (lit "No text content provided")), w))
  \/ (isBlank text_ = false
      /\ IngestEnd o (ingestInput botId_ userId_ filename_ fileType_ (strlen text_)
                      (lit "url") (chunkText o text_))
           (chunkText o text_) w r).
Proof.
  cbv zeta. rewrite processDocumentFromText_unfold.
  destruct (isBlank text_) eqn:Hb; [left; auto|].
  right. split; [reflexivity|]. cbv zeta. apply ingestTail_end. reflexivity.
Qed.

(** What every end of an ingestion keeps. *)
Lemma IngestEnd_keeps (input : DocumentInput) (chunks_ : list jsstring) (w : World)
    (r : (JsError + jsstring) * World) :
  IngestEnd o input chunks_ w r ->
  (NoDup (List.map _id (documents w)) -> NoDup (List.map _id (documents (snd r))))
  /\ (isAvailable (chroma w) = false ->
      chroma (snd r) = chroma w /\ chromaOps (snd r) = chromaOps w).
Proof.
  intros [w1 es (_ & Hd & Hch & Hmo & Hco & _) Hv
         |w1 es (_ & Hd & Hch & Hmo & Hco & _) Hv Hi
         |w1 es w' (_ & Hd & Hch & Hmo & Hco & _) Hv Hi Hd' Ht' He' Hoff]; cbn [snd].
  - unfold emitted. simplWorld. rewrite Hd, Hch, Hco. auto.
  - unfold emitted, afterMongo, awaited. simplWorld. rewrite Hd, Hch, Hco. auto.
  - split; [|exact Hoff]. intros Hnd. rewrite Hd'.
    apply NoDup_ids_snoc; [exact Hnd|].
    unfold inserts in Hi. apply negb_true_iff, orb_false_iff in Hi as [_ Hi].
    apply bool_decide_eq_false in Hi. rewrite Hd in Hi. exact Hi.
Qed.

(** A successful [processDocument], read backwards. *)
Lemma processDocument_stored (botId_ userId_ filename_ : jsstring) (buffer : list N)
    (fileType_ id_ : jsstring) (w : World) :
  let r := processDocument o botId_ userId_ filename_ buffer fileType_ w in
  result r = inr id_ ->
  exists text_ w1 es,
    let input := ingestInput botId_ userId_ filename_ fileType_ (strlen buffer)
                   (lit "pdf") (chunkText o text_) in
    pdfParse o buffer = Some text_ /\ isBlank text_ = false
    /\ IngestEmbedded o (chunkText o text_) (awaited o w) w1 es
    /\ validates o input = true /\ inserts o input w1 = true
    /\ id_ = newObjectId o (mongoOps w)
    /\ documents (after r) = documents w ++ [newDocument o input w1]
    /\ trace (after r) = trace w ++ es ++ [EvDocumentCreate true; EvAddEmbeddings id_]
    /\ embedCalls (after r) = embedCalls w1
    /\ (isAvailable (chroma w) = false ->
        chroma (after r) = chroma w /\ chromaOps (after r) = chromaOps w).
Proof.
  cbv zeta. unfold result, after. intros Hres.
  destruct (processDocument_end botId_ userId_ filename_ buffer fileType_ w)
    as [(e & Heq & _)|(text_ & Hpdf & Hb & Hend)]; cbv zeta in *.
  - rewrite Heq in Hres. discriminate Hres.
  - exists text_.
    destruct Hend as [w1 es Hemb Hv
                     |w1 es Hemb Hv Hi
                     |w1 es w' Hemb Hv Hi Hd' Ht' He' Hoff];
      cbn [fst snd] in *; try discriminate Hres.
    injection Hres as <-. exists w1, es.
    pose proof Hemb as (_ & _ & _ & Hmo & _).
    change (documents (awaited o w)) with (documents w) in *.
    change (mongoOps (awaited o w)) with (mongoOps w) in *.
    change (trace (awaited o w)) with (trace w) in *.
    change (chroma (awaited o w)) with (chroma w) in *.
    change (chromaOps (awaited o w)) with (chromaOps w) in *.
    cbn [newDocument _id]. rewrite Hmo.
    split; [exact Hpdf|]. split; [exact Hb|]. split; [exact Hemb|].
    split; [exact Hv|]. split; [exact Hi|]. split; [reflexivity|].
    split; [exact Hd'|]. split; [|split; [exact He'|exact Hoff]].
    cbn [newDocument _id] in Ht'. rewrite Hmo in Ht'. exact Ht'.
Qed.

(** An ingestion of a text with a file type that is not in the
    schema: the chunks are embedded, then the record is refused. *)
Lemma invalid_fileType_run (botId_ userId_ filename_ text_ fileType_ : jsstring)
    (w : World) :
  bool_decide (fileType_ ∈ fileTypeEnum) = false -> isBlank text_ = false ->
  exists w1 es,
    IngestEmbedded o (chunkText o text_) w w1 es
    /\ processDocumentFromText o botId_ userId_ filename_ text_ fileType_ w
       = (inl validationError, emitted (EvDocumentCreate false) w1).
Proof.
  intros Htype Hb.
  destruct (processDocumentFromText_end botId_ userId_ filename_ text_ fileType_ w)
    as [[Hb' _]|[_ Hend]]; [congruence|].
  cbv zeta in Hend.
  assert (Hv : validates o (ingestInput botId_ userId_ filename_ fileType_
                              (strlen text_) (lit "url") (chunkText o text_))
               = false).
  { unfold validates, ingestInput. cbn [inFileType]. rewrite Htype.
    rewrite !andb_false_r. reflexivity. }
  destruct Hend as [w1 es Hemb _|w1 es _ Hv' _|w1 es w' _ Hv' _ _ _ _ _];
    [|congruence|congruence].
  exists w1, es. split; [exact Hemb|reflexivity].
Qed.

(** *** Retrieval *)

Lemma searchDocuments_frame (botId_ query : jsstring) (topK : Z) (w : World) :
  exists queryEmbedding w',
    searchDocuments o botId_ query topK w =
      (inr (searchOutcome o botId_ topK w queryEmbedding), w')
    /\ documents w' = documents w
    /\ (isConnected w = false -> chroma w' = chroma w /\ chromaOps w' = chromaOps w).
Proof.
  destruct (generateEmbedding_frame o query w)
    as (emb & w1 & Hgen & Hd & Hch & Hm & Hco & _).
  exists emb.
  unfold searchDocuments, searchOutcome, tryCatch, mbind, M_bind, bind.
  rewrite Hgen, find_run, Hm, Hd.
  destruct (isObjectId o botId_); cbn [negb orb];
    [|eexists; split; [reflexivity|auto]].
  destruct (mongoFails o (mongoOps w));
    [eexists; split; [reflexivity|unfold afterMongo, awaited; simplWorld; auto]|].
  destruct (strlen (processedOf botId_ (documents w)) =? 0);
    [eexists; split; [reflexivity|unfold afterMongo, awaited; simplWorld; auto]|].
  unfoldM.
  assert (Hconn : isConnected (afterMongo o w1) = isConnected w).
  { unfold isConnected, afterMongo, awaited. simplWorld. rewrite Hch. reflexivity. }
  rewrite Hconn. destruct (isConnected w) eqn:Hc.
  - rewrite searchSimilar_connected by exact Hconn.
    assert (Hops : chromaOps (afterMongo o w1) = chromaOps w).
    { unfold afterMongo, awaited. simplWorld. exact Hco. }
    rewrite Hops. eexists. split; [reflexivity|].
    unfold afterChroma, afterMongo, awaited. simplWorld. split; [exact Hd|].
    intros Hfalse. discriminate Hfalse.
  - eexists. split; [reflexivity|].
    unfold afterMongo, awaited. simplWorld. auto.
Qed.

(** A search that finds no document to look at. *)
Lemma searchDocuments_nothing (botId_ query : jsstring) (topK : Z) (w : World) :
  isObjectId o botId_ = false \/ mongoFails o (mongoOps w) = true
  \/ processedOf botId_ (documents w) = [] ->
  exists w',
    searchDocuments o botId_ query topK w = (inr [], w')
    /\ documents w' = documents w
    /\ chroma w' = chroma w /\ chromaOps w' = chromaOps w.
Proof.
  intros Hcase.
  destruct (generateEmbedding_frame o query w)
    as (emb & w1 & Hgen & Hd & Hch & Hm & Hco & _).
  unfold searchDocuments, tryCatch, mbind, M_bind, bind.
  rewrite Hgen, find_run, Hm, Hd.
  destruct (isObjectId o botId_); cbn [negb];
    [|eexists; split; [reflexivity|auto]].
  destruct (mongoFails o (mongoOps w));
    [eexists; split; [reflexivity|unfold afterMongo, awaited; simplWorld; auto]|].
  destruct Hcase as [Hcase|[Hcase|Hcase]]; try discriminate Hcase.
  rewrite Hcase. cbn [strlen length Z.of_nat Z.eqb].
  eexists; split; [reflexivity|unfold afterMongo, awaited; simplWorld; auto].
Qed.

Lemma length_slice_prefix {A} (l : list A) (k : Z) :
  0 <= k -> Z.of_nat (length (slice l 0 k)) <= k.
Proof.
  intros Hk. rewrite slice_prefix by exact Hk. rewrite length_take. lia.
Qed.





Lemma storedChunks_snoc (docs : list IDocument) (d : IDocument) :
  storedChunks (docs ++ [d])
  = storedChunks docs
    ++ List.map (fun c => {| resContent := content c; resScore := 0.5%float;
                             resFilename := filename d |}) (chunks d).
Proof.
  unfold storedChunks. rewrite List.flat_map_app. cbn [List.flat_map].
  rewrite app_nil_r. reflexivity.
Qed.

Lemma validates_ids (input : DocumentInput) :
  validates o input = true ->
  isObjectId o (inBotId input) = true /\ isObjectId o (inUserId input) = true.
Proof.
  unfold validates. intros H.
  do 4 (apply andb_prop in H as [H _]). apply andb_prop in H. exact H.
Qed.

Lemma inserts_fresh (input : DocumentInput) (w : World) :
  inserts o input w = true ->
  forall x, In x (documents w) -> _id x <> newObjectId o (mongoOps w).
Proof.
  unfold inserts. intros Hi x Hx Heq.
  apply negb_true_iff, orb_false_iff in Hi as [_ Hi].
  apply bool_decide_eq_false in Hi. apply Hi. cbn [newDocument _id].
  rewrite <- Heq. apply list_elem_of_In, in_map, Hx.
Qed.

(** *** Deletion *)

Lemma deleteDocument_offline (documentId_ userId_ : jsstring) (w : World) :
  isAvailable (chroma w) = false ->
  chroma (after (deleteDocument o documentId_ userId_ w)) = chroma w
  /\ chromaOps (after (deleteDocument o documentId_ userId_ w)) = chromaOps w.
Proof.
  intros Hoff. unfold after, deleteDocument, tryCatch, mbind, M_bind, bind.
  rewrite deleteOne_run.
  destruct (isObjectId o documentId_ && isObjectId o userId_); cbn [negb];
    [|split; reflexivity].
  destruct (mongoFails o (mongoOps w)); [split; reflexivity|].
  destruct (removeFirst _ (documents w)) as [remaining|].
  - change (0 <? 1) with true. cbv iota.
    rewrite deleteEmbeddings_offline by exact Hoff. split; reflexivity.
  - change (0 <? 0) with false. cbv iota. split; reflexivity.
Qed.

End WithOracle.

End DocumentFacts.

(* ===================================================================== *)
(** ** Further properties: ingestion, retrieval and deletion *)
(* ===================================================================== *)

Module DocumentExtras.
Import Service More EffFacts StoreFacts RetrievalFacts IngestionFacts DeletionFacts
  ResultFacts TextFacts ServiceFacts DocumentFacts Examples MoreExamples.

(** Use what is known of a run: the result and the documents. *)
Local Ltac ran H :=
  let Heq := fresh "Heq" in
  let Hd := fresh "Hd" in
  destruct H as (Heq & Hd & _); rewrite Heq; cbn [fst snd]; rewrite ?Hd.

(** *** File types outside the schema *)

(** X13. The schema of a document lists the file types [pdf], [txt], [doc]
    and [docx]. An ingestion with any other file type, such as the
    [url] that the upload of a URL passes to [processDocumentFromText],
    cannot succeed: it throws, stores no record, makes no MongoDB round
    trip and writes nothing to the vector index. When the text is not
    blank the error is the validation error, thrown after an embedding
    has been generated for every chunk. *)
Theorem fileType_outside_schema_rejected (o : Oracle)
    (botId_ userId_ filename_ text_ fileType_ : jsstring) (w : World) :
  bool_decide (fileType_ ∈ fileTypeEnum) = false ->
  let r := processDocumentFromText o botId_ userId_ filename_ text_ fileType_ w in
  (exists e, result r = inl e)
  /\ documents (after r) = documents w
  /\ mongoOps (after r) = mongoOps w
  /\ List.filter isAddEmbeddings (newEvents w (after r)) = []
  /\ (isBlank text_ = false ->
      result r = inl validationError
      /\ List.filter isGenerateEmbedding (newEvents w (after r))
         = List.map EvGenerateEmbedding (chunkText o text_)).
Proof.
  intros Htype. cbv zeta. unfold result, after.
  destruct (isBlank text_) eqn:Hb.
  - rewrite processDocumentFromText_unfold, Hb. cbn [fst snd].
    split; [eauto|]. split; [reflexivity|]. split; [reflexivity|].
    split; [|discriminate].
    rewrite (newEvents_app w w []); [reflexivity|]. rewrite app_nil_r. reflexivity.
  - destruct (invalid_fileType_run o botId_ userId_ filename_ text_ fileType_ w
                Htype Hb) as (w1 & es & (_ & Hd & _ & Hmo & _ & Ht & Hg & Hs) & ->).
    cbn [fst snd].
    assert (Hev : newEvents w (emitted (EvDocumentCreate false) w1)
                  = es ++ [EvDocumentCreate false]).
    { apply newEvents_app. unfold emitted. simplWorld. rewrite Ht, <- app_assoc.
      reflexivity. }
    rewrite Hev, !List.filter_app, (no_store_no_add es Hs), Hg.
    unfold emitted. simplWorld. cbn [List.filter isAddEmbeddings isGenerateEmbedding].
    split; [eauto|]. split; [exact Hd|]. split; [exact Hmo|].
    split; [reflexivity|]. intros _. split; [reflexivity|apply app_nil_r].
Qed.

Lemma fileType_url_rejected_example :
  result (processDocumentFromText oracle botA alice (lit "https://example.org/hours")
            leaflet (lit "url") fresh)
  = inl (Service.validationError)
  /\ documents (after (processDocumentFromText oracle botA alice
                         (lit "https://example.org/hours") leaflet (lit "url") fresh))
     = [].
Proof.
  destruct (fileType_outside_schema_rejected oracle botA alice
              (lit "https://example.org/hours") leaflet (lit "url") fresh)
    as (_ & Hd & _ & _ & Hv); [vm_compute; reflexivity|].
  split; [apply Hv; vm_compute; reflexivity|exact Hd].
Defined.

(** *** Short texts *)

(** X14. A PDF whose text is not blank but has fewer than 50 characters is
    ingested without a single chunk: when the ingestion succeeds, it
    has made no embedding, and the record it stored has an empty list of
    chunks and [totalChunks] 0, and is marked processed. *)
Theorem short_pdf_stored_without_chunks (o : Oracle)
    (botId_ userId_ filename_ : jsstring) (buffer : list N)
    (fileType_ text_ id_ : jsstring) (w : World) :
  pdfParse o buffer = Some text_ -> strlen text_ < 50 ->
  let r := processDocument o botId_ userId_ filename_ buffer fileType_ w in
  result r = inr id_ ->
  (exists doc,
     documents (after r) = documents w ++ [doc]
     /\ _id doc = id_ /\ chunks doc = [] /\ totalChunks doc = 0
     /\ processed doc = true)
  /\ embedCalls (after r) = embedCalls w
  /\ newEvents w (after r) = [EvDocumentCreate true; EvAddEmbeddings id_].
Proof.
  intros Hpdf Hshort. cbv zeta. intros Hres.
  destruct (processDocument_stored o botId_ userId_ filename_ buffer fileType_ id_ w
              Hres)
    as (text' & w1 & es & Hpdf' & _ & Hemb & _ & _ & Hid & Hdocs & Htrace & He & _).
  rewrite Hpdf in Hpdf'. injection Hpdf' as <-.
  assert (Hnil : chunkText o text_ = [])
    by (unfold chunkText; apply chunkText_short_nil; exact Hshort).
  rewrite Hnil in Hemb, Hdocs.
  apply IngestEmbedded_nil in Hemb as [-> ->].
  split; [|split].
  - eexists. split; [exact Hdocs|].
    cbn [newDocument ingestInput _id chunks totalChunks processed inChunks
         inTotalChunks inProcessed].
    split; [symmetry; exact Hid|]. repeat split.
  - rewrite He. reflexivity.
  - apply newEvents_app. rewrite Htrace. reflexivity.
Qed.

Lemma short_pdf_example :
  result (processDocument oracle botA alice (lit "note.pdf") note (lit "pdf") fresh)
  = inr (lit "doc0")
  /\ exists doc,
       documents (after (processDocument oracle botA alice (lit "note.pdf") note
                           (lit "pdf") fresh)) = documents fresh ++ [doc]
       /\ _id doc = lit "doc0" /\ chunks doc = [] /\ totalChunks doc = 0
       /\ processed doc = true.
Proof.
  assert (Hres : result (processDocument oracle botA alice (lit "note.pdf") note
                           (lit "pdf") fresh) = inr (lit "doc0"))
    by (vm_compute; reflexivity).
  split; [exact Hres|].
  apply (short_pdf_stored_without_chunks oracle botA alice (lit "note.pdf") note
           (lit "pdf") note (lit "doc0") fresh);
    [reflexivity|vm_compute; reflexivity|exact Hres].
Defined.

(** *** Fallback mode is kept *)

(** X15. While ChromaDB is marked unavailable, no operation of the
    document service contacts it or marks it available again: after an
    ingestion, a search or a deletion, the state of the vector service
    and the number of round trips to ChromaDB are what they were. *)
Theorem offline_stays_offline (o : Oracle) (w : World) :
  isAvailable (chroma w) = false ->
  (forall botId_ userId_ filename_ buffer fileType_,
     let w' := after (processDocument o botId_ userId_ filename_ buffer fileType_ w) in
     chroma w' = chroma w /\ chromaOps w' = chromaOps w)
  /\ (forall botId_ userId_ filename_ text_ fileType_,
        let w' := after (processDocumentFromText o botId_ userId_ filename_ text_
                           fileType_ w) in
        chroma w' = chroma w /\ chromaOps w' = chromaOps w)
  /\ (forall botId_ query topK,
        let w' := after (searchDocuments o botId_ query topK w) in
        chroma w' = chroma w /\ chromaOps w' = chromaOps w)
  /\ (forall documentId_ userId_,
        let w' := after (deleteDocument o documentId_ userId_ w) in
        chroma w' = chroma w /\ chromaOps w' = chromaOps w).
Proof.
  intros Hoff. split; [|split; [|split]]; cbv zeta; unfold after.
  - intros botId_ userId_ filename_ buffer fileType_.
    destruct (processDocument_end o botId_ userId_ filename_ buffer fileType_ w)
      as [(e & -> & _)|(text_ & _ & _ & Hend)]; [split; reflexivity|].
    cbv zeta in Hend. apply IngestEnd_keeps in Hend as [_ Hend]. exact (Hend Hoff).
  - intros botId_ userId_ filename_ text_ fileType_.
    destruct (processDocumentFromText_end o botId_ userId_ filename_ text_ fileType_ w)
      as [[_ ->]|[_ Hend]]; [split; reflexivity|].
    cbv zeta in Hend. apply IngestEnd_keeps in Hend as [_ Hend]. exact (Hend Hoff).
  - intros botId_ query topK.
    destruct (searchDocuments_frame o botId_ query topK w)
      as (emb & w' & -> & _ & Hkeep).
    apply Hkeep. unfold isConnected. rewrite Hoff. reflexivity.
  - intros documentId_ userId_. apply deleteDocument_offline, Hoff.
Qed.

Lemma offline_stays_offline_example :
  isAvailable (chroma (after (searchDocuments oracle botA (lit "opening hours") 8
                                shelved))) = false.
Proof.
  destruct (offline_stays_offline oracle shelved) as (_ & _ & H & _); [reflexivity|].
  destruct (H botA (lit "opening hours") 8) as [-> _]. reflexivity.
Defined.

(** *** The number of results *)

(** X16. A search never throws, and for a limit [topK] that is not
    negative it returns at most [topK] results. *)
Theorem searchDocuments_at_most_topK (o : Oracle) (botId_ query : jsstring)
    (topK : Z) (w : World) :
  0 <= topK ->
  exists results,
    result (searchDocuments o botId_ query topK w) = inr results
    /\ Z.of_nat (length results) <= topK.
Proof.
  intros Hk.
  destruct (searchDocuments_frame o botId_ query topK w) as (emb & w' & Heq & _).
  unfold result. rewrite Heq. cbn [fst]. eexists. split; [reflexivity|].
  unfold searchOutcome.
  destruct (negb (isObjectId o botId_) || mongoFails o (mongoOps w));
    [cbn [length]; lia|].
  destruct (strlen (processedOf botId_ (documents w)) =? 0); [cbn [length]; lia|].
  destruct (isConnected w).
  - unfold formatChromaResults. cbv zeta. rewrite List.length_map.
    apply length_slice_prefix, Hk.
  - rewrite fallbackResults_stored. apply length_slice_prefix, Hk.
Qed.

Lemma searchDocuments_at_most_topK_example :
  exists results,
    result (searchDocuments oracle botA (lit "opening hours") 2 shelved) = inr results
    /\ Z.of_nat (length results) <= 2.
Proof. apply searchDocuments_at_most_topK. lia. Defined.

(** *** Searches that find no document *)

(** X17. A search returns the empty list, and not an error, when the bot
    id is no ObjectId and when the query to MongoDB fails, as it does
    for a bot without processed documents; in none of these cases the
    vector index is queried, whether it is connected or not. *)
Theorem search_failures_look_empty (o : Oracle) (botId_ query : jsstring)
    (topK : Z) (w : World) :
  isObjectId o botId_ = false \/ mongoFails o (mongoOps w) = true
  \/ processedOf botId_ (documents w) = [] ->
  let r := searchDocuments o botId_ query topK w in
  result r = inr []
  /\ documents (after r) = documents w
  /\ chromaOps (after r) = chromaOps w.
Proof.
  intros Hcase. cbv zeta. unfold result, after.
  destruct (searchDocuments_nothing o botId_ query topK w Hcase)
    as (w' & -> & Hd & _ & Hco).
  cbn [fst snd]. auto.
Qed.

Lemma search_failures_look_empty_example :
  result (searchDocuments mongoDownOracle botA (lit "opening hours") 8 shelvedOnline)
  = inr []
  /\ result (searchDocuments oracle botB (lit "opening hours") 8 shelvedOnline)
     = inr [].
Proof.
  split.
  - apply (search_failures_look_empty mongoDownOracle botA (lit "opening hours") 8
             shelvedOnline).
    right. left. reflexivity.
  - apply (search_failures_look_empty oracle botB (lit "opening hours") 8
             shelvedOnline).
    right. right. vm_compute. reflexivity.
Defined.

(** *** The file names of the hits *)



(** *** The ids of the stored documents *)

(** X19. The ids of the stored documents stay distinct: no ingestion,
    deletion or search breaks it. *)
Theorem document_ids_stay_unique (o : Oracle) (w : World) :
  NoDup (List.map _id (documents w)) ->
  (forall botId_ userId_ filename_ buffer fileType_,
     NoDup (List.map _id
              (documents (after (processDocument o botId_ userId_ filename_ buffer
                                   fileType_ w)))))
  /\ (forall botId_ userId_ filename_ text_ fileType_,
        NoDup (List.map _id
                 (documents (after (processDocumentFromText o botId_ userId_ filename_
                                      text_ fileType_ w)))))
  /\ (forall documentId_ userId_,
        NoDup (List.map _id
                 (documents (after (deleteDocument o documentId_ userId_ w)))))
  /\ (forall botId_ query topK,
        NoDup (List.map _id
                 (documents (after (searchDocuments o botId_ query topK w))))).
Proof.
  intros Hnd. split; [|split; [|split]]; unfold after.
  - intros botId_ userId_ filename_ buffer fileType_.
    destruct (processDocument_end o botId_ userId_ filename_ buffer fileType_ w)
      as [(e & -> & _)|(text_ & _ & _ & Hend)]; [exact Hnd|].
    cbv zeta in Hend. apply IngestEnd_keeps in Hend as [Hend _]. exact (Hend Hnd).
  - intros botId_ userId_ filename_ text_ fileType_.
    destruct (processDocumentFromText_end o botId_ userId_ filename_ text_ fileType_ w)
      as [[_ ->]|[_ Hend]]; [exact Hnd|].
    cbv zeta in Hend. apply IngestEnd_keeps in Hend as [Hend _]. exact (Hend Hnd).
  - intros documentId_ userId_.
    destruct (deleteDocument_run o documentId_ userId_ w) as (w' & H).
    destruct (negb (isObjectId o documentId_ && isObjectId o userId_)
              || mongoFails o (mongoOps w)).
    + ran H. exact Hnd.
    + destruct (removeFirst _ (documents w)) as [remaining|] eqn:Hrem.
      * ran H.
        apply removeFirst_Some in Hrem as (before & d & rest & Hdocs & _ & _ & ->).
        rewrite Hdocs in Hnd. apply (NoDup_ids_remove before rest d Hnd).
      * ran H. exact Hnd.
  - intros botId_ query topK.
    destruct (searchDocuments_frame o botId_ query topK w) as (emb & w' & H).
    ran H. exact Hnd.
Qed.

Lemma document_ids_stay_unique_example :
  NoDup (List.map _id
           (documents (after (deleteDocument oracle (lit "doc0") alice shelved)))).
Proof.
  destruct (document_ids_stay_unique oracle shelved) as (_ & _ & H & _).
  - apply (bool_decide_unpack _). vm_compute. exact I.
  - apply H.
Defined.

(** *** Ingestion, then deletion *)

(** X20. A document that has just been ingested can be deleted by its
    user, which gives back the collection of documents as it was before
    the ingestion; another user cannot delete it. *)
Theorem ingest_then_delete (o : Oracle) (botId_ userId_ filename_ : jsstring)
    (buffer : list N) (fileType_ id_ : jsstring) (w : World) :
  let w1 := after (processDocument o botId_ userId_ filename_ buffer fileType_ w) in
  result (processDocument o botId_ userId_ filename_ buffer fileType_ w) = inr id_ ->
  isObjectId o id_ = true -> mongoFails o (mongoOps w1) = false ->
  result (deleteDocument o id_ userId_ w1) = inr true
  /\ documents (after (deleteDocument o id_ userId_ w1)) = documents w
  /\ (forall other,
        other <> userId_ ->
        result (deleteDocument o id_ other w1) = inr false
        /\ documents (after (deleteDocument o id_ other w1)) = documents w1).
Proof.
  cbv zeta. intros Hres Hid Hmongo.
  destruct (processDocument_stored o botId_ userId_ filename_ buffer fileType_ id_ w
              Hres)
    as (text_ & w0 & es & _ & _ & Hemb & Hv & Hi & Hnew & Hdocs & _).
  cbv zeta in Hv, Hi, Hdocs.
  destruct Hemb as (_ & Hd0 & _ & Hm0 & _).
  change (documents (awaited o w)) with (documents w) in Hd0.
  change (mongoOps (awaited o w)) with (mongoOps w) in Hm0.
  apply validates_ids in Hv as [_ Huser]. cbn [ingestInput inUserId] in Huser.
  pose proof (inserts_fresh o _ _ Hi) as Hfresh. rewrite Hd0, Hm0, <- Hnew in Hfresh.
  set (doc := newDocument o _ w0) in Hdocs.
  assert (Hdoc : _id doc = id_ /\ userId doc = userId_).
  { unfold doc. cbn [newDocument _id userId ingestInput inUserId].
    rewrite Hm0, Hnew. auto. }
  destruct Hdoc as [Hdi Hdu]. clearbody doc.
  set (w1 := after (processDocument o botId_ userId_ filename_ buffer fileType_ w)) in *.
  clearbody w1. unfold result, after. split; [|split].
  - destruct (deleteDocument_run o id_ userId_ w1) as (w' & H). cbv zeta in H.
    rewrite Hid, Huser, Hmongo, Hdocs in H. cbn [andb negb orb] in H.
    rewrite removeFirst_last in H.
    + ran H. auto.
    + intros x Hx. apply andb_false_iff. left. apply bool_decide_eq_false.
      exact (Hfresh x Hx).
    + rewrite Hdi, Hdu, !bool_decide_eq_true_2 by reflexivity. reflexivity.
  - destruct (deleteDocument_run o id_ userId_ w1) as (w' & H). cbv zeta in H.
    rewrite Hid, Huser, Hmongo, Hdocs in H. cbn [andb negb orb] in H.
    rewrite removeFirst_last in H.
    + ran H. auto.
    + intros x Hx. apply andb_false_iff. left. apply bool_decide_eq_false.
      exact (Hfresh x Hx).
    + rewrite Hdi, Hdu, !bool_decide_eq_true_2 by reflexivity. reflexivity.
  - intros other Hother.
    destruct (deleteDocument_run o id_ other w1) as (w' & H). cbv zeta in H.
    destruct (negb (isObjectId o id_ && isObjectId o other)
              || mongoFails o (mongoOps w1)).
    + ran H. auto.
    + rewrite removeFirst_none in H.
      * ran H. auto.
      * rewrite Hdocs. intros x Hx. apply in_app_or in Hx as [Hx|[<-|[]]].
        -- apply andb_false_iff. left. apply bool_decide_eq_false.
           exact (Hfresh x Hx).
        -- apply andb_false_iff. right. apply bool_decide_eq_false.
           rewrite Hdu. congruence.
Qed.

Lemma ingest_then_delete_example :
  result (deleteDocument oracle (lit "doc0") alice
            (after (processDocument oracle botA alice (lit "note.pdf") note (lit "pdf")
                      fresh)))
  = inr true
  /\ documents (after (deleteDocument oracle (lit "doc0") alice
                         (after (processDocument oracle botA alice (lit "note.pdf") note
                                   (lit "pdf") fresh))))
     = documents fresh.
Proof.
  destruct (ingest_then_delete oracle botA alice (lit "note.pdf") note (lit "pdf")
              (lit "doc0") fresh) as (H1 & H2 & _);
    [vm_compute; reflexivity|reflexivity|reflexivity|].
  split; [exact H1|exact H2].
Defined.

(** *** Deleting twice *)

(** X21. With distinct ids, a document is deleted once: after a deletion
    that returned [true], the same call returns [false] and changes
    nothing. *)
Theorem delete_twice (o : Oracle) (documentId_ userId_ : jsstring) (w : World) :
  NoDup (List.map _id (documents w)) ->
  let w1 := after (deleteDocument o documentId_ userId_ w) in
  result (deleteDocument o documentId_ userId_ w) = inr true ->
  result (deleteDocument o documentId_ userId_ w1) = inr false
  /\ documents (after (deleteDocument o documentId_ userId_ w1)) = documents w1.
Proof.
  intros Hnd. cbv zeta. unfold result, after. intros Hres.
  assert (Hgone : forall x, In x (documents (snd (deleteDocument o documentId_ userId_ w)))
                            -> _id x <> documentId_).
  { destruct (deleteDocument_run o documentId_ userId_ w) as (w' & H). cbv zeta in H.
    destruct (negb (isObjectId o documentId_ && isObjectId o userId_)
              || mongoFails o (mongoOps w)).
    - destruct H as (Heq & _). rewrite Heq in Hres. discriminate Hres.
    - destruct (removeFirst _ (documents w)) as [remaining|] eqn:Hrem.
      + ran H. cbn [snd].
        apply removeFirst_Some in Hrem as (before & d & rest & Hdocs & Hm & _ & ->).
        rewrite Hdocs in Hnd. apply andb_prop in Hm as [Hm _].
        apply bool_decide_eq_true in Hm. rewrite <- Hm.
        apply (NoDup_ids_remove before rest d Hnd).
      + destruct H as (Heq & _). rewrite Heq in Hres. discriminate Hres. }
  set (w1 := snd (deleteDocument o documentId_ userId_ w)) in *. clearbody w1.
  destruct (deleteDocument_run o documentId_ userId_ w1) as (w' & H). cbv zeta in H.
  destruct (negb (isObjectId o documentId_ && isObjectId o userId_)
            || mongoFails o (mongoOps w1)).
  - ran H. auto.
  - rewrite removeFirst_none in H.
    + ran H. auto.
    + intros x Hx. apply andb_false_iff. left. apply bool_decide_eq_false.
      exact (Hgone x Hx).
Qed.

Lemma delete_twice_example :
  result (deleteDocument oracle (lit "doc0") alice
            (after (deleteDocument oracle (lit "doc0") alice shelved)))
  = inr false.
Proof.
  destruct (delete_twice oracle (lit "doc0") alice shelved) as [H _].
  - apply (bool_decide_unpack _). vm_compute. exact I.
  - vm_compute. reflexivity.
  - exact H.
Defined.

(** *** Ingestion, then retrieval without the vector index *)

(** X22. In fallback mode the chunks of a newly ingested document come
    after the chunks of the documents the bot already had: a search
    returns the first [topK] of the old chunks followed by the new ones.
    So when the bot already had [topK] chunks or more, the new document
    does not show in the results. *)
Theorem ingested_chunks_come_last (o : Oracle) (botId_ userId_ filename_ : jsstring)
    (buffer : list N) (fileType_ text_ id_ query : jsstring) (topK : Z) (w : World) :
  isAvailable (chroma w) = false -> pdfParse o buffer = Some text_ ->
  let w1 := after (processDocument o botId_ userId_ filename_ buffer fileType_ w) in
  result (processDocument o botId_ userId_ filename_ buffer fileType_ w) = inr id_ ->
  mongoFails o (mongoOps w1) = false ->
  let old := storedChunks (processedOf botId_ (documents w)) in
  let new := List.map (fun c => {| resContent := c; resScore := 0.5%float;
                                   resFilename := filename_ |})
                      (chunkText o text_) in
  result (searchDocuments o botId_ query topK w1) = inr (slice (old ++ new) 0 topK)
  /\ (0 <= topK <= Z.of_nat (length old) ->
      result (searchDocuments o botId_ query topK w1) = inr (slice old 0 topK)).
Proof.
  intros Hoff Hpdf. cbv zeta. intros Hres Hmongo.
  destruct (processDocument_stored o botId_ userId_ filename_ buffer fileType_ id_ w
              Hres)
    as (text' & w0 & es & Hpdf' & _ & _ & Hv & _ & _ & Hdocs & _ & _ & Hkeep).
  rewrite Hpdf in Hpdf'. injection Hpdf' as <-.
  cbv zeta in Hv, Hdocs. destruct (Hkeep Hoff) as [Hch _].
  apply validates_ids in Hv as [Hbot _]. cbn [ingestInput inBotId] in Hbot.
  set (doc := newDocument o _ w0) in Hdocs.
  assert (Hdoc : botId doc = botId_ /\ processed doc = true
                 /\ filename doc = filename_
                 /\ List.map content (chunks doc) = chunkText o text_).
  { unfold doc. cbn [newDocument botId processed filename chunks ingestInput
                     inBotId inProcessed inFilename inChunks].
    destruct (toChunkEntries_spec (chunkText o text_)) as (Hc & _). auto. }
  destruct Hdoc as (Hdb & Hdp & Hdf & Hdc). clearbody doc.
  set (w1 := after (processDocument o botId_ userId_ filename_ buffer fileType_ w)) in *.
  clearbody w1.
  assert (Hrun : result (searchDocuments o botId_ query topK w1)
                 = inr (slice (storedChunks (processedOf botId_ (documents w))
                               ++ List.map (fun c => {| resContent := c;
                                                        resScore := 0.5%float;
                                                        resFilename := filename_ |})
                                           (chunkText o text_)) 0 topK)).
  { destruct (searchDocuments_frame o botId_ query topK w1) as (emb & w' & Heq & _).
    unfold result. rewrite Heq. cbn [fst]. f_equal.
    unfold searchOutcome, isConnected. rewrite Hbot, Hmongo, Hch, Hoff.
    cbn [negb orb andb]. rewrite Hdocs. unfold processedOf.
    rewrite List.filter_app. cbn [List.filter].
    rewrite Hdb, Hdp, bool_decide_eq_true_2 by reflexivity. cbn [andb].
    destruct (Z.eqb_spec (strlen (List.filter
                                    (fun d => bool_decide (botId d = botId_) && processed d)
                                    (documents w) ++ [doc])) 0) as [Hlen|_].
    - unfold strlen in Hlen. rewrite length_app in Hlen. cbn [length] in Hlen. lia.
    - rewrite fallbackResults_stored, storedChunks_snoc, Hdf, <- Hdc, List.map_map.
      reflexivity. }
  split; [exact Hrun|]. intros Hk. rewrite Hrun. f_equal.
  rewrite !slice_prefix by lia. apply take_app_le. lia.
Qed.

Lemma ingested_chunks_come_last_example :
  result (searchDocuments oracle botA (lit "opening hours") 3
            (after (processDocument oracle botA alice (lit "leaflet.pdf") leaflet
                      (lit "pdf") shelved)))
  = inr (slice (storedChunks (processedOf botA (documents shelved))) 0 3).
Proof.
  destruct (ingested_chunks_come_last oracle botA alice (lit "leaflet.pdf") leaflet
              (lit "pdf") leaflet (lit "doc2") (lit "opening hours") 3 shelved)
    as [_ H]; [reflexivity|reflexivity|vm_compute; reflexivity|reflexivity|].
  apply H. vm_compute. split; discriminate.
Defined.

End DocumentExtras.

(* ===================================================================== *)
(** ** More about the text of a URL *)
(* ===================================================================== *)

Module WebFacts.
Import Service More EffFacts JSFacts TextFacts.

Lemma replaceBlankLines_without_LF (s : jsstring) :
  (forall c, In c s -> c <> LF) -> replaceBlankLines None s = s.
Proof.
  induction s as [|c s IH]; intros Hno; [reflexivity|].
  cbn [replaceBlankLines].
  destruct (N.eqb_spec c LF) as [->|_];
    [exfalso; exact (Hno LF (or_introl eq_refl) eq_refl)|].
  f_equal. apply IH. intros d Hd. apply Hno. right. exact Hd.
Qed.

(** The cleaning of the page text: the second replacement changes
    nothing. *)
Lemma cleanPage_collapsed (raw : jsstring) :
  trim (replaceBlankLines None (replaceWsRuns [SP] false raw))
  = trim (replaceWsRuns [SP] false raw).
Proof.
  rewrite replaceBlankLines_without_LF; [reflexivity|].
  intros c Hc ->.
  pose proof (replaceWsRuns_SP_no_other_space raw false LF Hc eq_refl) as H.
  discriminate H.
Qed.

Lemma extractText_inr (web : WebOracle) (response : WebResponse) (text_ : jsstring) :
  extractText web response = inr text_ ->
  httpStatus response < 400
  /\ 50 <= strlen text_
  /\ exists raw, text_ = trim (replaceWsRuns [SP] false raw).
Proof.
  unfold extractText.
  destruct (Z.geb_spec (httpStatus response) 400) as [|Hlt].
  - destruct (httpStatus response =? 999); discriminate.
  - cbv zeta. rewrite cleanPage_collapsed.
    set (raw := if isEmpty _ then _ else _).
    destruct (isEmpty (trim (replaceWsRuns [SP] false raw))); [discriminate|].
    cbn [orb].
    destruct (Z.ltb_spec (strlen (trim (replaceWsRuns [SP] false raw))) 50);
      [discriminate|].
    intros [= <-]. split; [exact Hlt|]. split; [assumption|]. exists raw. reflexivity.
Qed.

Lemma extractFromURL_run (o : Oracle) (web : WebOracle) (url : jsstring) (w : World) :
  extractFromURL o web url w =
    match axiosGet web url with
    | inl error => (inl (newError (explain error)), awaited o w)
    | inr response =>
        match extractText web response with
        | inl error => (inl (newError (explain error)), awaited o w)
        | inr text_ => (inr text_, awaited o w)
        end
    end.
Proof.
  unfold extractFromURL, await. unfoldM. unfold awaited.
  destruct (axiosGet web url) as [error|response]; [reflexivity|].
  destruct (extractText web response); reflexivity.
Qed.

Lemma startsWith_prefix (pre s : jsstring) : startsWith (pre ++ s) pre = true.
Proof.
  induction pre as [|c pre IH]; [destruct s; reflexivity|].
  cbn [app startsWith]. rewrite N.eqb_refl, IH. reflexivity.
Qed.

Lemma includes_prefix (pre s : jsstring) : includes (pre ++ s) pre = true.
Proof.
  pose proof (startsWith_prefix pre s) as H.
  destruct (pre ++ s); cbn [includes]; rewrite H; reflexivity.
Qed.

End WebFacts.

(* ===================================================================== *)
(** ** Further properties: the upload of a URL *)
(* ===================================================================== *)

Module WebExtras.
Import Service More EffFacts JSFacts TextFacts ServiceFacts DocumentFacts WebFacts
  Examples MoreExamples.

(** *** The text of a page *)



(** *** A URL is never stored *)

(** X24. The upload of a URL extracts the text of the page and hands it
    to [processDocumentFromText] with the URL as file name and [url] as
    file type. Whenever the extraction succeeds, the ingestion generates
    an embedding for every chunk of the text and then fails with the
    validation error: no record is stored and nothing is written to the
    vector index. *)
Theorem url_upload_never_stored (o : Oracle) (web : WebOracle)
    (botId_ userId_ url text_ : jsstring) (w : World) :
  result (extractFromURL o web url w) = inr text_ ->
  let w1 := after (extractFromURL o web url w) in
  let r := processDocumentFromText o botId_ userId_ url text_ (lit "url") w1 in
  result r = inl validationError
  /\ documents (after r) = documents w
  /\ newEvents w (after r) = newEvents w1 (after r)
  /\ List.filter isGenerateEmbedding (newEvents w (after r))
     = List.map EvGenerateEmbedding (chunkText o text_)
  /\ List.filter isAddEmbeddings (newEvents w (after r)) = [].
Proof.
  intros Hres. cbv zeta.
  assert (Hpage : isBlank text_ = false
                  /\ documents (after (extractFromURL o web url w)) = documents w
                  /\ trace (after (extractFromURL o web url w)) = trace w).
  { revert Hres. unfold result, after. rewrite extractFromURL_run.
    destruct (axiosGet web url) as [error|response]; [discriminate|].
    destruct (extractText web response) as [error|text'] eqn:Htext; [discriminate|].
    cbn [fst snd]. intros [= ->].
    apply extractText_inr in Htext as (_ & Hlen & raw & ->).
    split; [|split; reflexivity].
    unfold isBlank. rewrite trim_idempotent.
    destruct (trim (replaceWsRuns [SP] false raw)) as [|c s] eqn:Ht.
    - unfold strlen in Hlen. cbn [length] in Hlen. lia.
    - cbn [isEmpty orb]. apply Z.eqb_neq. lia. }
  destruct Hpage as (Hblank & Hdocs & Htrace).
  set (w1 := after (extractFromURL o web url w)) in *. clearbody w1.
  unfold result, after.
  destruct (invalid_fileType_run o botId_ userId_ url text_ (lit "url") w1
              ltac:(vm_compute; reflexivity) Hblank)
    as (w2 & es & (_ & Hd & _ & _ & _ & Ht & Hg & Hs) & ->).
  cbn [fst snd].
  assert (Hev : forall w', newEvents w w' = newEvents w1 w').
  { intros w'. unfold newEvents. rewrite Htrace. reflexivity. }
  assert (Hnew : newEvents w1 (emitted (EvDocumentCreate false) w2)
                 = es ++ [EvDocumentCreate false]).
  { apply newEvents_app. unfold emitted. simplWorld. rewrite Ht, <- app_assoc.
    reflexivity. }
  rewrite !Hev, Hnew, !List.filter_app, (no_store_no_add es Hs), Hg.
  unfold emitted. simplWorld. cbn [List.filter isAddEmbeddings isGenerateEmbedding].
  rewrite Hd, Hdocs, app_nil_r. auto.
Qed.

Lemma url_upload_example :
  result (processDocumentFromText oracle botA alice leafletUrl leaflet (lit "url")
            (after (extractFromURL oracle site leafletUrl fresh)))
  = inl (Service.validationError).
Proof.
  destruct (url_upload_never_stored oracle site botA alice leafletUrl leaflet fresh)
    as (H & _); [vm_compute; reflexivity|].
  exact H.
Defined.

(** *** Statuses *)

(** X25. A response with a status from 400 to 499 is reported as
    [Failed to fetch URL: HTTP <status>: <status text>], unless that
    message contains [timeout] or [999], which the handler tests first.
    A status of 500 or more does not pass [validateStatus]: the request
    itself fails, so the [try] block never sees the status 999 that it
    has a message for. *)
Theorem http_errors_reported (o : Oracle) (web : WebOracle) (url : jsstring)
    (w : World) :
  (forall response,
     httpGet web url = inr response -> 400 <= httpStatus response < 500 ->
     let m := lit "HTTP " ++ showZ (httpStatus response) ++ lit ": "
              ++ httpStatusText response in
     result (extractFromURL o web url w)
     = inl (newError
              (if includes m (lit "timeout")
               then lit "Request timed out - the website took too long to respond"
               else if includes m (lit "999")
               then lit "This website blocks automated access (LinkedIn, etc.). Please copy text manually or use a different URL"
               else lit "Failed to fetch URL: " ++ m)))
  /\ (forall response,
        axiosGet web url = inr response ->
        httpStatus response < 500
        /\ extractText web response <> inl (thrown linkedInMessage)).
Proof.
  split.
  - intros response Hget [Hlo Hhi]. cbv zeta. unfold result.
    rewrite extractFromURL_run. unfold axiosGet, validateStatus. rewrite Hget.
    destruct (Z.ltb_spec (httpStatus response) 500) as [_|]; [|lia].
    unfold extractText.
    destruct (Z.geb_spec (httpStatus response) 400) as [_|]; [|lia].
    destruct (Z.eqb_spec (httpStatus response) 999) as [|_]; [lia|].
    cbn [fst]. f_equal. f_equal.
    set (rest := showZ (httpStatus response) ++ lit ": " ++ httpStatusText response).
    unfold explain, messageIncludes, thrown.
    cbn [errCode errMessage errResponseStatus default].
    rewrite !bool_decide_eq_false_2 by discriminate. cbn [orb].
    destruct (includes (lit "HTTP " ++ rest) (lit "timeout")); [reflexivity|].
    rewrite orb_false_r.
    destruct (includes (lit "HTTP " ++ rest) (lit "999")); [reflexivity|].
    change (lit "HTTP " ++ rest) with (lit "HTTP" ++ (SP :: rest)).
    rewrite includes_prefix. reflexivity.
  - intros response. unfold axiosGet, validateStatus.
    destruct (httpGet web url) as [error|response']; [discriminate|].
    destruct (Z.ltb_spec (httpStatus response') 500) as [Hlt|]; [|discriminate].
    intros [= <-]. split; [exact Hlt|]. unfold extractText.
    destruct (httpStatus response' >=? 400).
    + destruct (Z.eqb_spec (httpStatus response') 999) as [|_]; [lia|].
      intros [= H].
    + cbv zeta. destruct (_ || _); discriminate.
Qed.

Lemma http_errors_reported_example :
  result (extractFromURL oracle site (lit "https://library.example/missing") fresh)
  = inl (newError (lit "Failed to fetch URL: HTTP 404: Not Found")).
Proof.
  destruct (http_errors_reported oracle site (lit "https://library.example/missing")
              fresh) as [H _].
  exact (H {| httpStatus := 404; httpStatusText := lit "Not Found"; httpData := [] |}
           eq_refl ltac:(cbn; lia)).
Defined.

End WebExtras.
